(** * TIG fractal runtime: Pulse, Triad and LatticeRuntime

    A shallow embedding of [src/TIGFractalEngine.py].  Python floats are
    idealised as real numbers ([R]); integers are [Z]; the two external
    sources of non-determinism (the monotonic clock and [random.gauss])
    are explicit inputs of the functions that read them.  Exceptions are a
    [result] value, and a method that mutates [self] before it raises
    returns the partially updated object next to the exception. *)

From Stdlib Require Import String Reals ZArith Bool Lia Lra Psatz List.
Import ListNotations.
Open Scope R_scope.

(** ** Python helpers *)

Inductive exn : Type :=
| ZeroDivisionError
| IndexError
| OverflowError
| ValueError
| UserError (tag : string).

Inductive result (A : Type) : Type :=
| Ok (a : A)
| Raise (e : exn).
Arguments Ok {A} a.
Arguments Raise {A} e.

Definition py_gt (x y : R) : bool := if Rgt_dec x y then true else false.
Definition py_ge (x y : R) : bool := if Rge_dec x y then true else false.
Definition py_le (x y : R) : bool := if Rle_dec x y then true else false.

(** [x / y] on floats: division by zero raises. *)
Definition py_div (x y : R) : result R :=
  if Req_dec_T y 0 then Raise ZeroDivisionError else Ok (x / y).

(** [int(x)]: truncation toward zero. *)
Definition py_int (x : R) : Z :=
  if Rle_dec 0 x then Int_part x else (- Int_part (- x))%Z.

(** [x % 1.0] for floats: the result has the sign of the divisor.  The
    float result is in [0, 1) like this one, but carries the rounding of the
    sum it is taken of, so only the range is relied on below. *)
Definition py_mod1 (x : R) : R := x - IZR (Int_part x).

(** A Python float: a finite value, an infinity or a NaN. *)
Inductive pyfloat : Type :=
| Finite (x : R)
| Infinity (negative : bool)
| NaN.

(** Where a quotient of doubles overflows: a magnitude of at least the
    largest double plus half a unit in its last place rounds to an
    infinity. *)
Definition FLOAT_OVERFLOW : R := IZR (2 ^ 1024 - 2 ^ 970).

(** [x / y] on floats, for a finite [x] other than zero: a zero divisor
    raises, a quotient out of range is an infinity and no error, and in
    range the rounding is left out. *)
Definition py_fdiv (x : R) (y : pyfloat) : result pyfloat :=
  match y with
  | NaN => Ok NaN
  | Infinity _ => Ok (Finite 0)
  | Finite v =>
      if Req_dec_T v 0 then Raise ZeroDivisionError
      else if Rle_dec FLOAT_OVERFLOW (Rabs (x / v))
           then Ok (Infinity (if Rlt_dec (x / v) 0 then true else false))
           else Ok (Finite (x / v))
  end.

(** [int(q)] with the errors of the conversion. *)
Definition py_int_float (q : pyfloat) : result Z :=
  match q with
  | Finite v => Ok (py_int v)
  | Infinity _ => Raise OverflowError
  | NaN => Raise ValueError
  end.

(** [sum(l)] for a list of floats. *)
Definition py_sum (l : list R) : R := fold_right Rplus 0 l.

(** [collections.deque(maxlen=n).append]: push right, drop from the left. *)
Definition deque_append {A : Type} (maxlen : nat) (d : list A) (x : A) : list A :=
  skipn (length (d ++ [x]) - maxlen) (d ++ [x]).

(** [l[-n:]] *)
Definition py_last {A : Type} (n : nat) (l : list A) : list A :=
  skipn (length l - n) l.

(** A [dict] keyed by strings, in insertion order. *)
Definition dict (V : Type) : Type := list (string * V).

Fixpoint dict_get {V : Type} (d : dict V) (k : string) : option V :=
  match d with
  | [] => None
  | (k', v) :: tl => if String.eqb k' k then Some v else dict_get tl k
  end.

Fixpoint dict_set {V : Type} (d : dict V) (k : string) (v : V) : dict V :=
  match d with
  | [] => [(k, v)]
  | (k', v') :: tl =>
      if String.eqb k' k then (k', v) :: tl else (k', v') :: dict_set tl k v
  end.

Definition dict_values {V : Type} (d : dict V) : list V := map snd d.

Definition dict_mem {V : Type} (d : dict V) (k : string) : bool :=
  match dict_get d k with Some _ => true | None => false end.

(** [d.get(k, 0)] *)
Definition dict_get0 (d : dict Z) (k : string) : Z :=
  match dict_get d k with Some n => n | None => 0%Z end.

(** ** Constants *)

Definition SIGMA : R := 991 / 1000.
Definition SIGMA_STAR : R := 9 / 1000.
Definition T_STAR : R := 714 / 1000.
Definition FACTOR : R := SIGMA * (1 - SIGMA_STAR).

Definition s_star (V A : R) : R := FACTOR * V * A.

(** ** The Triad *)

Definition C : R := 1.

Record Triad : Type := mkTriad {
  name : string;
  _micro_buf : list R;
  _micro_len : Z;
  self_ema : R;
  self_emv : R;
  macro_s_star : R;
  count : Z;
  parent : option nat;
  children : list nat;
  _child_coherences : dict R
}.

(** [Triad.__init__], without the registration in the parent's list of
    children (done by [new_Triad] below, where the parent lives). *)
Definition Triad_init (nm : string) (par : option nat) : Triad :=
  mkTriad nm [] 0 0 0 T_STAR 0 par [] [].

(** [[recent[i+1] - recent[i] for i in range(len(recent)-1)]] *)
Fixpoint adjacent_diffs (l : list R) : list R :=
  match l with
  | a :: ((b :: _) as tl) => (b - a) :: adjacent_diffs tl
  | _ => []
  end.

(** [sum(1 for i in range(len(diffs)-1) if (diffs[i] >= 0) == (diffs[i+1] >= 0))] *)
Fixpoint sign_agreements (ds : list R) : nat :=
  match ds with
  | d0 :: ((d1 :: _) as tl) =>
      ((if Bool.eqb (py_ge d0 0) (py_ge d1 0) then 1 else 0)
       + sign_agreements tl)%nat
  | _ => 0%nat
  end.

(** The alignment term of [observe], from the raw buffer. *)
Definition alignment_of (buf : list R) : R :=
  if (4 <=? length buf)%nat then
    let recent := py_last 4 buf in
    let diffs := adjacent_diffs recent in
    if forallb (fun d => py_ge d 0) diffs || forallb (fun d => py_le d 0) diffs
    then 1
    else (INR (sign_agreements diffs) + 1) / INR (length diffs)
  else 5 / 10.

(** The local [own_s_star] of [observe], as a function of the fields that
    [observe] has just updated.  None of its divisions can raise: the mean
    is positive where it divides, [cv] is not negative, and there are three
    differences.  [math.sqrt] is applied to [self_emv], which is never
    negative ([observe_local_emv_nonneg]). *)
Definition own_s_star (t : Triad) : R :=
  if (4 <=? _micro_len t)%Z then
    let cv := if py_gt (self_ema t) 0
              then sqrt (self_emv t) / self_ema t else 1 in
    let vitality := 1 / (1 + cv) in
    s_star vitality (alignment_of (_micro_buf t))
  else T_STAR.

(** The blend of an own score with the children's mean (c = 1), when
    there are children; [otherwise] when the dictionary is empty. *)
Definition blend (own : R) (cc : dict R) (otherwise : R) : R :=
  match cc with
  | [] => otherwise
  | _ :: _ =>
      let child_vals := dict_values cc in
      let child_mean := py_sum child_vals / INR (length child_vals) in
      (own + child_mean * C) / (1 + C)
  end.

(** The body of [Triad.observe] up to the report to the parent. *)
Definition observe_local (t : Triad) (value : R) : Triad :=
  let count' := (count t + 1)%Z in
  let buf' := deque_append 64 (_micro_buf t) value in
  let len' := Z.min (_micro_len t + 1) 64 in
  let alpha := 1 - SIGMA in
  let ema' := if (count' =? 1)%Z then value
              else alpha * value + SIGMA * self_ema t in
  let emv' := if (count' =? 1)%Z then 0
              else alpha * (value - ema') ^ 2 + SIGMA * self_emv t in
  let t1 := mkTriad (name t) buf' len' ema' emv' (macro_s_star t) count'
                    (parent t) (children t) (_child_coherences t) in
  let own := own_s_star t1 in
  mkTriad (name t) buf' len' ema' emv'
          (blend own (_child_coherences t) own) count'
          (parent t) (children t) (_child_coherences t).

(** The own score that [_receive_child_coherence] uses. *)
Definition own_s_on_report (t : Triad) : R :=
  if py_gt (self_ema t) 0 && (4 <=? _micro_len t)%Z then
    let cv := sqrt (self_emv t) / self_ema t in
    let own_v := 1 / (1 + cv) in
    s_star own_v (5 / 10)
  else T_STAR.

(** The body of [Triad._receive_child_coherence] up to the report to the
    parent. *)
Definition receive_local (t : Triad) (child_name : string) (child_s_star : R)
  : Triad :=
  let cc := dict_set (_child_coherences t) child_name child_s_star in
  mkTriad (name t) (_micro_buf t) (_micro_len t) (self_ema t) (self_emv t)
          (blend (own_s_on_report t) cc (macro_s_star t)) (count t)
          (parent t) (children t) cc.

(** ** The tree of Triads

    Triads refer to each other (parent, children), so they live in an arena
    and a handle is an index into it.  [Triad.__init__] takes a parent that
    already exists: a parent's handle is smaller than its child's. *)

Definition Arena : Type := list Triad.

Fixpoint arena_set (a : Arena) (i : nat) (t : Triad) : Arena :=
  match a, i with
  | [], _ => []
  | _ :: tl, O => t :: tl
  | x :: tl, S j => x :: arena_set tl j t
  end.

Definition add_child (t : Triad) (c : nat) : Triad :=
  mkTriad (name t) (_micro_buf t) (_micro_len t) (self_ema t) (self_emv t)
          (macro_s_star t) (count t) (parent t) (children t ++ [c])
          (_child_coherences t).

(** [Triad(name, parent)] *)
Definition new_Triad (a : Arena) (nm : string) (par : option nat) : Arena * nat :=
  let id := length a in
  let a1 := a ++ [Triad_init nm par] in
  match par with
  | None => (a1, id)
  | Some p =>
      match nth_error a1 p with
      | Some pt => (arena_set a1 p (add_child pt id), id)
      | None => (a1, id)
      end
  end.

(** [Triad._receive_child_coherence] on the Triad [id].  The recursion
    follows the parent links; [fuel] bounds their number. *)
Fixpoint _receive_child_coherence (fuel : nat) (a : Arena) (id : nat)
    (child_name : string) (child_s_star : R) : option Arena :=
  match nth_error a id with
  | None => None
  | Some t =>
      let t' := receive_local t child_name child_s_star in
      let a' := arena_set a id t' in
      match parent t' with
      | None => Some a'
      | Some p =>
          match fuel with
          | O => None
          | S f => _receive_child_coherence f a' p (name t') (macro_s_star t')
          end
      end
  end.

(** The dictionary that [observe] returns. *)
Record Observation : Type := mkObservation {
  obs_micro : R;
  obs_self_ema : R;
  obs_self_std : R;
  obs_macro_s : R;
  obs_n : Z
}.

(** [Triad.observe] on the Triad [id]. *)
Definition observe (a : Arena) (id : nat) (value : R)
  : option (Arena * Observation) :=
  match nth_error a id with
  | None => None
  | Some t =>
      let t' := observe_local t value in
      let a' := arena_set a id t' in
      let res := mkObservation value (self_ema t') (sqrt (self_emv t'))
                               (macro_s_star t') (count t') in
      match parent t' with
      | None => Some (a', res)
      | Some p =>
          match _receive_child_coherence (length a) a' p (name t')
                                         (macro_s_star t') with
          | Some a'' => Some (a'', res)
          | None => None
          end
      end
  end.

(** A run of [observe] calls, each on some Triad of the tree; the result
    carries the own score of every call. *)
Fixpoint observe_all (a : Arena) (calls : list (nat * R))
  : option (Arena * list R) :=
  match calls with
  | [] => Some (a, [])
  | (id, v) :: rest =>
      match nth_error a id, observe a id v with
      | Some t, Some (a', _) =>
          match observe_all a' rest with
          | Some (a'', owns) => Some (a'', own_s_star (observe_local t v) :: owns)
          | None => None
          end
      | _, _ => None
      end
  end.

(** *** Invariants of the tree *)

Definition in01 (x : R) : Prop := 0 <= x <= 1.

Definition triad_ok (i : nat) (t : Triad) : Prop :=
  (forall p, parent t = Some p -> (p < i)%nat)
  /\ in01 (macro_s_star t)
  /\ Forall in01 (dict_values (_child_coherences t))
  /\ 0 <= self_emv t.

Definition arena_ok (a : Arena) : Prop :=
  forall i t, nth_error a i = Some t -> triad_ok i t.

(** ** The Pulse *)

Record Pulse : Type := mkPulse {
  target_ns : Z;
  phase : R;
  ema_actual : R;
  ema_error : R;
  sigma_weight : R;
  fire_count : Z;
  lock_achieved : bool;
  natural_freq : R;
  coherence : R;
  _history : list Z;
  _hist_len : Z
}.

(** The dictionary that [wait] returns. *)
Record PulseData : Type := mkPulseData {
  pd_ns : Z;
  pd_error_ns : Z;
  pd_phase : R;
  pd_coherence : R;
  pd_locked : bool;
  pd_fire : Z
}.

(** [int(1e9 / target_hz)], the first line of [Pulse.__init__], for any
    float: the division raises on a zero rate, the conversion on a quotient
    that has overflowed and on a NaN. *)
Definition target_ns_of (target_hz : pyfloat) : result Z :=
  match py_fdiv 1000000000 target_hz with
  | Raise e => Raise e
  | Ok q => py_int_float q
  end.

(** [Pulse.__init__] for a finite rate; nothing after the first line can
    raise. *)
Definition Pulse_init (target_hz : R) : result Pulse :=
  match target_ns_of (Finite target_hz) with
  | Raise e => Raise e
  | Ok tns =>
      Ok (mkPulse tns 0 (IZR tns) 0 SIGMA 0 false target_hz T_STAR [] 0)
  end.

(** The spin-wait deadline of [wait], relative to [t_start]. *)
Definition adjusted_ns (p : Pulse) : R :=
  let correction := ema_error p * (1 - sigma_weight p) in
  Rmax 100 (ema_actual p - IZR (py_int correction)).

Definition set_measure (p : Pulse) (ea ee : R) (h : list Z) (hl : Z) : Pulse :=
  mkPulse (target_ns p) (phase p) ea ee (sigma_weight p) (fire_count p)
          (lock_achieved p) (natural_freq p) (coherence p) h hl.

Definition set_coherence (p : Pulse) (c : R) : Pulse :=
  mkPulse (target_ns p) (phase p) (ema_actual p) (ema_error p) (sigma_weight p)
          (fire_count p) (lock_achieved p) (natural_freq p) c
          (_history p) (_hist_len p).

Definition set_lock_achieved (p : Pulse) (b : bool) : Pulse :=
  mkPulse (target_ns p) (phase p) (ema_actual p) (ema_error p) (sigma_weight p)
          (fire_count p) b (natural_freq p) (coherence p)
          (_history p) (_hist_len p).

Definition set_natural_freq (p : Pulse) (f : R) : Pulse :=
  mkPulse (target_ns p) (phase p) (ema_actual p) (ema_error p) (sigma_weight p)
          (fire_count p) (lock_achieved p) f (coherence p)
          (_history p) (_hist_len p).

(** The end of [wait]: advance the phase and build the returned dictionary. *)
Definition advance_phase (p : Pulse) (actual_ns error : Z)
  : Pulse * result PulseData :=
  let fc := (fire_count p + 1)%Z in
  let ph := py_mod1 (phase p + 1 / 10) in
  (mkPulse (target_ns p) ph (ema_actual p) (ema_error p) (sigma_weight p) fc
           (lock_achieved p) (natural_freq p) (coherence p)
           (_history p) (_hist_len p),
   Ok (mkPulseData actual_ns error ph (coherence p) (lock_achieved p) fc)).

(** Mean and variance of the recent window of [wait].  The window holds
    the sample just appended, so [len(recent)] is not zero. *)
Definition window_mu (recent : list Z) : R :=
  IZR (fold_right Z.add 0%Z recent) / INR (length recent).

Definition window_var (recent : list Z) : R :=
  let mu := window_mu recent in
  py_sum (map (fun x => (IZR x - mu) ^ 2) recent) / INR (length recent).

(** [cv] is not negative, so [1.0 + cv] is not zero. *)
Definition window_vitality (recent : list Z) : R :=
  let mu := window_mu recent in
  let cv := if py_gt mu 0 then sqrt (window_var recent) / mu else 1 in
  1 / (1 + cv).

(** [Pulse.wait].  [actual_ns] is what the clock measured, [t_end - t_start];
    the spin loop makes it at least [adjusted_ns p]. *)
Definition wait (p : Pulse) (actual_ns : Z) : Pulse * result PulseData :=
  let alpha := 1 - sigma_weight p in
  let ea := alpha * IZR actual_ns + sigma_weight p * ema_actual p in
  let error := (actual_ns - target_ns p)%Z in
  let ee := alpha * IZR error + sigma_weight p * ema_error p in
  let hist := deque_append 256 (_history p) actual_ns in
  let hlen := Z.min (_hist_len p + 1) 256 in
  let p1 := set_measure p ea ee hist hlen in
  if (16 <=? hlen)%Z then
    let recent := py_last 16 hist in
    let vitality := window_vitality recent in
    match py_div (Rabs ee) (IZR (target_ns p)) with
    | Raise e => (p1, Raise e)
    | Ok q =>
        match py_div 1 (1 + q) with
        | Raise e => (p1, Raise e)
        | Ok alignment =>
            let p2 := set_coherence p1 (s_star vitality alignment) in
            if py_ge (coherence p2) T_STAR && negb (lock_achieved p2) then
              let p3 := set_lock_achieved p2 true in
              match py_div 1000000000 (ema_actual p3) with
              | Raise e => (p3, Raise e)
              | Ok f => advance_phase (set_natural_freq p3 f) actual_ns error
              end
            else advance_phase p2 actual_ns error
        end
    end
  else advance_phase p1 actual_ns error.

(** Successive [wait] calls on one Pulse; a caller that catches an exception
    can go on calling, so the run continues on the object as the failed call
    left it. *)
Fixpoint wait_all (p : Pulse) (clock : list Z) : Pulse :=
  match clock with
  | [] => p
  | actual_ns :: rest => wait_all (fst (wait p actual_ns)) rest
  end.

(** ** The lattice runtime *)

(** [l[i]] and [l[i] = v] with Python's negative indices. *)
Definition py_index {A : Type} (l : list A) (i : Z) : option nat :=
  let n := Z.of_nat (length l) in
  if ((0 <=? i) && (i <? n))%Z then Some (Z.to_nat i)
  else if ((- n <=? i) && (i <? 0))%Z then Some (Z.to_nat (n + i))
  else None.

Definition py_getitem (l : list R) (i : Z) : result R :=
  match py_index l i with
  | Some k => match nth_error l k with Some x => Ok x | None => Raise IndexError end
  | None => Raise IndexError
  end.

Fixpoint list_set (l : list R) (k : nat) (v : R) : list R :=
  match l, k with
  | [], _ => []
  | _ :: tl, O => v :: tl
  | x :: tl, S j => x :: list_set tl j v
  end.

Definition py_setitem (l : list R) (i : Z) (v : R) : result (list R) :=
  match py_index l i with
  | Some k => Ok (list_set l k v)
  | None => Raise IndexError
  end.

Definition upper_ascii (c : Ascii.ascii) : Ascii.ascii :=
  let n := Ascii.nat_of_ascii c in
  if ((97 <=? n) && (n <=? 122))%nat then Ascii.ascii_of_nat (n - 32) else c.

(** [str.upper] on ASCII text. *)
Fixpoint py_upper (s : string) : string :=
  match s with
  | EmptyString => EmptyString
  | String c tl => String (upper_ascii c) (py_upper tl)
  end.

Definition DOMAINS : list string :=
  ["compute"; "memory"; "io"; "net"]%string.

(** The heartbeat thread handle is left out: nothing below reads it. *)
Record LatticeRuntime : Type := mkRuntime {
  pulse : Pulse;
  triads : Arena;
  root : nat;
  epoch : nat;
  domains : dict nat;
  micro_triads : dict nat;
  spine : list R;
  spine_phase : Z;
  ops_total : Z;
  ops_by_domain : dict Z;
  running : bool;
  epoch_count : Z
}.

(** [LatticeRuntime.__init__] after the Pulse is built: the tree of Triads,
    the spine and the counters. *)
Definition build_lattice (p : Pulse) : LatticeRuntime :=
  let '(a0, rt) := new_Triad [] "SYSTEM"%string None in
  let '(a1, ep) := new_Triad a0 "EPOCH"%string (Some rt) in
  let '(a2, doms) :=
    fold_left (fun (acc : Arena * dict nat) (domain : string) =>
                 let '(a, d) := acc in
                 let '(a', h) := new_Triad a (py_upper domain) (Some ep) in
                 (a', dict_set d domain h))
              DOMAINS (a1, []) in
  let '(a3, micros) :=
    fold_left (fun (acc : Arena * dict nat) (domain : string) =>
                 let '(a, d) := acc in
                 let '(a', h) :=
                   new_Triad a (domain ++ "_micro")%string
                             (dict_get doms domain) in
                 (a', dict_set d domain h))
              DOMAINS (a2, []) in
  mkRuntime p a3 rt ep doms micros (repeat T_STAR 10) 0 0
            (fold_left (fun d k => dict_set d k 0%Z) DOMAINS [])
            false 0.

(** [LatticeRuntime.__init__] *)
Definition LatticeRuntime_init (pulse_hz : R) : result LatticeRuntime :=
  match Pulse_init pulse_hz with
  | Raise e => Raise e
  | Ok p => Ok (build_lattice p)
  end.

Definition set_counters (r : LatticeRuntime) (total : Z) (by_domain : dict Z)
  : LatticeRuntime :=
  mkRuntime (pulse r) (triads r) (root r) (epoch r) (domains r)
            (micro_triads r) (spine r) (spine_phase r) total by_domain
            (running r) (epoch_count r).

Definition set_triads (r : LatticeRuntime) (a : Arena) : LatticeRuntime :=
  mkRuntime (pulse r) a (root r) (epoch r) (domains r)
            (micro_triads r) (spine r) (spine_phase r) (ops_total r)
            (ops_by_domain r) (running r) (epoch_count r).

Definition set_pulse (r : LatticeRuntime) (p : Pulse) : LatticeRuntime :=
  mkRuntime p (triads r) (root r) (epoch r) (domains r)
            (micro_triads r) (spine r) (spine_phase r) (ops_total r)
            (ops_by_domain r) (running r) (epoch_count r).

(** The operator of stage [i] applied to [old], with [prev] the value of
    the stage before; stage 6 draws [noise] from [random.gauss(0, 0.001)]. *)
Definition spine_operator (r : LatticeRuntime) (i : Z) (old prev noise : R) : R :=
  let s := SIGMA in
  if (i =? 0)%Z then prev * (1 - s) * (1 / 10)
  else if (i =? 1)%Z then old * s + prev * (1 - s)
  else if (i =? 2)%Z then Rabs (old - prev) * s + old * (1 - s)
  else if (i =? 3)%Z then old + (1 - old) * (1 - s)
  else if (i =? 4)%Z then old * s
  else if (i =? 5)%Z then
    let ctx := py_sum (spine r) / 10 in (old + ctx) / 2
  else if (i =? 6)%Z then old * s + noise
  else if (i =? 7)%Z then sqrt (Rmax (1 / 1000) (old * prev))
  else if (i =? 8)%Z then
    old * (1 + 5 / 1000 * sin (IZR (fire_count (pulse r)) * (1 / 10)))
  else if (i =? 9)%Z then old * s + T_STAR * (1 - s)
  else old.

(** [LatticeRuntime._advance_spine].  Every index error comes before the
    first assignment, so a raise leaves the runtime as it was. *)
Definition _advance_spine (r : LatticeRuntime) (noise : R)
  : result LatticeRuntime :=
  let i := spine_phase r in
  match py_getitem (spine r) ((i - 1) mod 10) with
  | Raise e => Raise e
  | Ok prev =>
      match py_getitem (spine r) i with
      | Raise e => Raise e
      | Ok old =>
          let v := spine_operator r i old prev noise in
          match py_setitem (spine r) i (Rmax (1 / 1000) (Rmin 1 v)) with
          | Raise e => Raise e
          | Ok sp =>
              let ph := ((i + 1) mod 10)%Z in
              Ok (mkRuntime (pulse r) (triads r) (root r) (epoch r) (domains r)
                            (micro_triads r) sp ph (ops_total r)
                            (ops_by_domain r) (running r)
                            (if (ph =? 0)%Z then (epoch_count r + 1)%Z
                             else epoch_count r))
          end
      end
  end.

(** Successive [_advance_spine] calls, one noise sample for each. *)
Fixpoint advance_spine_all (r : LatticeRuntime) (noises : list R)
  : result LatticeRuntime :=
  match noises with
  | [] => Ok r
  | g :: rest =>
      match _advance_spine r g with
      | Raise e => Raise e
      | Ok r' => advance_spine_all r' rest
      end
  end.

(** [d[k].observe(v)] when [k in d], nothing otherwise.  [None]: the arena
    is not a tree ([observe] found no Triad or no end of the parent chain). *)
Definition observe_if_known (a : Arena) (d : dict nat) (k : string) (v : R)
  : option Arena :=
  match dict_get d k with
  | None => Some a
  | Some h =>
      match observe a h v with
      | Some (a', _) => Some a'
      | None => None
      end
  end.

(** [LatticeRuntime.op].  [work] is the outcome of calling the work,
    [t0] and [t1] the clock readings around it, [noise] the sample for the
    spine.  Everything assigned before a raise stays assigned.  An arena
    that is not a tree shows as [IndexError]; the tree of the constructor
    is one ([build_lattice_arena_ok]) and [observe] keeps it one
    ([observe_ok]). *)
Definition op {A : Type} (r : LatticeRuntime) (domain : string)
    (work : result A) (t0 t1 : Z) (noise : R) : LatticeRuntime * result A :=
  let by_domain :=
    dict_set (ops_by_domain r) domain
             (dict_get0 (ops_by_domain r) domain + 1)%Z in
  let r1 := set_counters r (ops_total r + 1)%Z by_domain in
  match py_getitem (spine r1) (spine_phase r1) with
  | Raise e => (r1, Raise e)
  | Ok spine_val =>
      match work with
      | Raise e => (r1, Raise e)
      | Ok res =>
          let elapsed_us := IZR (t1 - t0) / 1000 in
          match observe_if_known (triads r1) (micro_triads r1) domain elapsed_us with
          | None => (r1, Raise IndexError)
          | Some a1 =>
              match observe_if_known a1 (domains r1) domain
                                     (elapsed_us * spine_val) with
              | None => (set_triads r1 a1, Raise IndexError)
              | Some a2 =>
                  match _advance_spine (set_triads r1 a2) noise with
                  | Raise e => (set_triads r1 a2, Raise e)
                  | Ok r2 => (r2, Ok res)
                  end
              end
          end
      end
  end.

(** The dictionary that [tick] returns. *)
Record TickData : Type := mkTickData {
  td_pulse : PulseData;
  td_spine_phase : Z;
  td_spine_val : R;
  td_epoch : Z;
  td_system_s : R;
  td_ops : Z
}.

(** [LatticeRuntime.tick] *)
Definition tick (r : LatticeRuntime) (actual_ns : Z) (noise : R)
  : LatticeRuntime * result TickData :=
  match wait (pulse r) actual_ns with
  | (p, Raise e) => (set_pulse r p, Raise e)
  | (p, Ok pulse_data) =>
      match _advance_spine (set_pulse r p) noise with
      | Raise e => (set_pulse r p, Raise e)
      | Ok r1 =>
          match observe (triads r1) (epoch r1) (pd_coherence pulse_data) with
          | None => (r1, Raise IndexError)
          | Some (a, _) =>
              let r2 := set_triads r1 a in
              match py_getitem (spine r2) (spine_phase r2),
                    nth_error (triads r2) (root r2) with
              | Ok sv, Some rootT =>
                  (r2, Ok (mkTickData pulse_data (spine_phase r2) sv
                                      (epoch_count r2) (macro_s_star rootT)
                                      (ops_total r2)))
              | _, _ => (r2, Raise IndexError)
              end
          end
      end
  end.

(** ** The specification's reading of the own score

    These follow the words of the specification, to be compared with
    [own_s_star]. *)

Definition clamp (x lo hi : R) : R := Rmax lo (Rmin hi x).

(** "the last 4 raw observations are monotonic (all non-decreasing or all
    non-increasing)" *)
Definition monotonic4 (a b c d : R) : bool :=
  (py_le a b && py_le b c && py_le c d) || (py_ge a b && py_ge b c && py_ge c d).

(** Number of adjacent pairs among the three differences of [a b c d] that
    lie on the same side of [>= 0]. *)
Definition agreements4 (a b c d : R) : nat :=
  ((if Bool.eqb (py_ge (b - a) 0) (py_ge (c - b) 0) then 1 else 0)
   + (if Bool.eqb (py_ge (c - b) 0) (py_ge (d - c) 0) then 1 else 0))%nat.

(** "otherwise the fraction of adjacent-pair sign agreements among the
    recent differences": agreements over the two adjacent pairs. *)
Definition spec_alignment (a b c d : R) : R :=
  if monotonic4 a b c d then 1 else INR (agreements4 a b c d) / 2.

(** "own_score = clamp(sigma * vitality * alignment, 0, 1)" with
    "vitality = 1/(1+cv)" and "cv = sqrt(variance)/mean". *)
Definition spec_own_score (mean variance a b c d : R) : R :=
  clamp (SIGMA * (1 / (1 + sqrt variance / mean)) * spec_alignment a b c d) 0 1.

(** What the code computes, in the same terms. *)
Definition code_alignment (a b c d : R) : R :=
  if monotonic4 a b c d then 1 else (INR (agreements4 a b c d) + 1) / 3.

Definition code_own_score (mean variance a b c d : R) : R :=
  let cv := if py_gt mean 0 then sqrt variance / mean else 1 in
  clamp (SIGMA * (1 - SIGMA_STAR) * (1 / (1 + cv)) * code_alignment a b c d) 0 1.

(** The buffer of a Triad and its cached length agree, as [observe] keeps
    them, and the variance estimate is not negative. *)
Definition triad_wf (t : Triad) : Prop :=
  _micro_len t = Z.of_nat (length (_micro_buf t))
  /\ (length (_micro_buf t) <= 64)%nat
  /\ 0 <= self_emv t.

(** A Triad that differs from [t] in its raw buffer only. *)
Definition with_micro_buf (t : Triad) (buf : list R) : Triad :=
  mkTriad (name t) buf (_micro_len t) (self_ema t) (self_emv t)
          (macro_s_star t) (count t) (parent t) (children t)
          (_child_coherences t).

(** The mean of the children's scores that a report leaves behind. *)
Definition child_mean_after (t : Triad) (child_name : string) (s : R) : R :=
  let vals := dict_values (dict_set (_child_coherences t) child_name s) in
  py_sum vals / INR (length vals).

(** ** Predicates used in the statements *)

Definition is_ok {A : Type} (r : result A) : bool :=
  match r with Ok _ => true | Raise _ => false end.

(** The spine has its ten stages and the phase points at one of them. *)
Definition spine_ok (r : LatticeRuntime) : Prop :=
  length (spine r) = 10%nat /\ (0 <= spine_phase r < 10)%Z.

(** The two moving averages of a Pulse start at [target_ns] and at 0 and
    are fed [actual_ns] and [actual_ns - target_ns] with the same weights,
    so they stay [target_ns] apart. *)
Definition balanced (p : Pulse) : Prop :=
  ema_actual p = ema_error p + IZR (target_ns p).

(** A Pulse whose estimates sit on the target [c]. *)
Definition on_target (c : Z) (p : Pulse) : Prop :=
  target_ns p = c /\ sigma_weight p = SIGMA
  /\ ema_actual p = IZR c /\ ema_error p = 0.

(** ** Concrete objects used in the examples *)

(** A fresh leaf Triad fed the observations [vs], oldest first. *)
Definition triad_after (vs : list R) : Triad :=
  fold_left observe_local vs (Triad_init "leaf" None).

(** The Pulse that [Pulse(1000.0)] builds. *)
Definition pulse_1000 : Pulse :=
  mkPulse 1000000 0 1000000 0 SIGMA 0 false 1000 T_STAR [] 0.

(** The runtime that [LatticeRuntime(1000.0)] builds. *)
Definition runtime_1000 : LatticeRuntime := build_lattice pulse_1000.


(** A 1 kHz Pulse that has fired fifteen times, every time on target. *)
Definition pulse_15 : Pulse :=
  wait_all pulse_1000 (repeat 1000000%Z 15).

(** ** More of the Triad, the Pulse and the runtime *)

(** [Triad.health] *)
Definition health (t : Triad) : string :=
  let s := macro_s_star t in
  if py_ge s (95 / 100) then "CRYSTALLINE"
  else if py_ge s (90 / 100) then "OPTIMAL"
  else if py_ge s (80 / 100) then "COHERENT"
  else if py_ge s T_STAR then "STABLE"
  else if py_ge s (50 / 100) then "DEGRADED"
  else if py_ge s (25 / 100) then "CRITICAL"
  else "COLLAPSED".

(** The labels of [health], worst first. *)
Definition health_rank (h : string) : nat :=
  if String.eqb h "CRYSTALLINE" then 6
  else if String.eqb h "OPTIMAL" then 5
  else if String.eqb h "COHERENT" then 4
  else if String.eqb h "STABLE" then 3
  else if String.eqb h "DEGRADED" then 2
  else if String.eqb h "CRITICAL" then 1
  else 0.

(** Successive [observe] calls on one Triad, seen from that Triad. *)
Definition observe_many (t : Triad) (vs : list R) : Triad :=
  fold_left observe_local vs t.

(** Two states of a Triad that hold the same observations: they may
    differ in [macro_s_star] and in the children's scores only. *)
Definition same_observations (t t' : Triad) : Prop :=
  name t' = name t /\ _micro_buf t' = _micro_buf t
  /\ _micro_len t' = _micro_len t /\ self_ema t' = self_ema t
  /\ self_emv t' = self_emv t /\ count t' = count t
  /\ parent t' = parent t /\ children t' = children t.

(** How many [wait] calls of the run returned. *)
Fixpoint returned_calls (p : Pulse) (clock : list Z) : Z :=
  match clock with
  | [] => 0
  | actual_ns :: rest =>
      ((if is_ok (snd (wait p actual_ns)) then 1 else 0)
       + returned_calls (fst (wait p actual_ns)) rest)%Z
  end.

(** Every [wait] of the run returned. *)
Fixpoint wait_all_ok (p : Pulse) (clock : list Z) : bool :=
  match clock with
  | [] => true
  | actual_ns :: rest =>
      is_ok (snd (wait p actual_ns))
      && wait_all_ok (fst (wait p actual_ns)) rest
  end.

(** The values of a spine are within the bounds its clamp sets. *)
Definition spine_bounded (sp : list R) : Prop :=
  Forall (fun v => 1 / 1000 <= v <= 1) sp.

(** The sum of the per-domain counters. *)
Definition ops_sum (d : dict Z) : Z := fold_right Z.add 0%Z (dict_values d).

(** A call on the runtime: [op] with the outcome of its work and its clock
    readings, or [tick] with the reading of its Pulse. *)
Inductive Call (A : Type) : Type :=
| CallOp (domain : string) (work : result A) (t0 t1 : Z) (noise : R)
| CallTick (actual_ns : Z) (noise : R).
Arguments CallOp {A} domain work t0 t1 noise.
Arguments CallTick {A} actual_ns noise.

(** The runtime after a call, returned or raised. *)
Definition after_call {A : Type} (r : LatticeRuntime) (c : Call A)
  : LatticeRuntime :=
  match c with
  | CallOp domain work t0 t1 noise => fst (op r domain work t0 t1 noise)
  | CallTick actual_ns noise => fst (tick r actual_ns noise)
  end.

Definition after_calls {A : Type} (r : LatticeRuntime) (cs : list (Call A))
  : LatticeRuntime :=
  fold_left after_call cs r.

(** The shape the constructor gives a runtime: a spine of ten bounded
    values, a tree of Triads, and dictionaries that lead to Triads of it. *)
Definition lattice_ok (r : LatticeRuntime) : Prop :=
  spine_ok r
  /\ spine_bounded (spine r)
  /\ arena_ok (triads r)
  /\ (epoch r < length (triads r))%nat
  /\ (root r < length (triads r))%nat
  /\ (forall k h, dict_get (domains r) k = Some h ->
                  (h < length (triads r))%nat)
  /\ (forall k h, dict_get (micro_triads r) k = Some h ->
                  (h < length (triads r))%nat).

(** The calls that go through [op]. *)
Definition is_op {A : Type} (c : Call A) : bool :=
  match c with CallOp _ _ _ _ _ => true | CallTick _ _ => false end.

(** A Pulse that [wait] cannot make raise: a positive target, a positive
    smoothed interval, the weight of the constructor and a coherence in
    range. *)
Definition pulse_sound_state (p : Pulse) : Prop :=
  (0 < target_ns p)%Z /\ sigma_weight p = SIGMA
  /\ 0 < ema_actual p /\ 0 < coherence p <= 1.

(** ** The benchmark's analysis of a list of timings *)

Definition bind {A B : Type} (m : result A) (f : A -> result B) : result B :=
  match m with
  | Ok a => f a
  | Raise e => Raise e
  end.

Notation "x <- m ;; k" := (bind m (fun x => k))
  (at level 61, m at next level, right associativity).

(** [statistics.mean(l)]; its callers test for the empty list first. *)
Definition py_mean (l : list R) : R := py_sum l / INR (length l).

(** [statistics.stdev(l)], the sample standard deviation; its caller tests
    for fewer than two values first. *)
Definition py_stdev (l : list R) : R :=
  let c := py_mean l in
  sqrt (py_sum (map (fun x => (x - c) ^ 2) l) / INR (length l - 1)).

(** [sorted(l)]: ascending. *)
Fixpoint py_insert (x : R) (l : list R) : list R :=
  match l with
  | [] => [x]
  | y :: tl => if Rle_dec x y then x :: l else y :: py_insert x tl
  end.

Definition py_sorted (l : list R) : list R := fold_right py_insert [] l.

(** [max(l)]; its caller tests for the empty list first. *)
Definition py_max (l : list R) : R :=
  match l with
  | [] => 0
  | x :: tl => fold_left Rmax tl x
  end.

(** The dict that [analyze] returns, one field per key. *)
Record Stats : Type := mkStats {
  stat_label : string;
  stat_n : Z;
  stat_mean : R;
  stat_std : R;
  stat_cv : R;
  stat_p50 : R;
  stat_p99 : R;
  stat_p999 : R;
  stat_max : R;
  stat_diff_mean : R;
  stat_autocorr : R;
  stat_s_star : R
}.

(** [analyze] of [benchmark_raw_vs_lattice]; [None] is the empty dict. *)
Definition analyze (times : list R) (label : string) : result (option Stats) :=
  match times with
  | [] => Ok None
  | _ :: _ =>
      let n := Z.of_nat (length times) in
      let mu := py_mean times in
      let std := if (1 <? n)%Z then py_stdev times else 0 in
      cv <- (if py_gt mu 0 then py_div std mu else Ok 0) ;;
      let s := py_sorted times in
      let ls := Z.of_nat (length s) in
      p50 <- py_getitem s (ls / 2) ;;
      p99 <- py_getitem s (py_int (IZR ls * (99 / 100))) ;;
      p999 <- py_getitem s (Z.min (py_int (IZR ls * (999 / 1000))) (ls - 1)) ;;
      let mx := py_max times in
      let diffs := map Rabs (adjacent_diffs times) in
      let diff_mean := match diffs with [] => 0 | _ :: _ => py_mean diffs end in
      autocorr <-
        (if (10 <? n)%Z && py_gt std 0 then
           let shifted := tl times in
           let base := removelast times in
           cov <- py_div (py_sum (map (fun ab => (fst ab - mu) * (snd ab - mu))
                                      (combine base shifted)))
                         (INR (length base)) ;;
           py_div cov (std ^ 2)
         else Ok 0) ;;
      vitality <- py_div 1 (1 + cv) ;;
      let alignment := (1 + autocorr) / 2 in
      let coherence := s_star vitality (Rmax 0 alignment) in
      Ok (Some (mkStats label n mu std cv p50 p99 p999 mx diff_mean autocorr
                        coherence))
  end.

(** Ascending order. *)
Fixpoint ascending (l : list R) : Prop :=
  match l with
  | [] => True
  | x :: tl => Forall (Rle x) tl /\ ascending tl
  end.

(** ** Basic facts *)

Lemma py_gt_true x y : py_gt x y = true <-> x > y.
Proof. unfold py_gt. destruct (Rgt_dec x y); split; intros; auto; discriminate. Qed.

Lemma py_ge_true x y : py_ge x y = true <-> x >= y.
Proof. unfold py_ge. destruct (Rge_dec x y); split; intros; auto; discriminate. Qed.

Lemma py_le_true x y : py_le x y = true <-> x <= y.
Proof. unfold py_le. destruct (Rle_dec x y); split; intros; auto; discriminate. Qed.

Lemma py_ge_false x y : py_ge x y = false <-> x < y.
Proof.
  unfold py_ge. destruct (Rge_dec x y); split; intros; auto; try discriminate; lra.
Qed.

Lemma py_le_false x y : py_le x y = false <-> x > y.
Proof.
  unfold py_le. destruct (Rle_dec x y); split; intros; auto; try discriminate; lra.
Qed.

Lemma py_gt_false x y : py_gt x y = false <-> x <= y.
Proof.
  unfold py_gt. destruct (Rgt_dec x y); split; intros; auto; try discriminate; lra.
Qed.

Lemma FACTOR_value : FACTOR = 982081 / 1000000.
Proof. unfold FACTOR, SIGMA, SIGMA_STAR. lra. Qed.

Lemma in01_T_STAR : in01 T_STAR.
Proof. unfold in01, T_STAR. lra. Qed.

Lemma vitality_bounds cv : 0 <= cv -> 0 < 1 / (1 + cv) <= 1.
Proof.
  intros H. split.
  - apply Rdiv_lt_0_compat; lra.
  - unfold Rdiv. rewrite Rmult_1_l, <- Rinv_1.
    apply Rinv_le_contravar; lra.
Qed.

Lemma s_star_in01 V A : 0 <= V <= 1 -> 0 <= A <= 1 -> in01 (s_star V A).
Proof.
  intros HV HA. unfold in01, s_star. rewrite FACTOR_value. nra.
Qed.

Lemma cv_nonneg (emv ema : R) : ema > 0 -> 0 <= sqrt emv / ema.
Proof.
  intros H. unfold Rdiv. apply Rmult_le_pos; [apply sqrt_pos |].
  left. apply Rinv_0_lt_compat. lra.
Qed.

Lemma py_ge_diff a b : py_ge (b - a) 0 = py_le a b.
Proof.
  unfold py_ge, py_le.
  destruct (Rge_dec (b - a) 0), (Rle_dec a b); auto; lra.
Qed.

Lemma py_le_diff a b : py_le (b - a) 0 = py_ge a b.
Proof.
  unfold py_ge, py_le.
  destruct (Rle_dec (b - a) 0), (Rge_dec a b); auto; lra.
Qed.

Lemma py_last_length {A : Type} (n : nat) (l : list A) :
  (n <= length l)%nat -> length (py_last n l) = n.
Proof. intros H. unfold py_last. rewrite length_skipn. lia. Qed.

Lemma py_last4 (buf : list R) :
  (4 <= length buf)%nat -> exists a b c d, py_last 4 buf = [a; b; c; d].
Proof.
  intros H. pose proof (py_last_length 4 buf H) as L.
  destruct (py_last 4 buf) as [|a [|b [|c [|d [|e r]]]]]; simpl in L; try lia.
  now exists a, b, c, d.
Qed.

(** On a buffer of four or more samples the alignment of [observe] is the
    alignment of its last four. *)
Lemma alignment_of_last4 (buf : list R) (a b c d : R) :
  py_last 4 buf = [a; b; c; d] -> (4 <= length buf)%nat ->
  alignment_of buf = code_alignment a b c d.
Proof.
  intros E H. unfold alignment_of.
  apply Nat.leb_le in H. rewrite H, E. cbn [adjacent_diffs forallb sign_agreements length].
  unfold code_alignment, monotonic4, agreements4.
  rewrite !py_ge_diff, !py_le_diff, !andb_true_r, !andb_assoc.
  replace (INR 3) with 3 by (simpl; lra).
  rewrite Nat.add_0_r. reflexivity.
Qed.

Lemma agreements4_le a b c d : (agreements4 a b c d <= 2)%nat.
Proof.
  unfold agreements4.
  destruct (Bool.eqb _ _), (Bool.eqb _ _); simpl; lia.
Qed.

Lemma code_alignment_in01 a b c d : in01 (code_alignment a b c d).
Proof.
  unfold code_alignment, in01. destruct (monotonic4 a b c d); [lra|].
  pose proof (agreements4_le a b c d) as H.
  apply le_INR in H. pose proof (pos_INR (agreements4 a b c d)).
  simpl in H. lra.
Qed.

Lemma alignment_of_in01 (buf : list R) : in01 (alignment_of buf).
Proof.
  destruct (le_lt_dec 4 (length buf)) as [H|H].
  - destruct (py_last4 buf H) as (a & b & c & d & E).
    rewrite (alignment_of_last4 buf a b c d E H). apply code_alignment_in01.
  - unfold alignment_of. apply Nat.leb_gt in H. rewrite H. unfold in01. lra.
Qed.

Lemma own_s_star_in01 (t : Triad) : in01 (own_s_star t).
Proof.
  unfold own_s_star. destruct (4 <=? _micro_len t)%Z; [|apply in01_T_STAR].
  apply s_star_in01; [|apply alignment_of_in01].
  destruct (py_gt (self_ema t) 0) eqn:G.
  - apply py_gt_true in G.
    pose proof (vitality_bounds _ (cv_nonneg (self_emv t) _ G)). lra.
  - pose proof (vitality_bounds 1). lra.
Qed.

Lemma own_s_on_report_in01 (t : Triad) : in01 (own_s_on_report t).
Proof.
  unfold own_s_on_report.
  destruct (py_gt (self_ema t) 0) eqn:G; simpl; [|apply in01_T_STAR].
  destruct (4 <=? _micro_len t)%Z; [|apply in01_T_STAR].
  apply py_gt_true in G.
  apply s_star_in01; [|lra].
  pose proof (vitality_bounds _ (cv_nonneg (self_emv t) _ G)). lra.
Qed.

Lemma py_sum_bounds (l : list R) :
  Forall in01 l -> 0 <= py_sum l <= INR (length l).
Proof.
  induction 1 as [|x l Hx _ IH].
  - simpl. lra.
  - change (py_sum (x :: l)) with (x + py_sum l).
    change (length (x :: l)) with (S (length l)). rewrite S_INR.
    unfold in01 in Hx. lra.
Qed.

Lemma blend_in01 (own : R) (cc : dict R) (otherwise : R) :
  in01 own -> in01 otherwise -> Forall in01 (dict_values cc) ->
  in01 (blend own cc otherwise).
Proof.
  intros Ho Hd Hc. unfold blend. destruct cc as [|kv cc]; [exact Hd|].
  set (vals := dict_values (kv :: cc)) in *.
  assert (Hn : 0 < INR (length vals)).
  { apply lt_0_INR. unfold vals, dict_values. simpl. lia. }
  pose proof (py_sum_bounds vals Hc) as [H0 H1].
  assert (Hm : 0 <= py_sum vals / INR (length vals) <= 1).
  { split.
    - unfold Rdiv. apply Rmult_le_pos; [lra|]. left. now apply Rinv_0_lt_compat.
    - apply (Rmult_le_reg_r (INR (length vals))); [lra|].
      unfold Rdiv. rewrite Rmult_assoc, Rinv_l; lra. }
  unfold in01 in *. unfold C. lra.
Qed.

Lemma dict_set_values_Forall (P : R -> Prop) (d : dict R) (k : string) (v : R) :
  Forall P (dict_values d) -> P v -> Forall P (dict_values (dict_set d k v)).
Proof.
  intros H Hv. induction d as [|[k' v'] d IH]; simpl.
  - constructor; auto.
  - inversion H; subst. destruct (String.eqb k' k); simpl; constructor; auto.
Qed.

Lemma dict_set_nonempty {V : Type} (d : dict V) (k : string) (v : V) :
  dict_set d k v <> [].
Proof.
  destruct d as [|[k' v'] d]; simpl; [discriminate|].
  destruct (String.eqb k' k); discriminate.
Qed.

(** ** The tree keeps its invariants *)

Lemma length_arena_set (a : Arena) (i : nat) (t : Triad) :
  length (arena_set a i t) = length a.
Proof.
  revert i. induction a as [|x a IH]; intros [|i]; simpl; auto.
Qed.

Lemma nth_error_arena_set (a : Arena) (i j : nat) (t : Triad) :
  nth_error (arena_set a i t) j =
  if Nat.eqb i j then
    match nth_error a j with Some _ => Some t | None => None end
  else nth_error a j.
Proof.
  revert i j. induction a as [|x a IH]; intros [|i] [|j]; simpl; auto;
    try (destruct (Nat.eqb i j); reflexivity).
Qed.

Lemma arena_set_ok (a : Arena) (i : nat) (t : Triad) :
  arena_ok a -> triad_ok i t -> arena_ok (arena_set a i t).
Proof.
  intros Ha Ht j u Hj. rewrite nth_error_arena_set in Hj.
  destruct (Nat.eqb i j) eqn:E.
  - apply Nat.eqb_eq in E. subst j.
    destruct (nth_error a i); inversion Hj; subst; exact Ht.
  - now apply Ha.
Qed.

Lemma observe_local_emv_nonneg (t : Triad) (v : R) :
  0 <= self_emv t -> 0 <= self_emv (observe_local t v).
Proof.
  intros H. unfold observe_local. cbn [self_emv].
  destruct (count t + 1 =? 1)%Z; [lra|].
  assert (0 <= (v - ((1 - SIGMA) * v + SIGMA * self_ema t)) ^ 2)
    by apply pow2_ge_0.
  unfold SIGMA in *. nra.
Qed.

Lemma observe_local_ok (i : nat) (t : Triad) (v : R) :
  triad_ok i t -> triad_ok i (observe_local t v).
Proof.
  intros (Hp & Hm & Hc & He). repeat split.
  - exact Hp.
  - unfold observe_local. cbn [macro_s_star].
    apply blend_in01; auto using own_s_star_in01.
  - unfold observe_local. cbn [macro_s_star].
    apply blend_in01; auto using own_s_star_in01.
  - exact Hc.
  - now apply observe_local_emv_nonneg.
Qed.

Lemma receive_local_ok (i : nat) (t : Triad) (nm : string) (s : R) :
  triad_ok i t -> in01 s -> triad_ok i (receive_local t nm s).
Proof.
  intros (Hp & Hm & Hc & He) Hs.
  assert (Hcc : Forall in01 (dict_values (dict_set (_child_coherences t) nm s)))
    by now apply dict_set_values_Forall.
  repeat split; auto.
  - unfold receive_local. cbn [macro_s_star].
    apply blend_in01; auto using own_s_on_report_in01.
  - unfold receive_local. cbn [macro_s_star].
    apply blend_in01; auto using own_s_on_report_in01.
Qed.

(** The chain of reports ends: with a parent always below its child, as
    much fuel as the handle is enough. *)
Lemma receive_child_coherence_ok (fuel : nat) :
  forall (a : Arena) (id : nat) (nm : string) (s : R),
    arena_ok a -> (id < length a)%nat -> (id <= fuel)%nat -> in01 s ->
    exists a', _receive_child_coherence fuel a id nm s = Some a'
               /\ arena_ok a' /\ length a' = length a.
Proof.
  induction fuel as [|f IH]; intros a id nm s Ha Hlt Hf Hs.
  - assert (id = 0%nat) by lia. subst id.
    destruct (nth_error a 0) as [t|] eqn:E;
      [|apply nth_error_None in E; lia].
    pose proof (Ha _ _ E) as Ht.
    cbn [_receive_child_coherence]. rewrite E.
    cbn [receive_local parent].
    destruct (parent t) as [p|] eqn:Ep.
    + destruct Ht as (Hp & _). specialize (Hp _ Ep). lia.
    + eexists; split; [reflexivity|].
      split; [|apply length_arena_set].
      apply arena_set_ok; auto.
      apply (receive_local_ok 0 t nm s); auto.
  - destruct (nth_error a id) as [t|] eqn:E;
      [|apply nth_error_None in E; lia].
    pose proof (Ha _ _ E) as Ht.
    pose proof (receive_local_ok id t nm s Ht Hs) as Ht'.
    assert (Ha' : arena_ok (arena_set a id (receive_local t nm s)))
      by now apply arena_set_ok.
    cbn [_receive_child_coherence]. rewrite E.
    remember (receive_local t nm s) as t' eqn:Et'.
    assert (Epar : parent t' = parent t) by (subst t'; reflexivity).
    rewrite Epar.
    destruct (parent t) as [p|] eqn:Ep.
    + destruct Ht as (Hp & _). specialize (Hp _ Ep).
      destruct (IH (arena_set a id t') p (name t') (macro_s_star t'))
        as (a' & E' & Hok & Hlen); auto.
      * rewrite length_arena_set. lia.
      * lia.
      * destruct Ht' as (_ & Hm & _). exact Hm.
      * exists a'. split; [exact E'|]. split; [exact Hok|].
        rewrite Hlen. apply length_arena_set.
    + eexists; split; [reflexivity|]. split; auto. apply length_arena_set.
Qed.

Lemma observe_ok (a : Arena) (id : nat) (v : R) (t : Triad) :
  arena_ok a -> nth_error a id = Some t ->
  exists a' res, observe a id v = Some (a', res)
                 /\ arena_ok a' /\ length a' = length a.
Proof.
  intros Ha E. unfold observe. rewrite E.
  pose proof (Ha _ _ E) as Ht.
  pose proof (observe_local_ok id t v Ht) as Ht'.
  assert (Hlt : (id < length a)%nat) by (apply nth_error_Some; congruence).
  assert (Ha' : arena_ok (arena_set a id (observe_local t v)))
    by now apply arena_set_ok.
  destruct (parent (observe_local t v)) as [p|] eqn:Ep.
  - destruct Ht' as (Hp & Hm & _). specialize (Hp _ Ep).
    destruct (receive_child_coherence_ok (length a)
                (arena_set a id (observe_local t v)) p
                (name (observe_local t v)) (macro_s_star (observe_local t v)))
      as (a' & E' & Hok & Hlen); auto.
    + rewrite length_arena_set. lia.
    + lia.
    + rewrite E'. do 2 eexists. split; [reflexivity|]. split; auto.
      rewrite Hlen. apply length_arena_set.
  - do 2 eexists. split; [reflexivity|]. split; auto. apply length_arena_set.
Qed.

(** C1 (boundedness).  On a tree of Triads whose scores are in [0,1], any
    finite run of [observe] calls on any of its Triads, with the child
    reports each call sends up the tree, goes through, and after it every
    Triad's [macro_s_star] is in [0,1] and so is the [own_s_star] that each
    call computed.  A prefix of a run is a run, so this holds after every
    step. *)
Theorem C1_scores_stay_in_unit_interval :
  forall (a : Arena) (calls : list (nat * R)),
    arena_ok a ->
    Forall (fun c => (fst c < length a)%nat) calls ->
    exists a' owns,
      observe_all a calls = Some (a', owns)
      /\ length owns = length calls
      /\ Forall in01 owns
      /\ (forall i t, nth_error a' i = Some t -> in01 (macro_s_star t))
      /\ arena_ok a'.
Proof.
  intros a calls. revert a.
  induction calls as [|[id v] rest IH]; intros a Ha Hc.
  - exists a, []. simpl. split; [reflexivity|]. split; [reflexivity|].
    split; [constructor|]. split; [|exact Ha].
    intros i t E. now destruct (Ha _ _ E) as (_ & Hm & _).
  - inversion Hc as [|? ? Hid Hrest]; subst. simpl in Hid.
    destruct (nth_error a id) as [t|] eqn:E;
      [|apply nth_error_None in E; lia].
    destruct (observe_ok a id v t Ha E) as (a1 & res & E1 & Ha1 & Hlen).
    destruct (IH a1 Ha1) as (a2 & owns & E2 & Hl & Ho & Hm & Ha2).
    { rewrite Hlen. exact Hrest. }
    exists a2, (own_s_star (observe_local t v) :: owns).
    simpl. rewrite E, E1, E2. split; [reflexivity|].
    split; [simpl; now rewrite Hl|].
    split; [constructor; auto; apply own_s_star_in01|].
    split; assumption.
Qed.

Lemma build_lattice_triads (p : Pulse) :
  triads (build_lattice p)
  = [ mkTriad "SYSTEM" [] 0 0 0 T_STAR 0 None [1%nat] [];
      mkTriad "EPOCH" [] 0 0 0 T_STAR 0 (Some 0%nat) [2; 3; 4; 5]%nat [];
      mkTriad "COMPUTE" [] 0 0 0 T_STAR 0 (Some 1%nat) [6%nat] [];
      mkTriad "MEMORY" [] 0 0 0 T_STAR 0 (Some 1%nat) [7%nat] [];
      mkTriad "IO" [] 0 0 0 T_STAR 0 (Some 1%nat) [8%nat] [];
      mkTriad "NET" [] 0 0 0 T_STAR 0 (Some 1%nat) [9%nat] [];
      mkTriad "compute_micro" [] 0 0 0 T_STAR 0 (Some 2%nat) [] [];
      mkTriad "memory_micro" [] 0 0 0 T_STAR 0 (Some 3%nat) [] [];
      mkTriad "io_micro" [] 0 0 0 T_STAR 0 (Some 4%nat) [] [];
      mkTriad "net_micro" [] 0 0 0 T_STAR 0 (Some 5%nat) [] [] ].
Proof. reflexivity. Qed.

Lemma triad_ok_fresh (i : nat) (nm : string) (par : option nat) (ch : list nat) :
  (forall p, par = Some p -> (p < i)%nat) ->
  triad_ok i (mkTriad nm [] 0 0 0 T_STAR 0 par ch []).
Proof.
  intros H. unfold triad_ok. cbn [parent macro_s_star _child_coherences self_emv].
  split; [exact H|]. split; [apply in01_T_STAR|]. split; [constructor|lra].
Qed.

(** The tree that the constructor builds satisfies the invariants. *)
Lemma build_lattice_arena_ok (p : Pulse) : arena_ok (triads (build_lattice p)).
Proof.
  rewrite build_lattice_triads. intros i t E.
  do 10 (destruct i as [|i];
         [inversion E; subst; apply triad_ok_fresh;
          intros q Hq; inversion Hq; lia|]).
  destruct i; discriminate.
Qed.

(** C1 on the runtime's tree: an observation on [compute_micro], then one
    on [COMPUTE], as [op] makes them. *)
Lemma C1_witness :
  exists a' owns,
    observe_all (triads runtime_1000) [(6%nat, 5); (2%nat, 3)]
    = Some (a', owns)
    /\ length owns = 2%nat
    /\ Forall in01 owns
    /\ (forall i t, nth_error a' i = Some t -> in01 (macro_s_star t))
    /\ arena_ok a'.
Proof.
  apply (C1_scores_stay_in_unit_interval (triads runtime_1000)
           [(6%nat, 5); (2%nat, 3)]).
  - apply build_lattice_arena_ok.
  - unfold runtime_1000. rewrite build_lattice_triads.
    repeat constructor; simpl; lia.
Defined.

(** ** The own score of [observe] *)

Lemma clamp_id (x : R) : 0 <= x <= 1 -> clamp x 0 1 = x.
Proof.
  intros [H0 H1]. unfold clamp.
  rewrite Rmin_right by exact H1. now rewrite Rmax_right.
Qed.

Lemma deque_append_length {A : Type} (n : nat) (d : list A) (x : A) :
  length (deque_append n d x) = Nat.min (length d + 1) n.
Proof.
  unfold deque_append. rewrite length_skipn, length_app. simpl. lia.
Qed.

Lemma observe_local_wf (t : Triad) (v : R) :
  triad_wf t -> triad_wf (observe_local t v).
Proof.
  intros (Hl & Hb & He). split; [|split].
  - unfold observe_local. cbn [_micro_len _micro_buf].
    rewrite deque_append_length, Hl. lia.
  - unfold observe_local. cbn [_micro_buf]. rewrite deque_append_length. lia.
  - now apply observe_local_emv_nonneg.
Qed.

Lemma own_s_star_code_own_score (t : Triad) (a b c d : R) :
  (4 <= _micro_len t)%Z -> (4 <= length (_micro_buf t))%nat ->
  py_last 4 (_micro_buf t) = [a; b; c; d] ->
  own_s_star t = code_own_score (self_ema t) (self_emv t) a b c d.
Proof.
  intros Hl Hb E.
  pose proof (own_s_star_in01 t) as Hin. revert Hin.
  unfold own_s_star, code_own_score. apply Z.leb_le in Hl. rewrite Hl.
  rewrite (alignment_of_last4 _ a b c d E Hb).
  unfold s_star, FACTOR. intros Hin. now rewrite clamp_id.
Qed.

(** C6, amended.  After an [observe] that leaves four or more samples the
    own score is [clamp(sigma*(1-sigma_star)*vitality*alignment, 0, 1)]
    (the factor is 0.982081 and the clamp never cuts), with
    [vitality = 1/(1+cv)], [cv = sqrt(variance)/mean] when the mean is
    positive and [cv = 1] otherwise, [alignment = 1] when the last four
    observations are monotonic and [(agreements + 1)/3] otherwise; with
    fewer than four samples it is [T_STAR]. *)
Theorem C6_own_score_formula :
  forall (t : Triad) (v : R),
    triad_wf t ->
    let t' := observe_local t v in
    ((_micro_len t' < 4)%Z -> own_s_star t' = T_STAR)
    /\ ((4 <= _micro_len t')%Z ->
        exists a b c d,
          py_last 4 (_micro_buf t') = [a; b; c; d]
          /\ own_s_star t' = code_own_score (self_ema t') (self_emv t') a b c d).
Proof.
  intros t v Hwf t'.
  pose proof (observe_local_wf t v Hwf) as (Hl & Hb & He). fold t' in Hl, Hb, He.
  split.
  - intros H. unfold own_s_star. apply Z.leb_gt in H. now rewrite H.
  - intros H.
    assert (Hn : (4 <= length (_micro_buf t'))%nat) by lia.
    destruct (py_last4 _ Hn) as (a & b & c & d & E).
    exists a, b, c, d. split; [exact E|].
    now apply own_s_star_code_own_score.
Qed.

Lemma triad_after_wf (vs : list R) : triad_wf (triad_after vs).
Proof.
  unfold triad_after.
  assert (H : triad_wf (Triad_init "leaf" None)).
  { unfold triad_wf, Triad_init. cbn [_micro_len _micro_buf self_emv length].
    split; [reflexivity|]. split; [lia | lra]. }
  revert H. generalize (Triad_init "leaf" None).
  induction vs as [|v vs IH]; intros t H; [exact H|].
  cbn [fold_left]. apply IH. now apply observe_local_wf.
Qed.

(** The fourth observation on a leaf that has seen 1, 1, 1. *)
Lemma C6_witness :
  let t' := observe_local (triad_after [1; 1; 1]) 1 in
  exists a b c d,
    py_last 4 (_micro_buf t') = [a; b; c; d]
    /\ own_s_star t' = code_own_score (self_ema t') (self_emv t') a b c d.
Proof.
  intros t'.
  destruct (C6_own_score_formula (triad_after [1; 1; 1]) 1
              (triad_after_wf [1; 1; 1])) as [_ K].
  apply K. change (4 <= 4)%Z. lia.
Defined.

Lemma observe_local_first (t : Triad) (v : R) :
  count t = 0%Z ->
  self_ema (observe_local t v) = v /\ self_emv (observe_local t v) = 0.
Proof.
  intros H. unfold observe_local. cbn [self_ema self_emv]. rewrite H.
  change (0 + 1 =? 1)%Z with true. cbv iota. split; reflexivity.
Qed.

Lemma observe_local_steady (t : Triad) (c : R) :
  (1 <= count t)%Z -> self_ema t = c -> self_emv t = 0 ->
  self_ema (observe_local t c) = c /\ self_emv (observe_local t c) = 0.
Proof.
  intros H E V. unfold observe_local. cbn [self_ema self_emv].
  assert (F : (count t + 1 =? 1)%Z = false) by (apply Z.eqb_neq; lia).
  rewrite F, E, V. split; ring.
Qed.

(** Four equal observations on a fresh leaf. *)
Lemma triad_after_const4 (c : R) :
  let t := triad_after [c; c; c; c] in
  _micro_buf t = [c; c; c; c] /\ _micro_len t = 4%Z
  /\ self_ema t = c /\ self_emv t = 0.
Proof.
  intros t. split; [reflexivity|]. split; [reflexivity|].
  unfold t, triad_after. cbn [fold_left].
  set (t0 := Triad_init "leaf" None).
  destruct (observe_local_first t0 c eq_refl) as [E1 V1].
  set (t1 := observe_local t0 c) in *.
  destruct (observe_local_steady t1 c) as [E2 V2]; auto.
  { unfold t1, observe_local. cbn [count]. simpl. lia. }
  set (t2 := observe_local t1 c) in *.
  destruct (observe_local_steady t2 c) as [E3 V3]; auto.
  { unfold t2, t1, observe_local. cbn [count]. simpl. lia. }
  set (t3 := observe_local t2 c) in *.
  destruct (observe_local_steady t3 c) as [E4 V4]; auto.
  unfold t3, t2, t1, observe_local. cbn [count]. simpl. lia.
Qed.

Ltac py_cmp :=
  unfold py_ge, py_le, py_gt;
  repeat match goal with
         | |- context [Rge_dec ?a ?b] => destruct (Rge_dec a b); try lra
         | |- context [Rle_dec ?a ?b] => destruct (Rle_dec a b); try lra
         | |- context [Rgt_dec ?a ?b] => destruct (Rgt_dec a b); try lra
         end.

Lemma own_s_star_const4 (c : R) :
  own_s_star (triad_after [c; c; c; c])
  = code_own_score c 0 c c c c.
Proof.
  destruct (triad_after_const4 c) as (B & L & E & V).
  rewrite (own_s_star_code_own_score _ c c c c).
  - now rewrite E, V.
  - rewrite L. lia.
  - rewrite B. simpl. lia.
  - now rewrite B.
Qed.

Lemma code_alignment_const (c : R) : code_alignment c c c c = 1.
Proof. unfold code_alignment, monotonic4. py_cmp. reflexivity. Qed.

Lemma spec_alignment_const (c : R) : spec_alignment c c c c = 1.
Proof. unfold spec_alignment, monotonic4. py_cmp. reflexivity. Qed.

(** C6 as stated fails on the code at three inputs: the factor is
    [sigma*(1-sigma_star)], not [sigma]; a zig-zag has alignment [1/3], not
    the fraction [0/2]; and a mean that is not positive gives [cv = 1]. *)
Lemma C6_counterexample :
  (let t := triad_after [1; 1; 1; 1] in
   own_s_star t = 982081 / 1000000
   /\ spec_own_score (self_ema t) (self_emv t) 1 1 1 1 = 991 / 1000)
  /\ (let t := triad_after [1; 2; 1; 2] in
      py_last 4 (_micro_buf t) = [1; 2; 1; 2]
      /\ 0 < own_s_star t
      /\ spec_own_score (self_ema t) (self_emv t) 1 2 1 2 = 0)
  /\ (let t := triad_after [-1; -1; -1; -1] in
      own_s_star t = 982081 / 2000000
      /\ spec_own_score (self_ema t) (self_emv t) (-1) (-1) (-1) (-1) = 991 / 1000).
Proof.
  split; [|split].
  - intros t. unfold t. rewrite own_s_star_const4.
    destruct (triad_after_const4 1) as (_ & _ & E & V). rewrite E, V.
    unfold code_own_score, spec_own_score.
    rewrite code_alignment_const, spec_alignment_const, sqrt_0.
    replace (py_gt 1 0) with true by (symmetry; apply py_gt_true; lra).
    unfold SIGMA, SIGMA_STAR. split; rewrite clamp_id; lra.
  - intros t. split; [reflexivity|]. split.
    + rewrite (own_s_star_code_own_score t 1 2 1 2);
        [|unfold t; change (_micro_len (triad_after [1; 2; 1; 2])) with 4%Z; lia
         |unfold t; change (_micro_buf (triad_after [1; 2; 1; 2])) with [1; 2; 1; 2]; simpl; lia
         |reflexivity].
      unfold code_own_score.
      assert (A : code_alignment 1 2 1 2 = 1 / 3).
      { unfold code_alignment, monotonic4, agreements4. py_cmp. simpl. lra. }
      rewrite A.
      set (cv := if py_gt (self_ema t) 0 then sqrt (self_emv t) / self_ema t else 1).
      assert (Hcv : 0 <= cv).
      { unfold cv. destruct (py_gt (self_ema t) 0) eqn:G; [|lra].
        apply cv_nonneg. now apply py_gt_true. }
      pose proof (vitality_bounds cv Hcv) as [Hv0 Hv1].
      unfold SIGMA, SIGMA_STAR. rewrite clamp_id; nra.
    + unfold spec_own_score.
      assert (A : spec_alignment 1 2 1 2 = 0).
      { unfold spec_alignment, monotonic4, agreements4. py_cmp. simpl. lra. }
      rewrite A, Rmult_0_r. apply clamp_id. lra.
  - intros t. unfold t. rewrite own_s_star_const4.
    destruct (triad_after_const4 (-1)) as (_ & _ & E & V). rewrite E, V.
    unfold code_own_score, spec_own_score.
    rewrite code_alignment_const, spec_alignment_const, sqrt_0.
    replace (py_gt (-1) 0) with false by (symmetry; apply py_gt_false; lra).
    unfold SIGMA, SIGMA_STAR. split; rewrite clamp_id; lra.
Qed.

(** ** Reports from a child *)

Lemma receive_local_single_child (t : Triad) (nm : string) (s : R) :
  (_child_coherences t = [] \/ exists x, _child_coherences t = [(nm, x)]) ->
  _child_coherences (receive_local t nm s) = [(nm, s)]
  /\ macro_s_star (receive_local t nm s) = (own_s_on_report t + s) / 2.
Proof.
  intros H. unfold receive_local. cbn [_child_coherences macro_s_star].
  assert (E : dict_set (_child_coherences t) nm s = [(nm, s)]).
  { destruct H as [H | [x H]]; rewrite H; simpl; [reflexivity|].
    now rewrite String.eqb_refl. }
  rewrite E. split; [reflexivity|].
  unfold blend, dict_values, C. simpl. field.
Qed.

Lemma own_s_on_report_receive_local (t : Triad) (nm : string) (s : R) :
  own_s_on_report (receive_local t nm s) = own_s_on_report t.
Proof. reflexivity. Qed.

(** C2 (lossless propagation).  A parent whose only child is [nm] and that
    makes no observation of its own in between: two consecutive reports of
    that child, with scores [c1] then [c2], move the parent's
    [macro_s_star] by exactly [(c2 - c1)/2]. *)
Theorem C2_single_child_report_moves_parent_by_half :
  forall (t : Triad) (nm : string) (c1 c2 : R),
    (_child_coherences t = [] \/ exists x, _child_coherences t = [(nm, x)]) ->
    let t1 := receive_local t nm c1 in
    let t2 := receive_local t1 nm c2 in
    macro_s_star t2 - macro_s_star t1 = (c2 - c1) / 2.
Proof.
  intros t nm c1 c2 H t1 t2.
  destruct (receive_local_single_child t nm c1 H) as [E1 M1].
  fold t1 in E1, M1.
  destruct (receive_local_single_child t1 nm c2) as [_ M2].
  { right. now exists c1. }
  fold t2 in M2. rewrite M1, M2.
  unfold t1. rewrite own_s_on_report_receive_local. field.
Qed.

Lemma C2_witness :
  let t1 := receive_local (Triad_init "EPOCH" None) "COMPUTE" (1 / 2) in
  let t2 := receive_local t1 "COMPUTE" (3 / 4) in
  macro_s_star t2 - macro_s_star t1 = (3 / 4 - 1 / 2) / 2.
Proof.
  apply (C2_single_child_report_moves_parent_by_half
           (Triad_init "EPOCH" None) "COMPUTE" (1 / 2) (3 / 4)).
  left. reflexivity.
Defined.

(** ** Reports through the tree *)

(** A chain of reports that starts at [id] rewrites [id] by one
    [receive_local] and, above it, only ancestors: every Triad with a
    larger handle is left alone. *)
Lemma receive_child_coherence_frame (fuel : nat) :
  forall (a a' : Arena) (id : nat) (nm : string) (s : R) (t : Triad),
    arena_ok a -> in01 s ->
    nth_error a id = Some t ->
    _receive_child_coherence fuel a id nm s = Some a' ->
    nth_error a' id = Some (receive_local t nm s)
    /\ (forall j, (id < j)%nat -> nth_error a' j = nth_error a j).
Proof.
  induction fuel as [|f IH]; intros a a' id nm s t Ha Hs E R;
    cbn [_receive_child_coherence] in R; rewrite E in R;
    cbn [receive_local parent name macro_s_star] in R.
  - destruct (parent t) as [p|]; [discriminate|]. inversion R; subst a'.
    split.
    + rewrite nth_error_arena_set, Nat.eqb_refl, E. reflexivity.
    + intros j Hj. rewrite nth_error_arena_set.
      destruct (Nat.eqb id j) eqn:Q; [apply Nat.eqb_eq in Q; lia | reflexivity].
  - pose proof (Ha _ _ E) as Ht.
    pose proof (receive_local_ok id t nm s Ht Hs) as Ht'.
    assert (Ha1 : arena_ok (arena_set a id (receive_local t nm s)))
      by now apply arena_set_ok.
    assert (Eid : nth_error (arena_set a id (receive_local t nm s)) id
                  = Some (receive_local t nm s))
      by (rewrite nth_error_arena_set, Nat.eqb_refl, E; reflexivity).
    assert (Hframe : forall j, (id < j)%nat ->
              nth_error (arena_set a id (receive_local t nm s)) j
              = nth_error a j).
    { intros j Hj. rewrite nth_error_arena_set.
      destruct (Nat.eqb id j) eqn:Q; [apply Nat.eqb_eq in Q; lia | reflexivity]. }
    destruct (parent t) as [p|] eqn:Ep.
    + destruct Ht as (Hp & _). specialize (Hp _ Ep).
      destruct (nth_error (arena_set a id (receive_local t nm s)) p)
        as [tp|] eqn:Etp.
      * destruct (IH _ _ _ _ _ tp Ha1
                    (proj1 (proj2 Ht')) Etp R) as [_ Hrest].
        split.
        -- rewrite Hrest by lia. exact Eid.
        -- intros j Hj. rewrite Hrest by lia. now apply Hframe.
      * destruct f; cbn [_receive_child_coherence] in R;
          rewrite Etp in R; discriminate.
    + inversion R; subst a'. split; [exact Eid | exact Hframe].
Qed.

(** An observation on a child reaches its parent as one report of the
    child's new [macro_s_star]. *)
Lemma observe_reports_to_parent (a : Arena) (c p : nat) (v : R)
    (tc tp : Triad) :
  arena_ok a ->
  nth_error a c = Some tc -> parent tc = Some p -> nth_error a p = Some tp ->
  exists a' res,
    observe a c v = Some (a', res)
    /\ arena_ok a'
    /\ nth_error a' c = Some (observe_local tc v)
    /\ nth_error a' p
       = Some (receive_local tp (name tc) (macro_s_star (observe_local tc v))).
Proof.
  intros Ha Ec Ep Etp.
  destruct (observe_ok a c v tc Ha Ec) as (a' & res & E & Ha' & _).
  exists a', res. split; [exact E|]. split; [exact Ha'|].
  unfold observe in E. rewrite Ec in E.
  pose proof (Ha _ _ Ec) as Htc.
  pose proof (observe_local_ok c tc v Htc) as Htc'.
  assert (Hpc : (p < c)%nat) by (destruct Htc as (Hp & _); now apply Hp).
  assert (Epar : parent (observe_local tc v) = Some p) by exact Ep.
  rewrite Epar in E.
  destruct (_receive_child_coherence _ _ p _ _) as [a''|] eqn:R;
    [|discriminate].
  inversion E; subst a''.
  assert (Ha1 : arena_ok (arena_set a c (observe_local tc v)))
    by now apply arena_set_ok.
  assert (Etp1 : nth_error (arena_set a c (observe_local tc v)) p = Some tp).
  { rewrite nth_error_arena_set.
    destruct (Nat.eqb c p) eqn:Q; [apply Nat.eqb_eq in Q; lia | exact Etp]. }
  destruct (receive_child_coherence_frame _ _ _ _ _ _ tp Ha1
              (proj1 (proj2 Htc')) Etp1 R) as [Hp' Hrest].
  split.
  - rewrite Hrest by exact Hpc.
    rewrite nth_error_arena_set, Nat.eqb_refl, Ec. reflexivity.
  - exact Hp'.
Qed.

(** Lossless propagation through the tree: two observations in a row on
    the only child of [p] move the parent's [macro_s_star] by half of what
    they move the child's. *)
Lemma two_observations_move_parent_by_half (a : Arena) (c p : nat)
    (v1 v2 : R) (tc tp : Triad) :
  arena_ok a ->
  nth_error a c = Some tc -> parent tc = Some p -> nth_error a p = Some tp ->
  (_child_coherences tp = []
   \/ exists x, _child_coherences tp = [(name tc, x)]) ->
  exists a1 r1 a2 r2 tc1 tp1 tc2 tp2,
    observe a c v1 = Some (a1, r1) /\ observe a1 c v2 = Some (a2, r2)
    /\ nth_error a1 c = Some tc1 /\ nth_error a1 p = Some tp1
    /\ nth_error a2 c = Some tc2 /\ nth_error a2 p = Some tp2
    /\ macro_s_star tp2 - macro_s_star tp1
       = (macro_s_star tc2 - macro_s_star tc1) / 2.
Proof.
  intros Ha Ec Ep Etp Hone.
  destruct (observe_reports_to_parent a c p v1 tc tp Ha Ec Ep Etp)
    as (a1 & r1 & E1 & Ha1 & Ec1 & Ep1).
  destruct (observe_reports_to_parent a1 c p v2 _ _ Ha1 Ec1 Ep Ep1)
    as (a2 & r2 & E2 & _ & Ec2 & Ep2).
  do 8 eexists.
  split; [exact E1|]. split; [exact E2|]. split; [exact Ec1|].
  split; [exact Ep1|]. split; [exact Ec2|]. split; [exact Ep2|].
  change (name (observe_local tc v1)) with (name tc).
  set (s1 := macro_s_star (observe_local tc v1)).
  set (s2 := macro_s_star (observe_local (observe_local tc v1) v2)).
  destruct (receive_local_single_child tp (name tc) s1 Hone) as [C1 M1].
  destruct (receive_local_single_child (receive_local tp (name tc) s1)
              (name tc) s2) as [_ M2].
  { right. now exists s1. }
  rewrite M1, M2, own_s_on_report_receive_local. field.
Qed.

(** C5 as stated fails: after four observations of 1 the last own score of
    [observe] is 0.982081, and a child's report of 0.5 blends the children
    with 0.4910405 instead. *)
Lemma C5_counterexample :
  let t := triad_after [1; 1; 1; 1] in
  own_s_star t = 982081 / 1000000
  /\ child_mean_after t "child" (1 / 2) = 1 / 2
  /\ macro_s_star (receive_local t "child" (1 / 2))
     = (982081 / 2000000 + 1 / 2) / 2
  /\ macro_s_star (receive_local t "child" (1 / 2))
     <> (own_s_star t + child_mean_after t "child" (1 / 2)) / 2.
Proof.
  intros t.
  assert (Hown : own_s_star t = 982081 / 1000000).
  { unfold t. rewrite own_s_star_const4.
    unfold code_own_score. rewrite code_alignment_const, sqrt_0.
    replace (py_gt 1 0) with true by (symmetry; apply py_gt_true; lra).
    unfold SIGMA, SIGMA_STAR. rewrite clamp_id; lra. }
  assert (Hmean : child_mean_after t "child" (1 / 2) = 1 / 2).
  { unfold child_mean_after.
    change (_child_coherences t) with (@nil (string * R)).
    unfold dict_values, py_sum. simpl. field. }
  assert (Hrep : own_s_on_report t = 982081 / 2000000).
  { destruct (triad_after_const4 1) as (_ & L & E & V). fold t in L, E, V.
    unfold own_s_on_report. rewrite L, E, V, sqrt_0.
    replace (py_gt 1 0) with true by (symmetry; apply py_gt_true; lra).
    change (4 <=? 4)%Z with true. cbn [andb].
    unfold s_star. rewrite FACTOR_value. field. }
  assert (Hmacro : macro_s_star (receive_local t "child" (1 / 2))
                   = (982081 / 2000000 + 1 / 2) / 2).
  { destruct (receive_local_single_child t "child" (1 / 2)) as [_ M].
    - left. reflexivity.
    - rewrite M, Hrep. reflexivity. }
  split; [exact Hown|]. split; [exact Hmean|]. split; [exact Hmacro|].
  rewrite Hmacro, Hown, Hmean. lra.
Qed.

Lemma blend_dict_set (own : R) (d : dict R) (k : string) (v o : R) :
  blend own (dict_set d k v) o
  = (own + py_sum (dict_values (dict_set d k v))
             / INR (length (dict_values (dict_set d k v)))) / 2.
Proof.
  unfold blend. destruct (dict_set d k v) eqn:E.
  - now apply dict_set_nonempty in E.
  - unfold C. field.
    apply not_0_INR. unfold dict_values. simpl. discriminate.
Qed.

(** C5, amended.  A child's report stores the score in the map and sets
    [macro_s_star] to the 1:1 mean of the map's mean and of an own score
    re-derived from the stored mean and variance with the alignment fixed
    at 0.5 ([T_STAR] when the mean is not positive or fewer than four
    samples are recorded); the raw observation buffer is not read. *)
Theorem C5_report_rederives_own_score_from_statistics :
  forall (t : Triad) (nm : string) (s : R),
    let t' := receive_local t nm s in
    _child_coherences t' = dict_set (_child_coherences t) nm s
    /\ macro_s_star t' = (own_s_on_report t + child_mean_after t nm s) / 2
    /\ own_s_on_report t
       = (if py_gt (self_ema t) 0 && (4 <=? _micro_len t)%Z
          then SIGMA * (1 - SIGMA_STAR)
               * (1 / (1 + sqrt (self_emv t) / self_ema t)) * (1 / 2)
          else T_STAR)
    /\ (forall buf : list R,
          macro_s_star (receive_local (with_micro_buf t buf) nm s)
          = macro_s_star t').
Proof.
  intros t nm s t'. split; [reflexivity|]. split; [|split].
  - unfold t', receive_local. cbn [macro_s_star].
    rewrite blend_dict_set. reflexivity.
  - unfold own_s_on_report.
    destruct (py_gt (self_ema t) 0 && (4 <=? _micro_len t)%Z); [|reflexivity].
    unfold s_star, FACTOR. f_equal. lra.
  - intros buf. reflexivity.
Qed.

(** ** The Pulse before its window is full *)

Lemma deque_append_short {A : Type} (n : nat) (d : list A) (x : A) :
  (length d < n)%nat -> deque_append n d x = d ++ [x].
Proof.
  intros H. unfold deque_append. rewrite length_app. simpl.
  replace (length d + 1 - n)%nat with 0%nat by lia. reflexivity.
Qed.

Lemma wait_below_window (p : Pulse) (x : Z) :
  (_hist_len p + 1 < 16)%Z ->
  wait p x =
  advance_phase
    (set_measure p
       ((1 - sigma_weight p) * IZR x + sigma_weight p * ema_actual p)
       ((1 - sigma_weight p) * IZR (x - target_ns p)
        + sigma_weight p * ema_error p)
       (deque_append 256 (_history p) x)
       (Z.min (_hist_len p + 1) 256))
    x (x - target_ns p).
Proof.
  intros H. unfold wait.
  assert (E : (16 <=? Z.min (_hist_len p + 1) 256)%Z = false)
    by (apply Z.leb_gt; lia).
  now rewrite E.
Qed.

Lemma wait_all_below_window (clock : list Z) :
  forall p : Pulse,
    (_hist_len p + Z.of_nat (length clock) <= 15)%Z ->
    (length (_history p) + length clock <= 256)%nat ->
    let p' := wait_all p clock in
    lock_achieved p' = lock_achieved p
    /\ coherence p' = coherence p
    /\ _hist_len p' = (_hist_len p + Z.of_nat (length clock))%Z
    /\ _history p' = _history p ++ clock
    /\ target_ns p' = target_ns p.
Proof.
  induction clock as [|x rest IH]; intros p Hl Hh.
  - simpl. rewrite app_nil_r, Z.add_0_r. repeat split; reflexivity.
  - cbn [wait_all]. cbn [length] in Hl, Hh.
    rewrite wait_below_window by lia.
    unfold advance_phase. cbn [fst].
    match goal with |- context [wait_all ?q rest] => set (p1 := q) end.
    assert (L1 : _hist_len p1 = (_hist_len p + 1)%Z)
      by (unfold p1; cbn [_hist_len set_measure]; lia).
    assert (H1 : _history p1 = _history p ++ [x])
      by (unfold p1; cbn [_history set_measure]; apply deque_append_short; lia).
    destruct (IH p1) as (A & B & D & E & F).
    + rewrite L1. lia.
    + rewrite H1, length_app. simpl. lia.
    + cbv zeta. rewrite A, B, D, E, F, L1, H1.
      cbn [length]. rewrite <- app_assoc.
      repeat split; try reflexivity. lia.
Qed.

Lemma FLOAT_OVERFLOW_bounds :
  IZR (10 ^ 308) < FLOAT_OVERFLOW < IZR (10 ^ 309).
Proof.
  unfold FLOAT_OVERFLOW. split; apply IZR_lt; now vm_compute.
Qed.

Lemma moderate_in_range (q : R) :
  Rabs q <= 1000000000 -> Rabs q < FLOAT_OVERFLOW.
Proof.
  intros H. destruct FLOAT_OVERFLOW_bounds as [L _].
  assert (1000000000 < IZR (10 ^ 308)) by (apply IZR_lt; now vm_compute).
  lra.
Qed.

(** What the constructor returns, and when. *)
Lemma Pulse_init_Ok (hz : R) (p : Pulse) :
  Pulse_init hz = Ok p ->
  hz <> 0 /\ Rabs (1000000000 / hz) < FLOAT_OVERFLOW
  /\ p = mkPulse (py_int (1000000000 / hz)) 0
                 (IZR (py_int (1000000000 / hz))) 0 SIGMA 0 false hz
                 T_STAR [] 0.
Proof.
  unfold Pulse_init, target_ns_of, py_fdiv.
  destruct (Req_dec_T hz 0) as [E0|N0]; [discriminate|].
  destruct (Rle_dec FLOAT_OVERFLOW (Rabs (1000000000 / hz))) as [O|O];
    cbn [py_int_float]; [discriminate|].
  intros E. inversion E.
  split; [exact N0|]. split; [now apply Rnot_le_lt|reflexivity].
Qed.

Lemma Pulse_init_in_range (hz : R) :
  hz <> 0 -> Rabs (1000000000 / hz) < FLOAT_OVERFLOW ->
  Pulse_init hz
  = Ok (mkPulse (py_int (1000000000 / hz)) 0
                (IZR (py_int (1000000000 / hz))) 0 SIGMA 0 false hz
                T_STAR [] 0).
Proof.
  intros N0 H. unfold Pulse_init, target_ns_of, py_fdiv.
  destruct (Req_dec_T hz 0) as [E0|_]; [contradiction|].
  destruct (Rle_dec FLOAT_OVERFLOW (Rabs (1000000000 / hz))) as [O|_];
    [exfalso; apply (Rlt_irrefl FLOAT_OVERFLOW);
     eapply Rle_lt_trans; [exact O|exact H]|].
  reflexivity.
Qed.

Lemma Pulse_init_fresh (hz : R) (p : Pulse) :
  Pulse_init hz = Ok p ->
  lock_achieved p = false /\ coherence p = T_STAR
  /\ _hist_len p = 0%Z /\ _history p = [].
Proof.
  intros E. destruct (Pulse_init_Ok hz p E) as (_ & _ & ->).
  repeat split; reflexivity.
Qed.

Lemma py_div_ok (x y q : R) : py_div x y = Ok q -> y <> 0 /\ q = x / y.
Proof.
  unfold py_div. destruct (Req_dec_T y 0); [discriminate|].
  intros E. inversion E. auto.
Qed.

Ltac pulse_simpl :=
  cbn [fst snd is_ok set_measure set_coherence set_lock_achieved
       set_natural_freq target_ns phase ema_actual ema_error sigma_weight
       fire_count lock_achieved natural_freq coherence _history _hist_len].

(** What a [wait] that reaches the coherence computation and returns
    leaves behind. *)
Lemma wait_at_window (p : Pulse) (x : Z) :
  (16 <= Z.min (_hist_len p + 1) 256)%Z ->
  is_ok (snd (wait p x)) = true ->
  let q := fst (wait p x) in
  coherence q
  = s_star (window_vitality (py_last 16 (deque_append 256 (_history p) x)))
           (1 / (1 + Rabs (ema_error q) / IZR (target_ns p)))
  /\ (lock_achieved p = false -> lock_achieved q = true ->
      natural_freq q = 1000000000 / ema_actual q
      /\ coherence q >= T_STAR).
Proof.
  intros H. unfold wait. apply Z.leb_le in H. rewrite H.
  destruct (py_div _ (IZR (target_ns p))) as [q1|e1] eqn:E1;
    [|cbn [snd is_ok]; discriminate].
  destruct (py_div 1 (1 + q1)) as [q2|e2] eqn:E2;
    [|cbn [snd is_ok]; discriminate].
  apply py_div_ok in E1, E2. destruct E1 as [_ E1]. destruct E2 as [_ E2].
  subst q1 q2. pulse_simpl.
  destruct (py_ge _ T_STAR) eqn:G; cbn [andb].
  - destruct (lock_achieved p) eqn:L; cbn [negb].
    + unfold advance_phase. pulse_simpl.
      intros _. split; [reflexivity|]. intros; discriminate.
    + pulse_simpl.
      destruct (py_div 1000000000 _) as [f|e3] eqn:E3;
        [|cbn [snd is_ok]; discriminate].
      apply py_div_ok in E3. destruct E3 as [_ E3]. subst f.
      unfold advance_phase. pulse_simpl.
      intros _. split; [reflexivity|]. intros _ _. split; [reflexivity|].
      now apply py_ge_true.
  - unfold advance_phase. pulse_simpl.
    intros _. split; [reflexivity|]. intros L1 L2. congruence.
Qed.

(** The lock test of a [wait] that reaches the coherence computation on an
    unlocked Pulse: the lock is set only on a coherence of at least
    [T_STAR], also when the call then raises, and a call that returns has
    set it on every such coherence. *)
Lemma wait_at_window_lock (p : Pulse) (x : Z) :
  (16 <= Z.min (_hist_len p + 1) 256)%Z ->
  lock_achieved p = false ->
  let q := fst (wait p x) in
  (lock_achieved q = true -> coherence q >= T_STAR)
  /\ (is_ok (snd (wait p x)) = true ->
      coherence q >= T_STAR -> lock_achieved q = true).
Proof.
  intros H L. unfold wait. apply Z.leb_le in H. rewrite H.
  destruct (py_div _ (IZR (target_ns p))) as [q1|e1];
    [|pulse_simpl; rewrite L; split; intros; discriminate].
  destruct (py_div 1 (1 + q1)) as [q2|e2];
    [|pulse_simpl; rewrite L; split; intros; discriminate].
  pulse_simpl. rewrite L.
  destruct (py_ge _ T_STAR) eqn:G; cbn [andb negb].
  - apply py_ge_true in G.
    destruct (py_div 1000000000 _) as [f|e3].
    + unfold advance_phase. pulse_simpl. split; intros; auto.
    + pulse_simpl. split; intros; auto.
  - apply py_ge_false in G. unfold advance_phase. pulse_simpl.
    rewrite L. split; [intros; discriminate|]. intros _ K. lra.
Qed.

(** C10.  A Pulse as its constructor leaves it: after each of its first
    fifteen [wait] calls it is still unlocked with the coherence [T_STAR] it
    started with, and each of those calls returns.  The sixteenth call is
    the first to evaluate the lock condition: when it returns it has
    computed the coherence from the sixteen samples and the Pulse is locked
    exactly when that coherence is at least [T_STAR], with the natural
    frequency [1e9 / ema_actual]; and whether it returns or raises, it has
    locked only on such a coherence. *)
Theorem C10_first_fifteen_waits_keep_initial_coherence :
  forall (hz : R) (p : Pulse) (clock : list Z),
    Pulse_init hz = Ok p ->
    (length clock <= 15)%nat ->
    let p' := wait_all p clock in
    lock_achieved p' = false
    /\ coherence p' = T_STAR
    /\ _hist_len p' = Z.of_nat (length clock)
    /\ (forall x, (length clock < 15)%nat -> is_ok (snd (wait p' x)) = true)
    /\ (forall x, length clock = 15%nat ->
          is_ok (snd (wait p' x)) = true ->
          coherence (fst (wait p' x))
          = s_star (window_vitality (clock ++ [x]))
                   (1 / (1 + Rabs (ema_error (fst (wait p' x)))
                             / IZR (target_ns p)))
          /\ (lock_achieved (fst (wait p' x)) = true
              <-> coherence (fst (wait p' x)) >= T_STAR)
          /\ (lock_achieved (fst (wait p' x)) = true ->
              natural_freq (fst (wait p' x))
              = 1000000000 / ema_actual (fst (wait p' x))))
    /\ (forall x, length clock = 15%nat ->
          lock_achieved (fst (wait p' x)) = true ->
          coherence (fst (wait p' x)) >= T_STAR).
Proof.
  intros hz p clock Hinit Hlen p'.
  destruct (Pulse_init_fresh hz p Hinit) as (L0 & C0 & N0 & H0).
  destruct (wait_all_below_window clock p) as (A & B & D & E & F).
  { rewrite N0. lia. }
  { rewrite H0. simpl. lia. }
  fold p' in A, B, D, E, F.
  rewrite L0 in A. rewrite C0 in B. rewrite N0 in D. rewrite H0 in E.
  simpl in D, E.
  split; [exact A|]. split; [exact B|]. split; [exact D|].
  split; [|split].
  - intros x Hx. rewrite wait_below_window by (rewrite D; lia).
    reflexivity.
  - intros x Hx Hok.
    destruct (wait_at_window p' x) as [Hc Hn]; [rewrite D; lia|exact Hok|].
    destruct (wait_at_window_lock p' x) as [Hl Hr]; [rewrite D; lia|exact A|].
    split; [|split].
    + rewrite Hc, E, F. rewrite deque_append_short by lia.
      unfold py_last. rewrite length_app, Hx. reflexivity.
    + split; [exact Hl|exact (Hr Hok)].
    + intros K. exact (proj1 (Hn A K)).
  - intros x Hx.
    destruct (wait_at_window_lock p' x) as [Hl _]; [rewrite D; lia|exact A|].
    exact Hl.
Qed.

Lemma py_int_IZR (z : Z) : (0 <= z)%Z -> py_int (IZR z) = z.
Proof.
  intros H. unfold py_int.
  destruct (Rle_dec 0 (IZR z)) as [_|N]; [|apply IZR_le in H; lra].
  symmetry. apply Int_part_spec. lra.
Qed.

Lemma Pulse_init_1000 : Pulse_init 1000 = Ok pulse_1000.
Proof.
  rewrite Pulse_init_in_range.
  - replace (1000000000 / 1000) with (IZR 1000000) by lra.
    rewrite py_int_IZR by lia. reflexivity.
  - lra.
  - apply moderate_in_range.
    replace (1000000000 / 1000) with 1000000 by lra.
    rewrite Rabs_pos_eq; lra.
Qed.

(** ** The lock of the Pulse *)

Lemma wait_keeps_lock (p : Pulse) (x : Z) :
  lock_achieved p = true ->
  lock_achieved (fst (wait p x)) = true
  /\ natural_freq (fst (wait p x)) = natural_freq p.
Proof.
  intros L. unfold wait.
  destruct (16 <=? _)%Z; [|unfold advance_phase; pulse_simpl; auto].
  destruct (py_div _ (IZR (target_ns p))) as [q1|e1]; [|pulse_simpl; auto].
  destruct (py_div 1 (1 + q1)) as [q2|e2]; [|pulse_simpl; auto].
  pulse_simpl. rewrite L, andb_false_r.
  unfold advance_phase. pulse_simpl. auto.
Qed.

Lemma wait_all_keeps_lock (clock : list Z) :
  forall p : Pulse,
    lock_achieved p = true ->
    lock_achieved (wait_all p clock) = true
    /\ natural_freq (wait_all p clock) = natural_freq p.
Proof.
  induction clock as [|x rest IH]; intros p L; [simpl; auto|].
  cbn [wait_all]. destruct (wait_keeps_lock p x L) as [L1 F1].
  destruct (IH _ L1) as [L2 F2]. rewrite F2, F1. auto.
Qed.

Lemma wait_sets_natural_freq (p : Pulse) (x : Z) :
  lock_achieved p = false ->
  lock_achieved (fst (wait p x)) = true ->
  is_ok (snd (wait p x)) = true ->
  natural_freq (fst (wait p x)) = 1000000000 / ema_actual (fst (wait p x))
  /\ coherence (fst (wait p x)) >= T_STAR.
Proof.
  intros L0 L1 Hok.
  destruct (Z_le_gt_dec 16 (Z.min (_hist_len p + 1) 256)) as [H|H].
  - destruct (wait_at_window p x H Hok) as [_ Hf]. now apply Hf.
  - assert (E : (16 <=? Z.min (_hist_len p + 1) 256)%Z = false)
      by (apply Z.leb_gt; lia).
    unfold wait in L1. rewrite E in L1.
    unfold advance_phase in L1. revert L1. pulse_simpl. congruence.
Qed.

Lemma window_vitality_bounds (recent : list Z) :
  0 < window_vitality recent <= 1.
Proof.
  unfold window_vitality. apply vitality_bounds.
  destruct (py_gt (window_mu recent) 0) eqn:G; [|lra].
  apply cv_nonneg. now apply py_gt_true.
Qed.

Lemma Pulse_init_balanced (hz : R) (p : Pulse) :
  Pulse_init hz = Ok p -> balanced p.
Proof.
  intros E. destruct (Pulse_init_Ok hz p E) as (_ & _ & ->).
  unfold balanced. cbn [ema_actual ema_error target_ns].
  ring.
Qed.

Lemma wait_measures (p : Pulse) (x : Z) :
  ema_actual (fst (wait p x))
  = (1 - sigma_weight p) * IZR x + sigma_weight p * ema_actual p
  /\ ema_error (fst (wait p x))
     = (1 - sigma_weight p) * IZR (x - target_ns p)
       + sigma_weight p * ema_error p
  /\ target_ns (fst (wait p x)) = target_ns p
  /\ sigma_weight (fst (wait p x)) = sigma_weight p.
Proof.
  unfold wait.
  destruct (16 <=? _)%Z; [|unfold advance_phase; pulse_simpl; auto].
  destruct (py_div _ (IZR (target_ns p))) as [q1|e1]; [|pulse_simpl; auto].
  destruct (py_div 1 (1 + q1)) as [q2|e2]; [|pulse_simpl; auto].
  pulse_simpl. destruct (py_ge _ T_STAR && negb (lock_achieved p)).
  - destruct (py_div 1000000000 _); unfold advance_phase; pulse_simpl; auto.
  - unfold advance_phase; pulse_simpl; auto.
Qed.

Lemma wait_balanced (p : Pulse) (x : Z) :
  balanced p -> balanced (fst (wait p x)).
Proof.
  unfold balanced. intros B.
  destruct (wait_measures p x) as (A & E & T & _).
  rewrite A, E, T, B, minus_IZR. ring.
Qed.

Lemma wait_all_balanced (clock : list Z) :
  forall p : Pulse, balanced p -> balanced (wait_all p clock).
Proof.
  induction clock as [|x rest IH]; intros p B; [exact B|].
  cbn [wait_all]. apply IH. now apply wait_balanced.
Qed.

(** On a balanced Pulse the call that locks also returns: were
    [ema_actual] zero at that point, [ema_error] would be [- target_ns],
    and the alignment either raises or is one half, too low to lock. *)
Lemma wait_lock_returns (p : Pulse) (x : Z) :
  balanced p ->
  lock_achieved p = false ->
  lock_achieved (fst (wait p x)) = true ->
  is_ok (snd (wait p x)) = true.
Proof.
  unfold balanced. intros B L0. unfold wait.
  destruct (16 <=? _)%Z;
    [|unfold advance_phase; pulse_simpl; congruence].
  destruct (py_div _ (IZR (target_ns p))) as [q1|e1] eqn:E1;
    [|pulse_simpl; congruence].
  destruct (py_div 1 (1 + q1)) as [q2|e2] eqn:E2;
    [|pulse_simpl; congruence].
  apply py_div_ok in E1, E2.
  destruct E1 as [HT E1]. destruct E2 as [Hq E2].
  pulse_simpl. rewrite L0. cbn [negb]. rewrite andb_true_r.
  destruct (py_ge _ T_STAR) eqn:G;
    [|unfold advance_phase; pulse_simpl; congruence].
  pulse_simpl.
  destruct (py_div 1000000000 _) as [f|e3] eqn:E3;
    [unfold advance_phase; pulse_simpl; reflexivity|].
  exfalso. unfold py_div in E3.
  destruct (Req_dec_T _ 0) as [Z0|_]; [|discriminate].
  apply py_ge_true in G.
  set (ee := (1 - sigma_weight p) * IZR (x - target_ns p)
             + sigma_weight p * ema_error p) in *.
  assert (Hee : ee = - IZR (target_ns p)).
  { unfold ee. rewrite minus_IZR. rewrite B in Z0. lra. }
  match type of G with
  | s_star (window_vitality ?w) _ >= _ =>
      pose proof (window_vitality_bounds w) as [V0 V1];
      set (V := window_vitality w) in *
  end.
  rewrite Hee, Rabs_Ropp in E1.
  destruct (Rlt_le_dec 0 (IZR (target_ns p))) as [Pos|Neg].
  - rewrite Rabs_right in E1 by lra.
    assert (q1 = 1) by (subst q1; field; lra). subst q2.
    replace (1 / (1 + q1)) with (1 / 2) in G by (rewrite H; lra).
    unfold s_star, T_STAR in G. rewrite FACTOR_value in G. nra.
  - rewrite Rabs_left in E1 by lra.
    assert (q1 = -1) by (subst q1; field; lra). lra.
Qed.

(** C7 (lock monotonicity).  A locked Pulse stays locked through any
    further run of [wait] calls, also through calls that raise, and keeps
    its [natural_freq]; and if it is locked because a [wait] call on a Pulse
    with balanced averages, as every constructed Pulse has them, has just
    locked it, that call returned and [natural_freq] is [1e9 / ema_actual]
    as of that call. *)
Theorem C7_lock_is_permanent :
  forall (p : Pulse) (clock : list Z),
    lock_achieved p = true ->
    lock_achieved (wait_all p clock) = true
    /\ natural_freq (wait_all p clock) = natural_freq p
    /\ (forall (p0 : Pulse) (x : Z),
          balanced p0 ->
          lock_achieved p0 = false ->
          fst (wait p0 x) = p ->
          is_ok (snd (wait p0 x)) = true
          /\ natural_freq p = 1000000000 / ema_actual p
          /\ coherence p >= T_STAR).
Proof.
  intros p clock L.
  destruct (wait_all_keeps_lock clock p L) as [L1 F1].
  split; [exact L1|]. split; [exact F1|].
  intros p0 x B L0 E. subst p.
  pose proof (wait_lock_returns p0 x B L0 L) as Hok.
  split; [exact Hok|]. now apply wait_sets_natural_freq.
Qed.

Lemma sum_repeat (c : Z) (n : nat) :
  fold_right Z.add 0%Z (repeat c n) = (Z.of_nat n * c)%Z.
Proof.
  induction n as [|n IH]; [reflexivity|].
  cbn [repeat fold_right]. rewrite IH. lia.
Qed.

Lemma window_mu_repeat (c : Z) (n : nat) :
  (0 < n)%nat -> window_mu (repeat c n) = IZR c.
Proof.
  intros H. unfold window_mu.
  rewrite sum_repeat, repeat_length, mult_IZR, <- INR_IZR_INZ.
  field. apply not_0_INR. lia.
Qed.

Lemma window_var_repeat (c : Z) (n : nat) :
  (0 < n)%nat -> window_var (repeat c n) = 0.
Proof.
  intros H. unfold window_var. rewrite window_mu_repeat by exact H.
  assert (E : forall m, py_sum (map (fun x => (IZR x - IZR c) ^ 2) (repeat c m)) = 0).
  { induction m as [|m IH]; [reflexivity|].
    cbn [repeat map]. change (py_sum (?a :: ?l)) with (a + py_sum l).
    rewrite IH. ring. }
  rewrite E. unfold Rdiv. apply Rmult_0_l.
Qed.

(** A window of equal positive samples has no variability. *)
Lemma window_vitality_repeat (c : Z) (n : nat) :
  (0 < n)%nat -> (0 < c)%Z -> window_vitality (repeat c n) = 1.
Proof.
  intros H Hc. unfold window_vitality.
  rewrite window_mu_repeat, window_var_repeat, sqrt_0 by exact H.
  replace (py_gt (IZR c) 0) with true.
  - unfold Rdiv. rewrite Rmult_0_l, Rplus_0_r, Rmult_1_l. apply Rinv_1.
  - symmetry. apply py_gt_true. apply IZR_lt in Hc. lra.
Qed.

Lemma wait_all_on_target (c : Z) (n : nat) :
  forall p : Pulse,
    on_target c p -> (_hist_len p + Z.of_nat n <= 15)%Z ->
    on_target c (wait_all p (repeat c n)).
Proof.
  induction n as [|n IH]; intros p Hp Hl; [exact Hp|].
  cbn [repeat wait_all]. apply IH; [|].
  - destruct Hp as (T & S & A & E).
    rewrite wait_below_window by lia.
    unfold advance_phase, on_target. pulse_simpl.
    rewrite T, S, A, E, Z.sub_diag.
    repeat split; try reflexivity; ring.
  - rewrite wait_below_window by lia.
    unfold advance_phase. pulse_simpl. lia.
Qed.

Lemma pulse_15_state :
  on_target 1000000 pulse_15
  /\ lock_achieved pulse_15 = false
  /\ _hist_len pulse_15 = 15%Z
  /\ _history pulse_15 = repeat 1000000%Z 15.
Proof.
  unfold pulse_15. split.
  - apply wait_all_on_target; [|simpl; lia].
    unfold on_target, pulse_1000. simpl. repeat split; reflexivity.
  - destruct (wait_all_below_window (repeat 1000000%Z 15) pulse_1000)
      as (A & _ & D & E & _); [simpl; lia|simpl; lia|].
    rewrite A, D, E. repeat split; reflexivity.
Qed.

(** The sixteenth on-target call of a 1 kHz Pulse locks it at 1000 Hz. *)
Lemma wait_pulse_15 :
  is_ok (snd (wait pulse_15 1000000)) = true
  /\ lock_achieved (fst (wait pulse_15 1000000)) = true
  /\ natural_freq (fst (wait pulse_15 1000000)) = 1000.
Proof.
  destruct pulse_15_state as ((T & S & A & E) & L & N & H).
  unfold wait. rewrite T, S, A, E, N, H.
  change (Z.min (15 + 1) 256) with 16%Z.
  change (16 <=? 16)%Z with true. cbv iota.
  change (1000000 - 1000000)%Z with 0%Z.
  change (deque_append 256 (repeat 1000000%Z 15) 1000000%Z)
    with (repeat 1000000%Z 16).
  change (py_last 16 (repeat 1000000%Z 16)) with (repeat 1000000%Z 16).
  rewrite window_vitality_repeat by lia.
  replace ((1 - SIGMA) * 0 + SIGMA * 0) with 0 by ring.
  replace ((1 - SIGMA) * 1000000 + SIGMA * 1000000) with 1000000 by ring.
  rewrite Rabs_R0.
  unfold py_div.
  destruct (Req_dec_T 1000000 0) as [E0|_]; [lra|].
  replace (0 / 1000000) with 0 by lra.
  destruct (Req_dec_T (1 + 0) 0) as [E0|_]; [lra|].
  pulse_simpl. rewrite L.
  replace (py_ge (s_star 1 (1 / (1 + 0))) T_STAR) with true.
  - cbn [andb negb]. pulse_simpl.
    destruct (Req_dec_T 1000000 0) as [E0|_]; [lra|].
    unfold advance_phase. pulse_simpl.
    split; [reflexivity|]. split; [reflexivity|]. lra.
  - symmetry. apply py_ge_true. unfold s_star, T_STAR.
    rewrite FACTOR_value. lra.
Qed.

Lemma pulse_15_balanced : balanced pulse_15.
Proof.
  unfold pulse_15. apply wait_all_balanced.
  exact (Pulse_init_balanced 1000 pulse_1000 Pulse_init_1000).
Qed.

Lemma C7_witness :
  lock_achieved (wait_all (fst (wait pulse_15 1000000)) [999000; 1002000]%Z)
  = true
  /\ natural_freq (wait_all (fst (wait pulse_15 1000000)) [999000; 1002000]%Z)
     = natural_freq (fst (wait pulse_15 1000000))
  /\ is_ok (snd (wait pulse_15 1000000)) = true
  /\ natural_freq (fst (wait pulse_15 1000000))
     = 1000000000 / ema_actual (fst (wait pulse_15 1000000))
  /\ coherence (fst (wait pulse_15 1000000)) >= T_STAR.
Proof.
  destruct (C7_lock_is_permanent (fst (wait pulse_15 1000000))
              [999000; 1002000]%Z (proj1 (proj2 wait_pulse_15)))
    as (A & B & K).
  split; [exact A|]. split; [exact B|].
  exact (K pulse_15 1000000%Z pulse_15_balanced
           (proj1 (proj2 pulse_15_state)) eq_refl).
Defined.

Lemma pulse_15_unfold :
  pulse_15 = wait_all pulse_1000 (repeat 1000000%Z 15).
Proof. reflexivity. Qed.

(** The fifteen on-target calls of [pulse_15], and its sixteenth, which
    locks. *)
Lemma C10_witness :
  lock_achieved pulse_15 = false
  /\ coherence pulse_15 = T_STAR
  /\ _hist_len pulse_15 = 15%Z
  /\ coherence (fst (wait pulse_15 1000000))
     = s_star (window_vitality (repeat 1000000%Z 15 ++ [1000000%Z]))
              (1 / (1 + Rabs (ema_error (fst (wait pulse_15 1000000)))
                        / IZR (target_ns pulse_1000)))
  /\ lock_achieved (fst (wait pulse_15 1000000)) = true
  /\ coherence (fst (wait pulse_15 1000000)) >= T_STAR
  /\ natural_freq (fst (wait pulse_15 1000000))
     = 1000000000 / ema_actual (fst (wait pulse_15 1000000)).
Proof.
  pose proof (C10_first_fifteen_waits_keep_initial_coherence
                1000 pulse_1000 (repeat 1000000%Z 15) Pulse_init_1000 (le_n 15))
    as H.
  cbv zeta in H. rewrite <- pulse_15_unfold in H.
  destruct H as (A & B & D & _ & K & _).
  destruct (K 1000000%Z eq_refl (proj1 wait_pulse_15)) as (Kc & Kl & Kn).
  pose proof (proj1 (proj2 wait_pulse_15)) as L.
  split; [exact A|]. split; [exact B|]. split; [exact D|].
  split; [exact Kc|]. split; [exact L|].
  split; [exact (proj1 Kl L)|exact (Kn L)].
Defined.

(** ** The spine *)

Lemma py_index_in_range {A : Type} (l : list A) (i : Z) :
  (0 <= i < Z.of_nat (length l))%Z -> py_index l i = Some (Z.to_nat i).
Proof.
  intros H. unfold py_index.
  assert (E : ((0 <=? i) && (i <? Z.of_nat (length l)))%Z = true).
  { apply andb_true_iff. split; [apply Z.leb_le|apply Z.ltb_lt]; lia. }
  now rewrite E.
Qed.

Lemma py_getitem_in_range (l : list R) (i : Z) :
  (0 <= i < Z.of_nat (length l))%Z -> exists x, py_getitem l i = Ok x.
Proof.
  intros H. unfold py_getitem. rewrite py_index_in_range by exact H.
  destruct (nth_error l (Z.to_nat i)) as [x|] eqn:E; [now exists x|].
  apply nth_error_None in E. lia.
Qed.

Lemma length_list_set (l : list R) (k : nat) (v : R) :
  length (list_set l k v) = length l.
Proof.
  revert k. induction l as [|x l IH]; intros [|k]; simpl; auto.
Qed.

(** One step of the spine on a well-shaped runtime: it returns, moves the
    phase to the next stage, counts an epoch when the phase wraps, and
    touches nothing but the spine. *)
Lemma advance_spine_step (r : LatticeRuntime) (g : R) :
  spine_ok r ->
  exists r',
    _advance_spine r g = Ok r'
    /\ spine_ok r'
    /\ spine_phase r' = ((spine_phase r + 1) mod 10)%Z
    /\ epoch_count r'
       = (epoch_count r + (spine_phase r + 1) / 10)%Z
    /\ triads r' = triads r /\ pulse r' = pulse r
    /\ ops_total r' = ops_total r /\ ops_by_domain r' = ops_by_domain r
    /\ domains r' = domains r /\ micro_triads r' = micro_triads r.
Proof.
  intros [Hl Hp]. unfold _advance_spine.
  destruct (py_getitem_in_range (spine r) ((spine_phase r - 1) mod 10))
    as [prev Eprev].
  { rewrite Hl. pose proof (Z.mod_pos_bound (spine_phase r - 1) 10). lia. }
  destruct (py_getitem_in_range (spine r) (spine_phase r)) as [old Eold].
  { rewrite Hl. lia. }
  rewrite Eprev, Eold. unfold py_setitem.
  rewrite py_index_in_range by (rewrite Hl; lia).
  eexists. split; [reflexivity|]. unfold spine_ok.
  cbn [spine spine_phase epoch_count triads pulse ops_total ops_by_domain
       domains micro_triads].
  pose proof (Z.mod_pos_bound (spine_phase r + 1) 10) as Hm.
  split; [split; [now rewrite length_list_set | lia]|].
  split; [reflexivity|]. split; [|repeat split; reflexivity].
  destruct ((spine_phase r + 1) mod 10 =? 0)%Z eqn:E.
  - apply Z.eqb_eq in E.
    assert (H9 : (spine_phase r = 9)%Z)
      by (apply Z.mod_divide in E; [|lia]; destruct E as [k Hk]; lia).
    rewrite H9. reflexivity.
  - apply Z.eqb_neq in E.
    assert ((spine_phase r + 1) / 10 = 0)%Z.
    { apply Z.div_small. split; [lia|].
      destruct (Z.eq_dec (spine_phase r) 9) as [E9|N9]; [|lia].
      rewrite E9 in E. now contradiction E. }
    lia.
Qed.

Lemma advance_spine_all_steps (noises : list R) :
  forall r : LatticeRuntime,
    spine_ok r ->
    exists r',
      advance_spine_all r noises = Ok r'
      /\ spine_ok r'
      /\ spine_phase r'
         = ((spine_phase r + Z.of_nat (length noises)) mod 10)%Z
      /\ epoch_count r'
         = (epoch_count r
            + (spine_phase r + Z.of_nat (length noises)) / 10)%Z.
Proof.
  induction noises as [|g rest IH]; intros r Hok.
  - exists r. destruct Hok as [Hl Hp]. cbn [advance_spine_all length].
    rewrite Z.add_0_r, Z.mod_small, Z.div_small by lia.
    repeat split; auto; lia.
  - destruct (advance_spine_step r g Hok)
      as (r1 & E1 & Hok1 & P1 & C1 & _).
    destruct (IH r1 Hok1) as (r2 & E2 & Hok2 & P2 & C2).
    exists r2. cbn [advance_spine_all]. rewrite E1.
    split; [exact E2|]. split; [exact Hok2|].
    rewrite P2, C2, P1, C1. destruct Hok as [_ Hp].
    replace (Z.of_nat (length (g :: rest)))
      with (1 + Z.of_nat (length rest))%Z by (cbn [length]; lia).
    set (n := Z.of_nat (length rest)). set (i := spine_phase r) in *.
    assert (Hn : (0 <= n)%Z) by (unfold n; lia).
    pose proof (Z.div_mod (i + 1) 10 ltac:(lia)) as D1.
    pose proof (Z.mod_pos_bound (i + 1) 10 ltac:(lia)) as B1.
    set (q1 := ((i + 1) / 10)%Z) in *. set (m1 := ((i + 1) mod 10)%Z) in *.
    replace (i + (1 + n))%Z with ((m1 + n) + q1 * 10)%Z by lia.
    rewrite Z.mod_add, Z.div_add by lia.
    split; [reflexivity | lia].
Qed.

(** C8 (spine cycle closure).  Ten calls of [_advance_spine], whatever the
    noise drawn at stage 6, bring [spine_phase] back to where it started
    and add exactly one to [epoch_count]. *)
Theorem C8_ten_advances_close_the_cycle :
  forall (r : LatticeRuntime) (noises : list R),
    spine_ok r ->
    length noises = 10%nat ->
    exists r',
      advance_spine_all r noises = Ok r'
      /\ spine_phase r' = spine_phase r
      /\ epoch_count r' = (epoch_count r + 1)%Z.
Proof.
  intros r noises Hok Hn.
  destruct (advance_spine_all_steps noises r Hok) as (r' & E & _ & P & C).
  exists r'. split; [exact E|]. destruct Hok as [_ Hp].
  rewrite Hn in P, C. change (Z.of_nat 10) with 10%Z in P, C.
  replace (spine_phase r + 10)%Z with (spine_phase r + 1 * 10)%Z in P, C by lia.
  rewrite Z.mod_add, Z.mod_small in P by lia.
  rewrite Z.div_add, Z.div_small in C by lia.
  split; [exact P | lia].
Qed.

Lemma runtime_1000_spine_ok : spine_ok runtime_1000.
Proof. split; [reflexivity | cbn; lia]. Qed.

Lemma C8_witness :
  exists r',
    advance_spine_all runtime_1000 (repeat 0 10) = Ok r'
    /\ spine_phase r' = spine_phase runtime_1000
    /\ epoch_count r' = (epoch_count runtime_1000 + 1)%Z.
Proof.
  apply (C8_ten_advances_close_the_cycle runtime_1000 (repeat 0 10)).
  - exact runtime_1000_spine_ok.
  - reflexivity.
Defined.

(** ** Dispatching work *)

Lemma dict_get_set_same {V : Type} (d : dict V) (k : string) (v : V) :
  dict_get (dict_set d k v) k = Some v.
Proof.
  induction d as [|[k' v'] d IH]; simpl.
  - now rewrite String.eqb_refl.
  - destruct (String.eqb k' k) eqn:E; simpl; rewrite E; auto.
Qed.

Lemma dict_get_set_other {V : Type} (d : dict V) (k k' : string) (v : V) :
  k' <> k -> dict_get (dict_set d k v) k' = dict_get d k'.
Proof.
  intros N. induction d as [|[k0 v0] d IH]; simpl.
  - destruct (String.eqb k k') eqn:E; [|reflexivity].
    apply String.eqb_eq in E. congruence.
  - destruct (String.eqb k0 k) eqn:E; simpl.
    + apply String.eqb_eq in E. subst k0.
      destruct (String.eqb k k') eqn:E'; [|reflexivity].
      apply String.eqb_eq in E'. congruence.
    + destruct (String.eqb k0 k'); auto.
Qed.

Lemma set_counters_spine_ok (r : LatticeRuntime) (n : Z) (d : dict Z) :
  spine_ok r -> spine_ok (set_counters r n d).
Proof. intros H. exact H. Qed.

(** [op] on a name that neither dictionary of Triads knows, with work that
    returns: the counters are bumped, the spine advances, the work's result
    comes back. *)
Lemma op_unknown_domain {A : Type} (r : LatticeRuntime) (domain : string)
    (res : A) (t0 t1 : Z) (noise : R) :
  spine_ok r ->
  dict_get (micro_triads r) domain = None ->
  dict_get (domains r) domain = None ->
  exists r',
    op r domain (Ok res) t0 t1 noise = (r', Ok res)
    /\ triads r' = triads r
    /\ ops_total r' = (ops_total r + 1)%Z
    /\ spine_phase r' = ((spine_phase r + 1) mod 10)%Z
    /\ ops_by_domain r'
       = dict_set (ops_by_domain r) domain
                  (dict_get0 (ops_by_domain r) domain + 1)%Z.
Proof.
  intros Hok Hm Hd. unfold op.
  set (r1 := set_counters r (ops_total r + 1)%Z
               (dict_set (ops_by_domain r) domain
                         (dict_get0 (ops_by_domain r) domain + 1)%Z)).
  assert (Hok1 : spine_ok r1) by exact Hok.
  destruct (py_getitem_in_range (spine r1) (spine_phase r1)) as [sv Esv].
  { destruct Hok1 as [Hl Hp]. rewrite Hl. lia. }
  rewrite Esv. unfold observe_if_known.
  change (micro_triads r1) with (micro_triads r).
  change (domains r1) with (domains r).
  rewrite Hm, Hd.
  replace (set_triads r1 (triads r1)) with r1 by reflexivity.
  destruct (advance_spine_step r1 noise Hok1)
    as (r2 & E2 & _ & P2 & _ & T2 & _ & O2 & B2 & _).
  rewrite E2. exists r2. split; [reflexivity|].
  rewrite T2, O2, P2, B2. repeat split; reflexivity.
Qed.

(** [op] with work that raises: the counters are bumped and the exception
    leaves [op] at once. *)
Lemma op_work_raises {A : Type} (r : LatticeRuntime) (domain : string)
    (e : exn) (t0 t1 : Z) (noise : R) :
  spine_ok r ->
  op (A := A) r domain (Raise e) t0 t1 noise
  = (set_counters r (ops_total r + 1)%Z
       (dict_set (ops_by_domain r) domain
                 (dict_get0 (ops_by_domain r) domain + 1)%Z),
     Raise e).
Proof.
  intros Hok. unfold op.
  set (r1 := set_counters r (ops_total r + 1)%Z
               (dict_set (ops_by_domain r) domain
                         (dict_get0 (ops_by_domain r) domain + 1)%Z)).
  destruct (py_getitem_in_range (spine r1) (spine_phase r1)) as [sv Esv].
  { destruct Hok as [Hl Hp]. change (spine r1) with (spine r).
    change (spine_phase r1) with (spine_phase r). rewrite Hl. lia. }
  now rewrite Esv.
Qed.

(** C3, amended.  [op] with a name that is not a domain returns the work's
    result unchanged, leaves every Triad as it was, adds one to [ops_total]
    and advances the spine by one stage; in [ops_by_domain] it leaves every
    other entry as it was and counts the call under the unknown name. *)
Theorem C3_unknown_domain_is_counted_but_not_observed :
  forall (A : Type) (r : LatticeRuntime) (domain : string) (res : A)
         (t0 t1 : Z) (noise : R),
    spine_ok r ->
    dict_mem (micro_triads r) domain = false ->
    dict_mem (domains r) domain = false ->
    let out := op r domain (Ok res) t0 t1 noise in
    snd out = Ok res
    /\ triads (fst out) = triads r
    /\ ops_total (fst out) = (ops_total r + 1)%Z
    /\ spine_phase (fst out) = ((spine_phase r + 1) mod 10)%Z
    /\ (forall k, k <> domain ->
          dict_get (ops_by_domain (fst out)) k = dict_get (ops_by_domain r) k)
    /\ dict_get (ops_by_domain (fst out)) domain
       = Some (dict_get0 (ops_by_domain r) domain + 1)%Z.
Proof.
  intros A r domain res t0 t1 noise Hok Hm Hd out.
  assert (Hm' : dict_get (micro_triads r) domain = None).
  { unfold dict_mem in Hm. destruct (dict_get (micro_triads r) domain);
      [discriminate | reflexivity]. }
  assert (Hd' : dict_get (domains r) domain = None).
  { unfold dict_mem in Hd. destruct (dict_get (domains r) domain);
      [discriminate | reflexivity]. }
  destruct (op_unknown_domain r domain res t0 t1 noise Hok Hm' Hd')
    as (r' & E & T & O & P & B).
  unfold out. rewrite E. cbn [fst snd].
  split; [reflexivity|]. split; [exact T|]. split; [exact O|].
  split; [exact P|]. rewrite B. split.
  - intros k Hk. now apply dict_get_set_other.
  - apply dict_get_set_same.
Qed.

Lemma C3_witness :
  let out := op runtime_1000 "nonexistent" (Ok 2%Z) 0 5000 0 in
  snd out = Ok 2%Z
  /\ triads (fst out) = triads runtime_1000
  /\ ops_total (fst out) = (ops_total runtime_1000 + 1)%Z
  /\ spine_phase (fst out) = ((spine_phase runtime_1000 + 1) mod 10)%Z
  /\ (forall k, k <> "nonexistent"%string ->
        dict_get (ops_by_domain (fst out)) k
        = dict_get (ops_by_domain runtime_1000) k)
  /\ dict_get (ops_by_domain (fst out)) "nonexistent"
     = Some (dict_get0 (ops_by_domain runtime_1000) "nonexistent" + 1)%Z.
Proof.
  apply (C3_unknown_domain_is_counted_but_not_observed
           Z runtime_1000 "nonexistent" 2%Z 0 5000 0).
  - exact runtime_1000_spine_ok.
  - reflexivity.
  - reflexivity.
Defined.

(** C3 as stated fails: the call changes [ops_by_domain], which gains an
    entry for the unknown name. *)
Lemma C3_counterexample :
  dict_get (ops_by_domain runtime_1000) "nonexistent" = None
  /\ snd (op runtime_1000 "nonexistent" (Ok 2%Z) 0 5000 0) = Ok 2%Z
  /\ dict_get (ops_by_domain
                 (fst (op runtime_1000 "nonexistent" (Ok 2%Z) 0 5000 0)))
              "nonexistent" = Some 1%Z
  /\ ops_by_domain (fst (op runtime_1000 "nonexistent" (Ok 2%Z) 0 5000 0))
     <> ops_by_domain runtime_1000.
Proof.
  destruct (op_unknown_domain runtime_1000 "nonexistent" 2%Z 0 5000 0
              runtime_1000_spine_ok eq_refl eq_refl)
    as (r' & E & _ & _ & _ & B).
  rewrite E. cbn [fst snd].
  assert (G : dict_get (ops_by_domain r') "nonexistent" = Some 1%Z).
  { rewrite B. apply dict_get_set_same. }
  split; [reflexivity|]. split; [reflexivity|]. split; [exact G|].
  intros Heq. rewrite Heq in G. discriminate G.
Qed.

(** C4, amended.  When the work raises, [op] lets the exception through
    unchanged, having added one to [ops_total] and to the domain's entry of
    [ops_by_domain]; no elapsed time is measured or recorded, so every
    Triad and the spine stay as they were. *)
Theorem C4_failing_work_propagates_and_is_not_recorded :
  forall (A : Type) (r : LatticeRuntime) (domain : string) (e : exn)
         (t0 t1 : Z) (noise : R),
    spine_ok r ->
    let out := op (A := A) r domain (Raise e) t0 t1 noise in
    snd out = Raise e
    /\ triads (fst out) = triads r
    /\ spine (fst out) = spine r
    /\ spine_phase (fst out) = spine_phase r
    /\ ops_total (fst out) = (ops_total r + 1)%Z
    /\ dict_get (ops_by_domain (fst out)) domain
       = Some (dict_get0 (ops_by_domain r) domain + 1)%Z.
Proof.
  intros A r domain e t0 t1 noise Hok out.
  unfold out. rewrite op_work_raises by exact Hok. cbn [fst snd].
  repeat split; try reflexivity.
  cbn [set_counters ops_by_domain]. apply dict_get_set_same.
Qed.

Lemma C4_witness :
  let out := op (A := Z) runtime_1000 "compute" (Raise (UserError "boom"))
                0 5000 0 in
  snd out = Raise (UserError "boom")
  /\ triads (fst out) = triads runtime_1000
  /\ spine (fst out) = spine runtime_1000
  /\ spine_phase (fst out) = spine_phase runtime_1000
  /\ ops_total (fst out) = (ops_total runtime_1000 + 1)%Z
  /\ dict_get (ops_by_domain (fst out)) "compute"
     = Some (dict_get0 (ops_by_domain runtime_1000) "compute" + 1)%Z.
Proof.
  apply (C4_failing_work_propagates_and_is_not_recorded
           Z runtime_1000 "compute" (UserError "boom") 0 5000 0).
  exact runtime_1000_spine_ok.
Defined.

(** C4 as stated fails: a failing call on the domain [compute] of a fresh
    runtime reaches the caller with no measurement recorded: every Triad
    still has zero observations. *)
Lemma C4_counterexample :
  dict_mem (micro_triads runtime_1000) "compute" = true
  /\ dict_mem (domains runtime_1000) "compute" = true
  /\ snd (op (A := Z) runtime_1000 "compute" (Raise (UserError "boom"))
             0 5000 0)
     = Raise (UserError "boom")
  /\ Forall (fun t => count t = 0%Z)
            (triads (fst (op (A := Z) runtime_1000 "compute"
                             (Raise (UserError "boom")) 0 5000 0))).
Proof.
  rewrite op_work_raises by exact runtime_1000_spine_ok. cbn [fst snd].
  split; [reflexivity|]. split; [reflexivity|]. split; [reflexivity|].
  cbn [set_counters triads].
  repeat (apply Forall_cons; [reflexivity|]). apply Forall_nil.
Qed.

(** ** Construction *)








(** ** Scenarios *)

Lemma LatticeRuntime_init_1000 : LatticeRuntime_init 1000 = Ok runtime_1000.
Proof. unfold LatticeRuntime_init. now rewrite Pulse_init_1000. Qed.

(** The specification's scenario: one call of [op] on a known domain of a
    fresh runtime returns the work's result, is counted once overall and
    once for its domain, moves the spine from stage 0 to stage 1, and is
    observed once by the domain's two Triads. *)
Lemma op_compute_once :
  let out := op runtime_1000 "compute" (Ok 2%Z) 0 5000 0 in
  snd out = Ok 2%Z
  /\ ops_total (fst out) = 1%Z
  /\ dict_get (ops_by_domain (fst out)) "compute" = Some 1%Z
  /\ spine_phase runtime_1000 = 0%Z
  /\ spine_phase (fst out) = 1%Z
  /\ map count (triads (fst out)) = [0; 0; 1; 0; 0; 0; 1; 0; 0; 0]%Z
  /\ map name (triads (fst out))
     = ["SYSTEM"; "EPOCH"; "COMPUTE"; "MEMORY"; "IO"; "NET";
        "compute_micro"; "memory_micro"; "io_micro"; "net_micro"]%string
  /\ map parent (triads (fst out))
     = [None; Some 0; Some 1; Some 1; Some 1; Some 1;
        Some 2; Some 3; Some 4; Some 5]%nat.
Proof.
  lazy zeta. repeat split; vm_compute; reflexivity.
Qed.

(** One [tick] of a fresh runtime: the Pulse fires, the spine moves to
    stage 1 and the epoch Triad observes the Pulse's coherence. *)
Lemma tick_once :
  let out := tick runtime_1000 1000000 0 in
  is_ok (snd out) = true
  /\ fire_count (pulse (fst out)) = 1%Z
  /\ spine_phase (fst out) = 1%Z
  /\ map count (triads (fst out)) = [0; 1; 0; 0; 0; 0; 0; 0; 0; 0]%Z.
Proof.
  lazy zeta. repeat split; vm_compute; reflexivity.
Qed.

(** The specification's scenario: three observations are too few, the
    score is the default. *)
Lemma three_observations_default :
  own_s_star (triad_after [1; 1; 1]) = T_STAR
  /\ macro_s_star (triad_after [1; 1; 1]) = T_STAR.
Proof. split; reflexivity. Qed.

(** * Further properties *)

(** ** The bounded buffers *)

Lemma deque_append_py_last {A : Type} (n : nat) (d : list A) (x : A) :
  deque_append n d x = py_last n (d ++ [x]).
Proof. reflexivity. Qed.

Lemma py_last_all {A : Type} (n : nat) (l : list A) :
  (length l <= n)%nat -> py_last n l = l.
Proof.
  intros H. unfold py_last.
  replace (length l - n)%nat with 0%nat by lia. reflexivity.
Qed.

(** Trimming to the last [n] before appending loses nothing that the
    last [n] after appending would keep. *)
Lemma py_last_app {A : Type} (n : nat) (l m : list A) :
  py_last n (py_last n l ++ m) = py_last n (l ++ m).
Proof.
  destruct (le_lt_dec (length l) n) as [H|H].
  - now rewrite (py_last_all n l H).
  - unfold py_last at 1 3. rewrite !length_app.
    assert (L : length (py_last n l) = n) by (apply py_last_length; lia).
    rewrite L.
    replace (n + length m - n)%nat with (length m) by lia.
    replace (length l + length m - n)%nat
      with (length m + (length l - n))%nat by lia.
    rewrite <- skipn_skipn. f_equal.
    rewrite skipn_app.
    replace (length l - n - length l)%nat with 0%nat by lia.
    reflexivity.
Qed.

Lemma observe_many_buffer (vs : list R) :
  forall t : Triad,
    (length (_micro_buf t) <= 64)%nat ->
    _micro_buf (observe_many t vs) = py_last 64 (_micro_buf t ++ vs)
    /\ count (observe_many t vs) = (count t + Z.of_nat (length vs))%Z.
Proof.
  induction vs as [|v vs IH]; intros t Hb.
  - cbn [observe_many fold_left length]. rewrite app_nil_r.
    split; [|lia]. symmetry. now apply py_last_all.
  - change (observe_many t (v :: vs)) with (observe_many (observe_local t v) vs).
    destruct (IH (observe_local t v)) as [B C].
    { unfold observe_local. cbn [_micro_buf].
      rewrite deque_append_length. lia. }
    rewrite B, C.
    unfold observe_local. cbn [_micro_buf count].
    rewrite deque_append_py_last. split.
    + rewrite py_last_app, <- app_assoc. reflexivity.
    + cbn [length]. lia.
Qed.

Lemma observe_many_wf (vs : list R) :
  forall t : Triad, triad_wf t -> triad_wf (observe_many t vs).
Proof.
  induction vs as [|v vs IH]; intros t H; [exact H|].
  apply (IH (observe_local t v)). now apply observe_local_wf.
Qed.

(** X1.  A Triad's buffer is a sliding window: after any run of
    observations it holds the last 64 values it was given, oldest first,
    [_micro_len] is their number and [count] has counted every one. *)
Theorem X1_buffer_holds_last_64_observations :
  forall (t : Triad) (vs : list R),
    triad_wf t ->
    let t' := observe_many t vs in
    _micro_buf t' = py_last 64 (_micro_buf t ++ vs)
    /\ _micro_len t' = Z.of_nat (Nat.min (length (_micro_buf t ++ vs)) 64)
    /\ (length (_micro_buf t') <= 64)%nat
    /\ count t' = (count t + Z.of_nat (length vs))%Z.
Proof.
  intros t vs Hwf t'.
  destruct (observe_many_wf vs t Hwf) as (L & Hb & _). fold t' in L, Hb.
  destruct Hwf as (_ & Hb0 & _).
  destruct (observe_many_buffer vs t Hb0) as [B C]. fold t' in B, C.
  split; [exact B|]. split; [|split; [exact Hb | exact C]].
  rewrite L, B. unfold py_last. rewrite length_skipn. lia.
Qed.

Lemma X1_witness :
  let t' := observe_many (Triad_init "leaf" None) [3; 1; 2] in
  _micro_buf t' = [3; 1; 2]
  /\ _micro_len t' = 3%Z
  /\ (length (_micro_buf t') <= 64)%nat
  /\ count t' = 3%Z.
Proof.
  apply (X1_buffer_holds_last_64_observations (Triad_init "leaf" None) [3; 1; 2]).
  unfold triad_wf, Triad_init. cbn [_micro_len _micro_buf self_emv length].
  split; [reflexivity|]. split; [lia | lra].
Defined.

(** ** The moving statistics of a Triad *)

Lemma observe_local_within (t : Triad) (v lo hi : R) :
  (1 <= count t)%Z ->
  lo <= v <= hi ->
  lo <= self_ema t <= hi ->
  0 <= self_emv t <= (hi - lo) ^ 2 ->
  (1 <= count (observe_local t v))%Z
  /\ lo <= self_ema (observe_local t v) <= hi
  /\ 0 <= self_emv (observe_local t v) <= (hi - lo) ^ 2.
Proof.
  intros Hc Hv He Hm. unfold observe_local. cbn [count self_ema self_emv].
  assert (F : (count t + 1 =? 1)%Z = false) by (apply Z.eqb_neq; lia).
  rewrite F. split; [lia|].
  set (e' := (1 - SIGMA) * v + SIGMA * self_ema t).
  assert (He' : lo <= e' <= hi) by (unfold e', SIGMA; lra).
  split; [exact He'|].
  assert (Hsq : 0 <= (v - e') ^ 2 <= (hi - lo) ^ 2).
  { split; [apply pow2_ge_0|].
    assert (0 <= (hi - lo - (v - e')) * (hi - lo + (v - e'))) by
      (apply Rmult_le_pos; lra).
    nra. }
  unfold SIGMA. lra.
Qed.

Lemma observe_many_within (vs : list R) (lo hi : R) :
  Forall (fun x => lo <= x <= hi) vs ->
  forall u : Triad,
    (1 <= count u)%Z ->
    lo <= self_ema u <= hi ->
    0 <= self_emv u <= (hi - lo) ^ 2 ->
    lo <= self_ema (observe_many u vs) <= hi
    /\ 0 <= self_emv (observe_many u vs) <= (hi - lo) ^ 2.
Proof.
  induction 1 as [|x rest Hx _ IH]; intros u Hc He Hm.
  - split; assumption.
  - change (observe_many u (x :: rest))
      with (observe_many (observe_local u x) rest).
    destruct (observe_local_within u x lo hi Hc Hx He Hm) as (A & B & D).
    now apply IH.
Qed.

(** X2.  The moving average of a fresh Triad stays between the smallest
    and the largest value it has observed, and its moving variance between
    zero and the square of their spread. *)
Theorem X2_statistics_stay_within_the_observed_range :
  forall (nm : string) (par : option nat) (v : R) (vs : list R) (lo hi : R),
    Forall (fun x => lo <= x <= hi) (v :: vs) ->
    let t := observe_many (Triad_init nm par) (v :: vs) in
    lo <= self_ema t <= hi
    /\ 0 <= self_emv t <= (hi - lo) ^ 2.
Proof.
  intros nm par v vs lo hi Hall t.
  inversion Hall as [|? ? Hv Hvs]; subst.
  destruct (observe_local_first (Triad_init nm par) v eq_refl) as [E V].
  unfold t. change (observe_many (Triad_init nm par) (v :: vs))
    with (observe_many (observe_local (Triad_init nm par) v) vs).
  apply observe_many_within; [exact Hvs | cbn; lia | rewrite E; exact Hv |].
  rewrite V. split; [lra | apply pow2_ge_0].
Qed.

Lemma X2_witness :
  let t := observe_many (Triad_init "leaf" None) [2; 5; 3] in
  2 <= self_ema t <= 5 /\ 0 <= self_emv t <= (5 - 2) ^ 2.
Proof.
  apply (X2_statistics_stay_within_the_observed_range
           "leaf" None 2 [5; 3] 2 5).
  repeat constructor; lra.
Defined.

(** ** The alignment and the own score *)

Lemma code_alignment_values (a b c d : R) :
  (monotonic4 a b c d = true /\ code_alignment a b c d = 1)
  \/ (monotonic4 a b c d = false
      /\ (code_alignment a b c d = 2 / 3 \/ code_alignment a b c d = 1 / 3)).
Proof.
  unfold code_alignment.
  destruct (monotonic4 a b c d) eqn:M; [left; auto | right].
  split; [reflexivity|].
  unfold monotonic4 in M. unfold agreements4.
  rewrite <- !py_ge_diff in M.
  destruct (py_ge (b - a) 0) eqn:S1, (py_ge (c - b) 0) eqn:S2,
           (py_ge (d - c) 0) eqn:S3; cbn [Bool.eqb Nat.add INR];
    try discriminate M;
    try (left; simpl; lra); try (right; simpl; lra).
  exfalso.
  apply py_ge_false in S1, S2, S3.
  assert (G1 : py_ge a b = true) by (apply py_ge_true; lra).
  assert (G2 : py_ge b c = true) by (apply py_ge_true; lra).
  assert (G3 : py_ge c d = true) by (apply py_ge_true; lra).
  rewrite G1, G2, G3 in M. cbn in M. discriminate M.
Qed.

Lemma monotonic4_true (a b c d : R) :
  monotonic4 a b c d = true
  <-> (a <= b /\ b <= c /\ c <= d) \/ (a >= b /\ b >= c /\ c >= d).
Proof.
  unfold monotonic4. rewrite orb_true_iff, !andb_true_iff.
  rewrite !py_le_true, !py_ge_true. tauto.
Qed.

(** X3.  With four or more samples in the buffer the alignment of
    [observe] is 1, 2/3 or 1/3, never less, and it is 1 exactly when the
    last four samples are all non-decreasing or all non-increasing. *)
Theorem X3_alignment_is_one_two_thirds_or_one_third :
  forall buf : list R,
    (4 <= length buf)%nat ->
    exists a b c d,
      py_last 4 buf = [a; b; c; d]
      /\ (alignment_of buf = 1 \/ alignment_of buf = 2 / 3
          \/ alignment_of buf = 1 / 3)
      /\ (alignment_of buf = 1
          <-> (a <= b /\ b <= c /\ c <= d) \/ (a >= b /\ b >= c /\ c >= d)).
Proof.
  intros buf H. destruct (py_last4 buf H) as (a & b & c & d & E).
  exists a, b, c, d. split; [exact E|].
  rewrite (alignment_of_last4 buf a b c d E H).
  rewrite <- monotonic4_true.
  destruct (code_alignment_values a b c d) as [[M V] | [M [V | V]]];
    rewrite V, M; split; auto; split; intros; try reflexivity;
    try discriminate; lra.
Qed.

Lemma X3_witness :
  exists a b c d,
    py_last 4 [7; 1; 2; 1; 2] = [a; b; c; d]
    /\ (alignment_of [7; 1; 2; 1; 2] = 1 \/ alignment_of [7; 1; 2; 1; 2] = 2 / 3
        \/ alignment_of [7; 1; 2; 1; 2] = 1 / 3)
    /\ (alignment_of [7; 1; 2; 1; 2] = 1
        <-> (a <= b /\ b <= c /\ c <= d) \/ (a >= b /\ b >= c /\ c >= d)).
Proof.
  apply (X3_alignment_is_one_two_thirds_or_one_third [7; 1; 2; 1; 2]).
  simpl. lia.
Defined.

Lemma alignment_of_values (buf : list R) :
  (4 <= length buf)%nat ->
  alignment_of buf = 1 \/ alignment_of buf = 2 / 3 \/ alignment_of buf = 1 / 3.
Proof.
  intros H. destruct (py_last4 buf H) as (a & b & c & d & E).
  rewrite (alignment_of_last4 buf a b c d E H).
  destruct (code_alignment_values a b c d) as [[_ V] | [_ [V | V]]]; auto.
Qed.

(** X4.  The own score of [observe] is positive and never above
    [FACTOR] = 0.982081, whatever the Triad has seen. *)
Theorem X4_own_score_is_positive_and_at_most_FACTOR :
  forall t : Triad, 0 < own_s_star t <= 982081 / 1000000.
Proof.
  intros t. unfold own_s_star.
  destruct (4 <=? _micro_len t)%Z; [|unfold T_STAR; lra].
  set (cv := if py_gt (self_ema t) 0
             then sqrt (self_emv t) / self_ema t else 1).
  assert (Hcv : 0 <= cv).
  { unfold cv. destruct (py_gt (self_ema t) 0) eqn:G; [|lra].
    apply cv_nonneg. now apply py_gt_true. }
  pose proof (vitality_bounds cv Hcv) as [V0 V1].
  assert (HA : 1 / 3 <= alignment_of (_micro_buf t) <= 1).
  { destruct (le_lt_dec 4 (length (_micro_buf t))) as [H|H].
    - destruct (alignment_of_values (_micro_buf t) H) as [E|[E|E]];
        rewrite E; lra.
    - unfold alignment_of. apply Nat.leb_gt in H. rewrite H. lra. }
  unfold s_star. rewrite FACTOR_value. nra.
Qed.

(** ** A steady signal *)

Lemma py_last_repeat {A : Type} (c : A) (m n : nat) :
  (m <= n)%nat -> py_last m (repeat c n) = repeat c m.
Proof.
  intros H. unfold py_last. rewrite repeat_length.
  replace n with ((n - m) + m)%nat at 2 by lia.
  rewrite repeat_app, skipn_app, repeat_length.
  rewrite skipn_all2 by (rewrite repeat_length; lia).
  replace (n - m - (n - m))%nat with 0%nat by lia. reflexivity.
Qed.

Lemma py_last_py_last {A : Type} (m n : nat) (l : list A) :
  (m <= n)%nat -> py_last m (py_last n l) = py_last m l.
Proof.
  intros H. unfold py_last. rewrite length_skipn, skipn_skipn. f_equal. lia.
Qed.

Lemma observe_many_steady (c : R) (n : nat) :
  forall t : Triad,
    (1 <= count t)%Z -> self_ema t = c -> self_emv t = 0 ->
    self_ema (observe_many t (repeat c n)) = c
    /\ self_emv (observe_many t (repeat c n)) = 0.
Proof.
  induction n as [|n IH]; intros t Hc E V; [split; assumption|].
  change (observe_many t (repeat c (S n)))
    with (observe_many (observe_local t c) (repeat c n)).
  destruct (observe_local_steady t c Hc E V) as [E' V'].
  apply IH; auto. unfold observe_local. cbn [count]. lia.
Qed.

Lemma observe_local_leaf (t : Triad) (v : R) :
  _child_coherences t = [] ->
  _child_coherences (observe_local t v) = []
  /\ macro_s_star (observe_local t v) = own_s_star (observe_local t v).
Proof.
  intros H. unfold observe_local. cbn [_child_coherences macro_s_star].
  rewrite H. split; reflexivity.
Qed.

(** A Triad that no child has reported to carries its own score. *)
Lemma observe_many_leaf (vs : list R) :
  forall t : Triad,
    _child_coherences t = [] ->
    macro_s_star t = own_s_star t ->
    macro_s_star (observe_many t vs) = own_s_star (observe_many t vs).
Proof.
  induction vs as [|v vs IH]; intros t H M; [exact M|].
  change (observe_many t (v :: vs)) with (observe_many (observe_local t v) vs).
  destruct (observe_local_leaf t v H) as [H' M']. now apply IH.
Qed.

Lemma Triad_init_wf (nm : string) (par : option nat) :
  triad_wf (Triad_init nm par).
Proof.
  unfold triad_wf, Triad_init. cbn [_micro_len _micro_buf self_emv length].
  split; [reflexivity|]. split; [lia | lra].
Qed.

(** X5.  A steady positive signal gives the highest score there is: a
    fresh Triad without children that observes the same positive value
    four times or more has [macro_s_star] = 0.982081 and is CRYSTALLINE. *)
Theorem X5_steady_signal_scores_FACTOR :
  forall (nm : string) (par : option nat) (c : R) (n : nat),
    0 < c ->
    (4 <= n)%nat ->
    let t := observe_many (Triad_init nm par) (repeat c n) in
    own_s_star t = 982081 / 1000000
    /\ macro_s_star t = 982081 / 1000000
    /\ health t = "CRYSTALLINE"%string.
Proof.
  intros nm par c n Hc Hn t.
  assert (Hwf : triad_wf t) by (apply observe_many_wf, Triad_init_wf).
  destruct Hwf as (L & Hb & _).
  destruct (observe_many_buffer (repeat c n) (Triad_init nm par)) as [B _];
    [cbn; lia|]. fold t in B. cbn [Triad_init _micro_buf app] in B.
  assert (B4 : py_last 4 (_micro_buf t) = [c; c; c; c]).
  { rewrite B, py_last_py_last by lia. now rewrite py_last_repeat by lia. }
  assert (Hlen : (4 <= length (_micro_buf t))%nat).
  { rewrite B. unfold py_last. rewrite length_skipn, repeat_length. lia. }
  assert (ES : self_ema t = c /\ self_emv t = 0).
  { unfold t. destruct n as [|m]; [lia|].
    change (observe_many (Triad_init nm par) (repeat c (S m)))
      with (observe_many (observe_local (Triad_init nm par) c) (repeat c m)).
    destruct (observe_local_first (Triad_init nm par) c eq_refl) as [E V].
    apply observe_many_steady; auto. cbn. lia. }
  destruct ES as [E V].
  assert (Hown : own_s_star t = 982081 / 1000000).
  { rewrite (own_s_star_code_own_score t c c c c); [|lia|exact Hlen|exact B4].
    rewrite E, V. unfold code_own_score.
    rewrite code_alignment_const, sqrt_0.
    replace (py_gt c 0) with true by (symmetry; apply py_gt_true; lra).
    replace (0 / c) with 0 by (field; lra).
    unfold SIGMA, SIGMA_STAR. rewrite clamp_id; lra. }
  assert (Hmacro : macro_s_star t = 982081 / 1000000).
  { destruct n as [|m]; [lia|].
    unfold t in *.
    change (observe_many (Triad_init nm par) (repeat c (S m)))
      with (observe_many (observe_local (Triad_init nm par) c) (repeat c m))
      in *.
    destruct (observe_local_leaf (Triad_init nm par) c eq_refl) as [H0 M0].
    rewrite (observe_many_leaf _ _ H0 M0). exact Hown. }
  split; [exact Hown|]. split; [exact Hmacro|].
  unfold health. rewrite Hmacro.
  replace (py_ge (982081 / 1000000) (95 / 100)) with true
    by (symmetry; apply py_ge_true; lra).
  reflexivity.
Qed.

Lemma X5_witness :
  let t := observe_many (Triad_init "compute_micro" (Some 2%nat)) (repeat 12 5) in
  own_s_star t = 982081 / 1000000
  /\ macro_s_star t = 982081 / 1000000
  /\ health t = "CRYSTALLINE"%string.
Proof.
  apply (X5_steady_signal_scores_FACTOR "compute_micro" (Some 2%nat) 12 5).
  - lra.
  - lia.
Defined.

(** ** Health *)

Ltac health_cases :=
  repeat match goal with
         | |- context [if py_ge ?a ?b then _ else _] =>
             let G := fresh "G" in
             destruct (py_ge a b) eqn:G;
             [apply py_ge_true in G | apply py_ge_false in G];
             cbv iota
         end.

(** X6.  The label of [health] never gets worse when the score gets
    better. *)
Theorem X6_health_is_monotone_in_the_score :
  forall t1 t2 : Triad,
    macro_s_star t1 <= macro_s_star t2 ->
    (health_rank (health t1) <= health_rank (health t2))%nat.
Proof.
  intros t1 t2 H. unfold health, T_STAR. cbv zeta.
  health_cases; try (exfalso; lra); vm_compute; lia.
Qed.

Lemma X6_witness :
  Nat.le (health_rank (health (Triad_init "EPOCH" None)))
         (health_rank (health (triad_after [1; 1; 1; 1]))).
Proof.
  apply (X6_health_is_monotone_in_the_score
           (Triad_init "EPOCH" None) (triad_after [1; 1; 1; 1])).
  change (macro_s_star (Triad_init "EPOCH" None)) with T_STAR.
  pose proof (in01_T_STAR) as _.
  assert (M : macro_s_star (triad_after [1; 1; 1; 1])
              = own_s_star (triad_after [1; 1; 1; 1])) by reflexivity.
  rewrite M, own_s_star_const4. unfold code_own_score.
  rewrite code_alignment_const, sqrt_0.
  replace (py_gt 1 0) with true by (symmetry; apply py_gt_true; lra).
  unfold SIGMA, SIGMA_STAR, T_STAR. rewrite clamp_id; lra.
Defined.

(** ** What a report does to the parent *)

Lemma own_s_on_report_at_most_T_STAR (t : Triad) :
  0 < own_s_on_report t <= T_STAR.
Proof.
  unfold own_s_on_report, T_STAR.
  destruct (py_gt (self_ema t) 0) eqn:G; cbn [andb]; [|lra].
  destruct (4 <=? _micro_len t)%Z; [|lra].
  apply py_gt_true in G.
  pose proof (vitality_bounds _ (cv_nonneg (self_emv t) _ G)) as [V0 V1].
  unfold s_star. rewrite FACTOR_value. nra.
Qed.

Lemma receive_local_macro_cap (t : Triad) (nm : string) (s : R) :
  Forall in01 (dict_values (_child_coherences t)) -> in01 s ->
  macro_s_star (receive_local t nm s) <= 857 / 1000.
Proof.
  intros Hc Hs. unfold receive_local. cbn [macro_s_star].
  rewrite blend_dict_set.
  set (vals := dict_values (dict_set (_child_coherences t) nm s)).
  assert (Hv : Forall in01 vals) by now apply dict_set_values_Forall.
  assert (Hn : 0 < INR (length vals)).
  { apply lt_0_INR. unfold vals, dict_values. rewrite length_map.
    destruct (dict_set (_child_coherences t) nm s) eqn:E;
      [now apply dict_set_nonempty in E | simpl; lia]. }
  pose proof (py_sum_bounds vals Hv) as [_ H1].
  assert (Hm : py_sum vals / INR (length vals) <= 1).
  { apply (Rmult_le_reg_r (INR (length vals))); [lra|].
    unfold Rdiv. rewrite Rmult_assoc, Rinv_l; lra. }
  pose proof (own_s_on_report_at_most_T_STAR t) as [_ Ho].
  unfold T_STAR in Ho. lra.
Qed.

(** X7.  A child's report caps its parent: right after an observation on
    a Triad, its parent's [macro_s_star] is at most 0.857, so the parent's
    health is COHERENT at best, never OPTIMAL or CRYSTALLINE. *)
Theorem X7_parent_is_at_best_coherent_after_a_report :
  forall (a : Arena) (c p : nat) (v : R) (tc tp : Triad),
    arena_ok a ->
    nth_error a c = Some tc -> parent tc = Some p -> nth_error a p = Some tp ->
    exists a' res tp',
      observe a c v = Some (a', res)
      /\ nth_error a' p = Some tp'
      /\ macro_s_star tp' <= 857 / 1000
      /\ (health_rank (health tp') <= 4)%nat.
Proof.
  intros a c p v tc tp Ha Ec Ep Etp.
  destruct (observe_reports_to_parent a c p v tc tp Ha Ec Ep Etp)
    as (a' & res & E & _ & _ & Ep').
  exists a', res, (receive_local tp (name tc) (macro_s_star (observe_local tc v))).
  split; [exact E|]. split; [exact Ep'|].
  assert (Hcap : macro_s_star (receive_local tp (name tc)
                                 (macro_s_star (observe_local tc v)))
                 <= 857 / 1000).
  { apply receive_local_macro_cap.
    - now destruct (Ha _ _ Etp) as (_ & _ & Hc & _).
    - pose proof (observe_local_ok c tc v (Ha _ _ Ec)) as (_ & Hm & _).
      exact Hm. }
  split; [exact Hcap|].
  revert Hcap. unfold health, T_STAR. cbv zeta.
  generalize (macro_s_star (receive_local tp (name tc)
                              (macro_s_star (observe_local tc v)))).
  intros s Hcap.
  health_cases; try (exfalso; lra); vm_compute; lia.
Qed.

Lemma X7_witness :
  exists a' res tp',
    observe (triads runtime_1000) 6 5 = Some (a', res)
    /\ nth_error a' 2 = Some tp'
    /\ macro_s_star tp' <= 857 / 1000
    /\ (health_rank (health tp') <= 4)%nat.
Proof.
  apply (X7_parent_is_at_best_coherent_after_a_report
           (triads runtime_1000) 6 2 5
           (mkTriad "compute_micro" [] 0 0 0 T_STAR 0 (Some 2%nat) [] [])
           (mkTriad "COMPUTE" [] 0 0 0 T_STAR 0 (Some 1%nat) [6%nat] [])).
  - apply build_lattice_arena_ok.
  - unfold runtime_1000. rewrite build_lattice_triads. reflexivity.
  - reflexivity.
  - unfold runtime_1000. rewrite build_lattice_triads. reflexivity.
Defined.

(** ** What an observation leaves alone *)

Lemma same_observations_refl (t : Triad) : same_observations t t.
Proof. unfold same_observations. repeat split; reflexivity. Qed.

Lemma same_observations_trans (t u w : Triad) :
  same_observations t u -> same_observations u w -> same_observations t w.
Proof.
  unfold same_observations.
  intros (A1 & A2 & A3 & A4 & A5 & A6 & A7 & A8)
         (B1 & B2 & B3 & B4 & B5 & B6 & B7 & B8).
  repeat split; congruence.
Qed.

Lemma same_observations_receive_local (t : Triad) (nm : string) (s : R) :
  same_observations t (receive_local t nm s).
Proof. unfold same_observations. repeat split; reflexivity. Qed.

Lemma arena_set_same_observations (a : Arena) (id : nat) (t t' : Triad) :
  nth_error a id = Some t -> same_observations t t' ->
  forall j u, nth_error a j = Some u ->
    exists u', nth_error (arena_set a id t') j = Some u'
               /\ same_observations u u'.
Proof.
  intros E S j u Ej. rewrite nth_error_arena_set.
  destruct (Nat.eqb id j) eqn:Q.
  - apply Nat.eqb_eq in Q. subst j. rewrite Ej.
    exists t'. split; [reflexivity|]. congruence.
  - exists u. split; [exact Ej | apply same_observations_refl].
Qed.

(** A chain of reports changes scores only. *)
Lemma receive_child_coherence_same_observations (fuel : nat) :
  forall (a a' : Arena) (id : nat) (nm : string) (s : R),
    _receive_child_coherence fuel a id nm s = Some a' ->
    forall j u, nth_error a j = Some u ->
      exists u', nth_error a' j = Some u' /\ same_observations u u'.
Proof.
  induction fuel as [|f IH]; intros a a' id nm s R j u Ej;
    cbn [_receive_child_coherence] in R;
    destruct (nth_error a id) as [t|] eqn:E; try discriminate;
    cbn [receive_local parent name macro_s_star] in R;
    pose proof (arena_set_same_observations a id t
                  (receive_local t nm s) E
                  (same_observations_receive_local t nm s) j u Ej)
      as (u1 & Eu1 & S1);
    destruct (parent t) as [p|]; try discriminate.
  - inversion R; subst a'. exists u1. auto.
  - destruct (IH _ _ _ _ _ R j u1 Eu1) as (u2 & Eu2 & S2).
    exists u2. split; [exact Eu2|].
    now apply (same_observations_trans u u1 u2).
  - inversion R; subst a'. exists u1. auto.
Qed.

Lemma observe_frame :
  forall (a : Arena) (id : nat) (v : R) (t : Triad),
    arena_ok a ->
    nth_error a id = Some t ->
    exists a' res,
      observe a id v = Some (a', res)
      /\ nth_error a' id = Some (observe_local t v)
      /\ (forall j u, j <> id -> nth_error a j = Some u ->
            exists u', nth_error a' j = Some u' /\ same_observations u u').
Proof.
  intros a id v t Ha E.
  destruct (observe_ok a id v t Ha E) as (a' & res & Eo & _ & _).
  exists a', res. split; [exact Eo|].
  assert (Hset : forall j u, j <> id -> nth_error a j = Some u ->
            nth_error (arena_set a id (observe_local t v)) j = Some u).
  { intros j u Hj Ej. rewrite nth_error_arena_set.
    destruct (Nat.eqb id j) eqn:Q; [apply Nat.eqb_eq in Q; congruence | exact Ej]. }
  assert (Hid : nth_error (arena_set a id (observe_local t v)) id
                = Some (observe_local t v))
    by (rewrite nth_error_arena_set, Nat.eqb_refl, E; reflexivity).
  destruct (parent t) as [p|] eqn:Ep.
  - pose proof (Ha _ _ E) as (Hp & _). specialize (Hp _ Ep).
    destruct (nth_error a p) as [tp|] eqn:Etp;
      [|apply nth_error_None in Etp;
        assert (id < length a)%nat by (apply nth_error_Some; congruence); lia].
    destruct (observe_reports_to_parent a id p v t tp Ha E Ep Etp)
      as (a2 & r2 & E2 & _ & Eid & _).
    rewrite Eo in E2. inversion E2; subst a2 r2.
    split; [exact Eid|].
    intros j u Hj Ej.
    unfold observe in Eo. rewrite E in Eo.
    change (parent (observe_local t v)) with (parent t) in Eo.
    rewrite Ep in Eo.
    destruct (_receive_child_coherence _ _ p _ _) as [a3|] eqn:R;
      [|discriminate].
    inversion Eo; subst a3.
    apply (receive_child_coherence_same_observations _ _ _ _ _ _ R j u).
    now apply Hset.
  - unfold observe in Eo. rewrite E in Eo.
    change (parent (observe_local t v)) with (parent t) in Eo.
    rewrite Ep in Eo. inversion Eo; subst a'.
    split; [exact Hid|].
    intros j u Hj Ej. exists u.
    split; [now apply Hset | apply same_observations_refl].
Qed.

(** X8.  An observation on one Triad is that Triad's alone: it becomes
    what [observe] computes, and every other Triad of the tree keeps its
    name, samples, statistics, count and links; only scores move. *)
Theorem X8_observation_touches_no_other_triads_samples :
  forall (a : Arena) (id : nat) (v : R) (t : Triad),
    arena_ok a ->
    nth_error a id = Some t ->
    exists a' res,
      observe a id v = Some (a', res)
      /\ nth_error a' id = Some (observe_local t v)
      /\ (forall j u, j <> id -> nth_error a j = Some u ->
            exists u', nth_error a' j = Some u' /\ same_observations u u').
Proof. exact observe_frame. Qed.

Lemma X8_witness :
  exists a' res,
    observe (triads runtime_1000) 6 5 = Some (a', res)
    /\ nth_error a' 6
       = Some (observe_local
                 (mkTriad "compute_micro" [] 0 0 0 T_STAR 0 (Some 2%nat) [] [])
                 5)
    /\ (forall j u, j <> 6%nat -> nth_error (triads runtime_1000) j = Some u ->
          exists u', nth_error a' j = Some u' /\ same_observations u u').
Proof.
  apply (X8_observation_touches_no_other_triads_samples
           (triads runtime_1000) 6 5
           (mkTriad "compute_micro" [] 0 0 0 T_STAR 0 (Some 2%nat) [] [])).
  - apply build_lattice_arena_ok.
  - unfold runtime_1000. rewrite build_lattice_triads. reflexivity.
Defined.

(** ** The Pulse over a run of calls *)

(** What every [wait] does to the history, returned or raised. *)
Lemma wait_history (p : Pulse) (x : Z) :
  _history (fst (wait p x)) = deque_append 256 (_history p) x
  /\ _hist_len (fst (wait p x)) = Z.min (_hist_len p + 1) 256.
Proof.
  unfold wait.
  destruct (16 <=? _)%Z; [|unfold advance_phase; pulse_simpl; auto].
  destruct (py_div _ (IZR (target_ns p))) as [q1|e1]; [|pulse_simpl; auto].
  destruct (py_div 1 (1 + q1)) as [q2|e2]; [|pulse_simpl; auto].
  pulse_simpl. destruct (py_ge _ T_STAR && negb (lock_achieved p)).
  - destruct (py_div 1000000000 _); unfold advance_phase; pulse_simpl; auto.
  - unfold advance_phase; pulse_simpl; auto.
Qed.

Lemma wait_all_history (clock : list Z) :
  forall p : Pulse,
    (length (_history p) <= 256)%nat ->
    _hist_len p = Z.of_nat (length (_history p)) ->
    _history (wait_all p clock) = py_last 256 (_history p ++ clock)
    /\ _hist_len (wait_all p clock)
       = Z.of_nat (length (_history (wait_all p clock))).
Proof.
  induction clock as [|x rest IH]; intros p Hb Hl.
  - cbn [wait_all]. rewrite app_nil_r. split; [|exact Hl].
    symmetry. now apply py_last_all.
  - cbn [wait_all]. destruct (wait_history p x) as [H L].
    destruct (IH (fst (wait p x))) as [H' L'].
    + rewrite H, deque_append_length. lia.
    + rewrite L, H, deque_append_length, Hl. lia.
    + split; [|exact L'].
      rewrite H', H, deque_append_py_last, py_last_app, <- app_assoc.
      reflexivity.
Qed.

(** X9.  The history of a Pulse is a sliding window over the clock: after
    any run of [wait] calls, the ones that raised included, it holds the
    last 256 readings, oldest first, and [_hist_len] is their number. *)
Theorem X9_history_holds_last_256_readings :
  forall (hz : R) (p : Pulse) (clock : list Z),
    Pulse_init hz = Ok p ->
    _history (wait_all p clock) = py_last 256 clock
    /\ _hist_len (wait_all p clock) = Z.of_nat (Nat.min (length clock) 256).
Proof.
  intros hz p clock Hinit.
  destruct (Pulse_init_fresh hz p Hinit) as (_ & _ & N0 & H0).
  destruct (wait_all_history clock p) as [H L].
  - rewrite H0. simpl. lia.
  - rewrite N0, H0. reflexivity.
  - rewrite H0 in H. cbn [app] in H. split; [exact H|].
    rewrite L, H. unfold py_last. rewrite length_skipn. lia.
Qed.

Lemma X9_witness :
  _history (wait_all pulse_1000 [1000000; 999900; 1000100]%Z)
  = py_last 256 [1000000; 999900; 1000100]%Z
  /\ _hist_len (wait_all pulse_1000 [1000000; 999900; 1000100]%Z)
     = Z.of_nat (Nat.min (length [1000000; 999900; 1000100]%Z) 256).
Proof.
  exact (X9_history_holds_last_256_readings
           1000 pulse_1000 [1000000; 999900; 1000100]%Z Pulse_init_1000).
Defined.

Lemma wait_all_target (clock : list Z) :
  forall p : Pulse,
    target_ns (wait_all p clock) = target_ns p
    /\ sigma_weight (wait_all p clock) = sigma_weight p.
Proof.
  induction clock as [|x rest IH]; intros p; [split; reflexivity|].
  cbn [wait_all]. destruct (IH (fst (wait p x))) as [T S].
  destruct (wait_measures p x) as (_ & _ & T1 & S1).
  rewrite T, S, T1, S1. split; reflexivity.
Qed.

(** X10.  The two moving averages of a Pulse never drift apart: after
    any run of [wait] calls the smoothed interval is the smoothed error
    plus the target interval. *)
Theorem X10_smoothed_interval_is_target_plus_smoothed_error :
  forall (hz : R) (p : Pulse) (clock : list Z),
    Pulse_init hz = Ok p ->
    ema_actual (wait_all p clock)
    = ema_error (wait_all p clock) + IZR (target_ns p).
Proof.
  intros hz p clock Hinit.
  pose proof (wait_all_balanced clock p (Pulse_init_balanced hz p Hinit)) as B.
  unfold balanced in B. destruct (wait_all_target clock p) as [T _].
  now rewrite T in B.
Qed.

Lemma X10_witness :
  ema_actual (wait_all pulse_1000 [1000000; 999900; 1000100]%Z)
  = ema_error (wait_all pulse_1000 [1000000; 999900; 1000100]%Z)
    + IZR (target_ns pulse_1000).
Proof.
  exact (X10_smoothed_interval_is_target_plus_smoothed_error
           1000 pulse_1000 [1000000; 999900; 1000100]%Z Pulse_init_1000).
Defined.

(** ** When [wait] raises and when it cannot *)

Lemma py_int_lower (x : R) : 1 <= x -> (1 <= py_int x)%Z.
Proof.
  intros H. unfold py_int.
  destruct (Rle_dec 0 x) as [_|N]; [|lra].
  destruct (base_Int_part x) as [_ B].
  assert (0 < IZR (Int_part x)) by lra.
  apply lt_IZR in H0. lia.
Qed.

Lemma py_int_small (x : R) : 0 <= x < 1 -> py_int x = 0%Z.
Proof.
  intros H. unfold py_int.
  destruct (Rle_dec 0 x) as [_|N]; [|lra].
  symmetry. apply Int_part_spec. lra.
Qed.

Lemma wait_sound (p : Pulse) (x : Z) :
  pulse_sound_state p -> (0 < x)%Z ->
  is_ok (snd (wait p x)) = true /\ pulse_sound_state (fst (wait p x)).
Proof.
  intros (HT & HS & HE & HC) Hx. unfold pulse_sound_state.
  destruct (wait_measures p x) as (A & _ & T & S).
  rewrite A, T, S, HS.
  assert (Hea : 0 < (1 - SIGMA) * IZR x + SIGMA * ema_actual p).
  { apply IZR_lt in Hx. unfold SIGMA. lra. }
  assert (HT' : 0 < IZR (target_ns p)) by (apply IZR_lt in HT; exact HT).
  cut (is_ok (snd (wait p x)) = true /\ 0 < coherence (fst (wait p x)) <= 1).
  { intros [O K]. repeat split; auto; apply K. }
  unfold wait, py_div. rewrite !HS.
  destruct (16 <=? _)%Z;
    [|unfold advance_phase; pulse_simpl; split; [reflexivity | exact HC]].
  destruct (Req_dec_T (IZR (target_ns p)) 0) as [Z0|_]; [lra|].
  match goal with
  | |- context [Req_dec_T (1 + ?q) 0] => set (q1 := q)
  end.
  assert (Hq : 0 <= q1).
  { unfold q1, Rdiv. apply Rmult_le_pos; [apply Rabs_pos|].
    left. now apply Rinv_0_lt_compat. }
  destruct (Req_dec_T (1 + q1) 0) as [Z1|_]; [lra|].
  pose proof (vitality_bounds q1 Hq) as [A0 A1].
  match goal with
  | |- context [s_star (window_vitality ?w) _] =>
      pose proof (window_vitality_bounds w) as [V0 V1];
      set (V := window_vitality w) in *
  end.
  assert (Hcoh : 0 < s_star V (1 / (1 + q1)) <= 1).
  { unfold s_star. rewrite FACTOR_value. nra. }
  pulse_simpl.
  destruct (py_ge _ T_STAR && negb (lock_achieved p)).
  - pulse_simpl.
    destruct (Req_dec_T _ 0) as [Z2|_]; [lra|].
    unfold advance_phase. pulse_simpl. split; [reflexivity | exact Hcoh].
  - unfold advance_phase. pulse_simpl. split; [reflexivity | exact Hcoh].
Qed.

Lemma wait_all_sound (clock : list Z) :
  forall p : Pulse,
    pulse_sound_state p -> Forall (fun x => (0 < x)%Z) clock ->
    wait_all_ok p clock = true /\ pulse_sound_state (wait_all p clock).
Proof.
  induction clock as [|x rest IH]; intros p Hp Hc; [split; auto|].
  inversion Hc as [|? ? Hx Hrest]; subst.
  destruct (wait_sound p x Hp Hx) as [O P1].
  destruct (IH _ P1 Hrest) as [O2 P2].
  cbn [wait_all_ok wait_all]. rewrite O, O2. split; [reflexivity | exact P2].
Qed.

(** X11.  A Pulse built with a rate in (0, 1e9] Hz never raises: fed
    positive clock readings, every [wait] of any run returns, the smoothed
    interval stays positive and the coherence stays in (0, 1]. *)
Theorem X11_wait_never_raises_for_rates_up_to_1e9 :
  forall (hz : R) (p : Pulse) (clock : list Z),
    Pulse_init hz = Ok p ->
    0 < hz <= 1000000000 ->
    Forall (fun x => (0 < x)%Z) clock ->
    wait_all_ok p clock = true
    /\ 0 < ema_actual (wait_all p clock)
    /\ 0 < coherence (wait_all p clock) <= 1.
Proof.
  intros hz p clock Hinit Hhz Hclock.
  assert (Hp : pulse_sound_state p).
  { destruct (Pulse_init_Ok hz p Hinit) as (_ & _ & ->).
    unfold pulse_sound_state.
    cbn [target_ns sigma_weight ema_actual coherence].
    assert (H1 : 1 <= 1000000000 / hz).
    { apply (Rmult_le_reg_r hz); [lra|].
      unfold Rdiv. rewrite Rmult_assoc, Rinv_l; lra. }
    pose proof (py_int_lower _ H1) as HT.
    split; [lia|]. split; [reflexivity|].
    split; [apply IZR_lt; lia | unfold T_STAR; lra]. }
  destruct (wait_all_sound clock p Hp Hclock) as [O (_ & _ & E & HC)].
  auto.
Qed.

Lemma X11_witness :
  wait_all_ok pulse_1000 [1000000; 999900; 1000100]%Z = true
  /\ 0 < ema_actual (wait_all pulse_1000 [1000000; 999900; 1000100]%Z)
  /\ 0 < coherence (wait_all pulse_1000 [1000000; 999900; 1000100]%Z) <= 1.
Proof.
  apply (X11_wait_never_raises_for_rates_up_to_1e9
           1000 pulse_1000 [1000000; 999900; 1000100]%Z).
  - exact Pulse_init_1000.
  - lra.
  - repeat constructor.
Defined.

(** A Pulse whose target interval is zero: until the window is full a
    call returns, from then on it raises; no call locks it or touches its
    coherence. *)
Lemma wait_zero_target (p : Pulse) (x : Z) :
  target_ns p = 0%Z ->
  lock_achieved (fst (wait p x)) = lock_achieved p
  /\ coherence (fst (wait p x)) = coherence p
  /\ (if (16 <=? Z.min (_hist_len p + 1) 256)%Z
      then snd (wait p x) = Raise ZeroDivisionError
           /\ fire_count (fst (wait p x)) = fire_count p
      else is_ok (snd (wait p x)) = true
           /\ fire_count (fst (wait p x)) = (fire_count p + 1)%Z).
Proof.
  intros T. unfold wait. rewrite T.
  destruct (16 <=? _)%Z.
  - unfold py_div. destruct (Req_dec_T 0 0) as [_|N]; [|contradiction].
    pulse_simpl. repeat split; reflexivity.
  - unfold advance_phase. pulse_simpl. repeat split; reflexivity.
Qed.

Lemma wait_all_snoc (clock : list Z) (x : Z) :
  forall p : Pulse,
    wait_all p (clock ++ [x]) = fst (wait (wait_all p clock) x).
Proof.
  induction clock as [|y rest IH]; intros p; [reflexivity|].
  cbn [wait_all app]. apply IH.
Qed.

(** X12.  A rate above 1e9 Hz is accepted by the constructor and gives a
    target interval of zero: the first fifteen [wait] calls return, every
    later one raises [ZeroDivisionError], and the Pulse never locks nor
    leaves its initial coherence. *)
Theorem X12_rate_above_1e9_raises_from_the_sixteenth_wait :
  forall (hz : R) (p : Pulse) (clock : list Z) (x : Z),
    Pulse_init hz = Ok p ->
    1000000000 < hz ->
    target_ns p = 0%Z
    /\ lock_achieved (wait_all p clock) = false
    /\ coherence (wait_all p clock) = T_STAR
    /\ fire_count (wait_all p clock) = Z.of_nat (Nat.min (length clock) 15)
    /\ (if (length clock <? 15)%nat
        then is_ok (snd (wait (wait_all p clock) x)) = true
        else snd (wait (wait_all p clock) x) = Raise ZeroDivisionError).
Proof.
  intros hz p clock x Hinit Hhz.
  assert (T0 : target_ns p = 0%Z).
  { destruct (Pulse_init_Ok hz p Hinit) as (_ & _ & ->).
    cbn [target_ns]. apply py_int_small. split.
    - unfold Rdiv. apply Rmult_le_pos; [lra|].
      left. apply Rinv_0_lt_compat. lra.
    - apply (Rmult_lt_reg_r hz); [lra|].
      unfold Rdiv. rewrite Rmult_assoc, Rinv_l; lra. }
  destruct (Pulse_init_fresh hz p Hinit) as (L0 & C0 & N0 & H0).
  assert (F0 : fire_count p = 0%Z).
  { destruct (Pulse_init_Ok hz p Hinit) as (_ & _ & ->). reflexivity. }
  split; [exact T0|].
  assert (Hist : forall c, _hist_len (wait_all p c)
                           = Z.of_nat (Nat.min (length c) 256)).
  { intros c. destruct (wait_all_history c p) as [H L].
    - rewrite H0. simpl. lia.
    - rewrite N0, H0. reflexivity.
    - rewrite L, H, H0. cbn [app]. unfold py_last.
      rewrite length_skipn. lia. }
  assert (Tall : forall c, target_ns (wait_all p c) = 0%Z).
  { intros c. destruct (wait_all_target c p) as [T _]. now rewrite T. }
  assert (Inv : lock_achieved (wait_all p clock) = false
                /\ coherence (wait_all p clock) = T_STAR
                /\ fire_count (wait_all p clock)
                   = Z.of_nat (Nat.min (length clock) 15)).
  { induction clock as [|y rest IH] using rev_ind.
    - cbn [wait_all length]. rewrite L0, C0, F0. auto.
    - rewrite wait_all_snoc, length_app. cbn [length].
      destruct IH as (L & C & F).
      destruct (wait_zero_target (wait_all p rest) y (Tall rest))
        as (L' & C' & F').
      rewrite L', C', L, C. split; [reflexivity|]. split; [reflexivity|].
      rewrite (Hist rest) in F'.
      destruct (16 <=? _)%Z eqn:E; destruct F' as [_ F'];
        rewrite F', F;
        [apply Z.leb_le in E | apply Z.leb_gt in E]; lia. }
  destruct Inv as (L & C & F).
  split; [exact L|]. split; [exact C|]. split; [exact F|].
  destruct (wait_zero_target (wait_all p clock) x (Tall clock))
    as (_ & _ & F').
  rewrite (Hist clock) in F'.
  destruct (length clock <? 15)%nat eqn:Q;
    [apply Nat.ltb_lt in Q | apply Nat.ltb_ge in Q];
    destruct (16 <=? _)%Z eqn:E; destruct F' as [F' _];
    [apply Z.leb_le in E | apply Z.leb_gt in E
     | apply Z.leb_le in E | apply Z.leb_gt in E];
    try exact F'; lia.
Qed.

Lemma Pulse_init_2e9 :
  Pulse_init 2000000000
  = Ok (mkPulse 0 0 0 0 SIGMA 0 false 2000000000 T_STAR [] 0).
Proof.
  rewrite Pulse_init_in_range.
  - rewrite py_int_small; [reflexivity|]. lra.
  - lra.
  - apply moderate_in_range.
    replace (1000000000 / 2000000000) with (1 / 2) by lra.
    rewrite Rabs_pos_eq; lra.
Qed.

Lemma X12_witness :
  let p := mkPulse 0 0 0 0 SIGMA 0 false 2000000000 T_STAR [] 0 in
  let clock := repeat 500%Z 15 in
  target_ns p = 0%Z
  /\ lock_achieved (wait_all p clock) = false
  /\ coherence (wait_all p clock) = T_STAR
  /\ fire_count (wait_all p clock) = 15%Z
  /\ snd (wait (wait_all p clock) 500) = Raise ZeroDivisionError.
Proof.
  exact (X12_rate_above_1e9_raises_from_the_sixteenth_wait
           2000000000 (mkPulse 0 0 0 0 SIGMA 0 false 2000000000 T_STAR [] 0)
           (repeat 500%Z 15) 500%Z Pulse_init_2e9 ltac:(lra)).
Defined.

(** ** The phase of the Pulse *)

Lemma py_mod1_range (x : R) : 0 <= py_mod1 x < 1.
Proof.
  unfold py_mod1. destruct (base_Int_part x) as [A B]. lra.
Qed.

(** A returning [wait] advances the phase and counts the firing, and
    reports both; a raising one does neither. *)
Lemma wait_phase (p : Pulse) (x : Z) :
  match snd (wait p x) with
  | Ok d =>
      phase (fst (wait p x)) = py_mod1 (phase p + 1 / 10)
      /\ fire_count (fst (wait p x)) = (fire_count p + 1)%Z
      /\ pd_phase d = phase (fst (wait p x))
      /\ pd_fire d = fire_count (fst (wait p x))
  | Raise _ =>
      phase (fst (wait p x)) = phase p
      /\ fire_count (fst (wait p x)) = fire_count p
  end.
Proof.
  unfold wait.
  destruct (16 <=? _)%Z;
    [|unfold advance_phase; pulse_simpl; cbn [pd_phase pd_fire]; auto].
  destruct (py_div _ (IZR (target_ns p))) as [q1|e1]; [|pulse_simpl; auto].
  destruct (py_div 1 (1 + q1)) as [q2|e2]; [|pulse_simpl; auto].
  pulse_simpl. destruct (py_ge _ T_STAR && negb (lock_achieved p)).
  - destruct (py_div 1000000000 _); unfold advance_phase; pulse_simpl;
      cbn [pd_phase pd_fire]; auto.
  - unfold advance_phase; pulse_simpl; cbn [pd_phase pd_fire]; auto.
Qed.

Lemma wait_all_counts (clock : list Z) :
  forall p : Pulse,
    0 <= phase p < 1 ->
    fire_count (wait_all p clock) = (fire_count p + returned_calls p clock)%Z
    /\ 0 <= phase (wait_all p clock) < 1.
Proof.
  induction clock as [|x rest IH]; intros p Hp.
  - cbn [wait_all returned_calls]. split; [lia|exact Hp].
  - cbn [wait_all returned_calls].
    pose proof (wait_phase p x) as W.
    destruct (snd (wait p x)) as [d|e]; cbn [is_ok].
    + destruct W as (P1 & F1 & _).
      destruct (IH (fst (wait p x))) as [F2 P2].
      { rewrite P1. apply py_mod1_range. }
      split; [rewrite F2, F1; lia|exact P2].
    + destruct W as (P1 & F1).
      destruct (IH (fst (wait p x))) as [F2 P2].
      { rewrite P1. exact Hp. }
      split; [rewrite F2, F1; lia|exact P2].
Qed.

(** X13.  [fire_count] counts the calls that returned: from a constructed
    Pulse, after any run of [wait] calls, [fire_count] is the number of
    calls of the run that returned and the phase is in [0, 1); a further
    call that returns reports the new [fire_count] and phase in its result,
    and one that raises leaves both as they were. *)
Theorem X13_fire_count_counts_the_returned_calls :
  forall (hz : R) (p : Pulse) (clock : list Z),
    Pulse_init hz = Ok p ->
    let p' := wait_all p clock in
    fire_count p' = returned_calls p clock
    /\ 0 <= phase p' < 1
    /\ (forall x,
          match snd (wait p' x) with
          | Ok d => pd_fire d = (fire_count p' + 1)%Z
                    /\ fire_count (fst (wait p' x)) = pd_fire d
                    /\ phase (fst (wait p' x)) = pd_phase d
                    /\ 0 <= pd_phase d < 1
          | Raise _ => fire_count (fst (wait p' x)) = fire_count p'
                       /\ phase (fst (wait p' x)) = phase p'
          end).
Proof.
  intros hz p clock Hinit p'.
  destruct (Pulse_init_Ok hz p Hinit) as (_ & _ & E).
  assert (F0 : fire_count p = 0%Z) by (rewrite E; reflexivity).
  assert (P0 : 0 <= phase p < 1) by (rewrite E; cbn [phase]; lra).
  destruct (wait_all_counts clock p P0) as [F P]. fold p' in F, P.
  split; [rewrite F, F0; lia|]. split; [exact P|].
  intros x. pose proof (wait_phase p' x) as W.
  destruct (snd (wait p' x)) as [d|e]; [|split; apply W].
  destruct W as (W1 & W2 & W3 & W4).
  split; [congruence|]. split; [congruence|]. split; [congruence|].
  rewrite W3, W1. apply py_mod1_range.
Qed.

Lemma X13_witness :
  fire_count (wait_all pulse_1000 [1000000; 999900; 1000100]%Z)
  = returned_calls pulse_1000 [1000000; 999900; 1000100]%Z
  /\ 0 <= phase (wait_all pulse_1000 [1000000; 999900; 1000100]%Z) < 1.
Proof.
  destruct (X13_fire_count_counts_the_returned_calls
              1000 pulse_1000 [1000000; 999900; 1000100]%Z Pulse_init_1000)
    as (A & B & _).
  split; [exact A|exact B].
Defined.

(** ** The values of the spine *)

Lemma clamp_spine_range (v : R) :
  1 / 1000 <= Rmax (1 / 1000) (Rmin 1 v) <= 1.
Proof.
  split; [apply Rmax_l|].
  apply Rmax_lub; [lra | apply Rmin_l].
Qed.

Lemma list_set_Forall (P : R -> Prop) (l : list R) (k : nat) (v : R) :
  Forall P l -> P v -> Forall P (list_set l k v).
Proof.
  intros H Hv. revert k.
  induction H as [|x l Hx Hl IH]; intros [|k]; simpl;
    try constructor; auto.
Qed.

Lemma nth_error_list_set (l : list R) (k j : nat) (v : R) :
  nth_error (list_set l k v) j
  = if Nat.eqb k j
    then match nth_error l j with Some _ => Some v | None => None end
    else nth_error l j.
Proof.
  revert k j. induction l as [|x l IH]; intros [|k] [|j]; simpl; auto;
    try (destruct (Nat.eqb k j); reflexivity).
Qed.

(** One step of the spine, with the value it writes. *)
Lemma advance_spine_value (r : LatticeRuntime) (g : R) :
  spine_ok r ->
  exists r' old prev,
    _advance_spine r g = Ok r'
    /\ nth_error (spine r) (Z.to_nat (spine_phase r)) = Some old
    /\ nth_error (spine r) (Z.to_nat ((spine_phase r - 1) mod 10)) = Some prev
    /\ spine r'
       = list_set (spine r) (Z.to_nat (spine_phase r))
           (Rmax (1 / 1000)
                 (Rmin 1 (spine_operator r (spine_phase r) old prev g))).
Proof.
  intros [Hl Hp]. unfold _advance_spine, py_getitem, py_setitem.
  pose proof (Z.mod_pos_bound (spine_phase r - 1) 10 ltac:(lia)) as Hm.
  rewrite !py_index_in_range by (rewrite Hl; lia).
  destruct (nth_error (spine r) (Z.to_nat ((spine_phase r - 1) mod 10)))
    as [prev|] eqn:Eprev; [|apply nth_error_None in Eprev; lia].
  destruct (nth_error (spine r) (Z.to_nat (spine_phase r)))
    as [old|] eqn:Eold; [|apply nth_error_None in Eold; lia].
  eexists. exists old, prev. split; [reflexivity|].
  split; [reflexivity|]. split; reflexivity.
Qed.

Lemma advance_spine_bounded (r r' : LatticeRuntime) (g : R) :
  spine_ok r -> spine_bounded (spine r) -> _advance_spine r g = Ok r' ->
  spine_bounded (spine r').
Proof.
  intros Hok Hb E.
  destruct (advance_spine_value r g Hok) as (r2 & old & prev & E2 & _ & _ & S).
  rewrite E in E2. inversion E2; subst r2. rewrite S.
  apply list_set_Forall; [exact Hb | apply clamp_spine_range].
Qed.

(** X14.  The clamp keeps the spine in range: from a spine of ten
    values in [0.001, 1], any run of [_advance_spine] calls returns and
    leaves every value in [0.001, 1], whatever [random.gauss] draws. *)
Theorem X14_spine_values_stay_in_range :
  forall (r : LatticeRuntime) (noises : list R),
    spine_ok r ->
    spine_bounded (spine r) ->
    exists r',
      advance_spine_all r noises = Ok r'
      /\ length (spine r') = 10%nat
      /\ spine_bounded (spine r').
Proof.
  intros r noises. revert r.
  induction noises as [|g rest IH]; intros r Hok Hb.
  - exists r. split; [reflexivity|]. split; [apply Hok | exact Hb].
  - destruct (advance_spine_step r g Hok) as (r1 & E1 & Hok1 & _).
    pose proof (advance_spine_bounded r r1 g Hok Hb E1) as Hb1.
    destruct (IH r1 Hok1 Hb1) as (r2 & E2 & L2 & B2).
    exists r2. cbn [advance_spine_all]. rewrite E1. auto.
Qed.

Lemma spine_bounded_repeat : spine_bounded (repeat T_STAR 10).
Proof.
  unfold spine_bounded. apply Forall_forall. intros x Hx.
  apply repeat_spec in Hx. subst x. unfold T_STAR. lra.
Qed.

Lemma X14_witness :
  exists r',
    advance_spine_all runtime_1000 [0; 5; -5; 0; 0; 0; 1000; 0] = Ok r'
    /\ length (spine r') = 10%nat
    /\ spine_bounded (spine r').
Proof.
  apply (X14_spine_values_stay_in_range runtime_1000
           [0; 5; -5; 0; 0; 0; 1000; 0]).
  - exact runtime_1000_spine_ok.
  - exact spine_bounded_repeat.
Defined.

(** X15.  The VOID stage always grounds to the floor: on a spine in
    range, [_advance_spine] at stage 0 writes exactly 0.001, because
    [prev * (1 - sigma) * 0.1] is at most 0.0009. *)
Theorem X15_stage_zero_writes_the_floor :
  forall (r : LatticeRuntime) (g : R),
    spine_ok r ->
    spine_bounded (spine r) ->
    spine_phase r = 0%Z ->
    exists r',
      _advance_spine r g = Ok r'
      /\ nth_error (spine r') 0 = Some (1 / 1000)
      /\ spine_phase r' = 1%Z.
Proof.
  intros r g Hok Hb H0.
  destruct (advance_spine_value r g Hok)
    as (r' & old & prev & E & Eold & Eprev & S).
  destruct (advance_spine_step r g Hok) as (r2 & E2 & _ & P & _).
  rewrite E in E2. inversion E2; subst r2.
  exists r'. split; [exact E|]. rewrite P, H0. split; [|reflexivity].
  rewrite S, H0 in *. cbn [Z.to_nat] in *.
  rewrite nth_error_list_set, Nat.eqb_refl, Eold. f_equal.
  unfold spine_operator. cbn [Z.eqb].
  assert (Hprev : 1 / 1000 <= prev <= 1).
  { unfold spine_bounded in Hb. rewrite Forall_forall in Hb.
    apply Hb. eapply nth_error_In. exact Eprev. }
  unfold SIGMA.
  rewrite Rmin_right by lra. rewrite Rmax_left by lra. reflexivity.
Qed.

Lemma X15_witness :
  exists r',
    _advance_spine runtime_1000 0 = Ok r'
    /\ nth_error (spine r') 0 = Some (1 / 1000)
    /\ spine_phase r' = 1%Z.
Proof.
  apply (X15_stage_zero_writes_the_floor runtime_1000 0).
  - exact runtime_1000_spine_ok.
  - exact spine_bounded_repeat.
  - reflexivity.
Defined.

Lemma advance_spine_progress_and_collapse (r r' : LatticeRuntime) (g a3 a4 : R) :
  spine_ok r -> spine_bounded (spine r) ->
  _advance_spine r g = Ok r' ->
  nth_error (spine r) 3 = Some a3 ->
  nth_error (spine r) 4 = Some a4 ->
  exists b3 b4,
    nth_error (spine r') 3 = Some b3 /\ nth_error (spine r') 4 = Some b4
    /\ a3 <= b3 /\ b4 <= a4.
Proof.
  intros Hok Hb E E3 E4.
  destruct (advance_spine_value r g Hok)
    as (r2 & old & prev & E2 & Eold & _ & S).
  rewrite E in E2. inversion E2; subst r2.
  assert (B3 : 1 / 1000 <= a3 <= 1).
  { unfold spine_bounded in Hb. rewrite Forall_forall in Hb.
    apply Hb. eapply nth_error_In. exact E3. }
  assert (B4 : 1 / 1000 <= a4 <= 1).
  { unfold spine_bounded in Hb. rewrite Forall_forall in Hb.
    apply Hb. eapply nth_error_In. exact E4. }
  destruct Hok as [_ Hp].
  rewrite S, !nth_error_list_set, E3, E4.
  destruct (Nat.eqb (Z.to_nat (spine_phase r)) 3) eqn:Q3;
    destruct (Nat.eqb (Z.to_nat (spine_phase r)) 4) eqn:Q4;
    try apply Nat.eqb_eq in Q3; try apply Nat.eqb_eq in Q4; try lia.
  - assert (P : spine_phase r = 3%Z) by lia.
    rewrite P in *. change (Z.to_nat 3) with 3%nat in Eold.
    rewrite E3 in Eold. inversion Eold; subst old.
    do 2 eexists. split; [reflexivity|]. split; [reflexivity|].
    split; [|lra].
    unfold spine_operator. cbn [Z.eqb Pos.eqb]. unfold SIGMA.
    rewrite Rmin_right by lra. rewrite Rmax_right by lra. lra.
  - assert (P : spine_phase r = 4%Z) by lia.
    rewrite P in *. change (Z.to_nat 4) with 4%nat in Eold.
    rewrite E4 in Eold. inversion Eold; subst old.
    do 2 eexists. split; [reflexivity|]. split; [reflexivity|].
    split; [lra|].
    unfold spine_operator. cbn [Z.eqb Pos.eqb]. unfold SIGMA.
    rewrite Rmin_right by lra.
    apply Rmax_lub; lra.
  - exists a3, a4. repeat split; auto; lra.
Qed.

(** X16.  PROGRESS only rises and COLLAPSE only falls: over any run of
    [_advance_spine] calls on a spine in range, the value of stage 3 never
    decreases and the value of stage 4 never increases, since no other
    stage writes them. *)
Theorem X16_stage_three_rises_and_stage_four_falls :
  forall (r : LatticeRuntime) (noises : list R) (a3 a4 : R),
    spine_ok r ->
    spine_bounded (spine r) ->
    nth_error (spine r) 3 = Some a3 ->
    nth_error (spine r) 4 = Some a4 ->
    exists r' b3 b4,
      advance_spine_all r noises = Ok r'
      /\ nth_error (spine r') 3 = Some b3
      /\ nth_error (spine r') 4 = Some b4
      /\ a3 <= b3 <= 1
      /\ 1 / 1000 <= b4 <= a4.
Proof.
  intros r noises. revert r.
  induction noises as [|g rest IH]; intros r a3 a4 Hok Hb E3 E4.
  - exists r, a3, a4. split; [reflexivity|].
    assert (B3 : 1 / 1000 <= a3 <= 1).
    { unfold spine_bounded in Hb. rewrite Forall_forall in Hb.
      apply Hb. eapply nth_error_In. exact E3. }
    assert (B4 : 1 / 1000 <= a4 <= 1).
    { unfold spine_bounded in Hb. rewrite Forall_forall in Hb.
      apply Hb. eapply nth_error_In. exact E4. }
    repeat split; auto; lra.
  - destruct (advance_spine_step r g Hok) as (r1 & E1 & Hok1 & _).
    pose proof (advance_spine_bounded r r1 g Hok Hb E1) as Hb1.
    destruct (advance_spine_progress_and_collapse r r1 g a3 a4 Hok Hb E1 E3 E4)
      as (c3 & c4 & F3 & F4 & L3 & L4).
    destruct (IH r1 c3 c4 Hok1 Hb1 F3 F4)
      as (r2 & b3 & b4 & E2 & G3 & G4 & M3 & M4).
    exists r2, b3, b4. cbn [advance_spine_all]. rewrite E1.
    repeat split; auto; lra.
Qed.

Lemma X16_witness :
  exists r' b3 b4,
    advance_spine_all runtime_1000 (repeat 0 25) = Ok r'
    /\ nth_error (spine r') 3 = Some b3
    /\ nth_error (spine r') 4 = Some b4
    /\ T_STAR <= b3 <= 1
    /\ 1 / 1000 <= b4 <= T_STAR.
Proof.
  apply (X16_stage_three_rises_and_stage_four_falls
           runtime_1000 (repeat 0 25) T_STAR T_STAR).
  - exact runtime_1000_spine_ok.
  - exact spine_bounded_repeat.
  - reflexivity.
  - reflexivity.
Defined.

(** ** The counters of the runtime *)

Lemma advance_spine_frame (r r' : LatticeRuntime) (g : R) :
  _advance_spine r g = Ok r' ->
  pulse r' = pulse r /\ triads r' = triads r
  /\ root r' = root r /\ epoch r' = epoch r
  /\ domains r' = domains r /\ micro_triads r' = micro_triads r
  /\ ops_total r' = ops_total r /\ ops_by_domain r' = ops_by_domain r.
Proof.
  unfold _advance_spine.
  destruct (py_getitem (spine r) ((spine_phase r - 1) mod 10));
    [|discriminate].
  destruct (py_getitem (spine r) (spine_phase r)); [|discriminate].
  destruct (py_setitem _ _ _); [|discriminate].
  intros E. inversion E. cbn. repeat split; reflexivity.
Qed.

Lemma op_counters {A : Type} (r : LatticeRuntime) (domain : string)
    (work : result A) (t0 t1 : Z) (g : R) :
  ops_total (fst (op r domain work t0 t1 g)) = (ops_total r + 1)%Z
  /\ ops_by_domain (fst (op r domain work t0 t1 g))
     = dict_set (ops_by_domain r) domain
                (dict_get0 (ops_by_domain r) domain + 1)%Z.
Proof.
  unfold op.
  destruct (py_getitem _ _); [|split; reflexivity].
  destruct work as [res|e]; [|split; reflexivity].
  destruct (observe_if_known _ (micro_triads _) _ _) as [a1|];
    [|split; reflexivity].
  destruct (observe_if_known a1 _ _ _) as [a2|]; [|split; reflexivity].
  destruct (_advance_spine _ g) as [r2|e] eqn:E; [|split; reflexivity].
  apply advance_spine_frame in E.
  destruct E as (_ & _ & _ & _ & _ & _ & T & B).
  cbn [fst]. rewrite T, B. split; reflexivity.
Qed.

Lemma tick_counters (r : LatticeRuntime) (x : Z) (g : R) :
  ops_total (fst (tick r x g)) = ops_total r
  /\ ops_by_domain (fst (tick r x g)) = ops_by_domain r.
Proof.
  unfold tick. destruct (wait (pulse r) x) as [p [pd|e]];
    [|split; reflexivity].
  destruct (_advance_spine (set_pulse r p) g) as [r1|e] eqn:E;
    [|split; reflexivity].
  apply advance_spine_frame in E.
  destruct E as (_ & _ & _ & _ & _ & _ & T & B).
  destruct (observe (triads r1) (epoch r1) (pd_coherence pd)) as [[a o]|];
    [|cbn [fst]; rewrite T, B; split; reflexivity].
  destruct (py_getitem _ _);
    [destruct (nth_error (triads (set_triads r1 a)) _)|];
    cbn [fst set_triads ops_total ops_by_domain]; rewrite T, B;
    split; reflexivity.
Qed.

Lemma ops_sum_dict_set (d : dict Z) (k : string) :
  ops_sum (dict_set d k (dict_get0 d k + 1)%Z) = (ops_sum d + 1)%Z.
Proof.
  unfold ops_sum, dict_get0.
  induction d as [|[k' v'] d IH]; cbn [dict_set dict_get dict_values map
                                        fold_right snd].
  - lia.
  - destruct (String.eqb k' k); cbn [dict_values map fold_right snd].
    + lia.
    + unfold dict_values in IH. rewrite IH. lia.
Qed.

(** X17.  [ops_total] counts every [op] call, whatever its domain and
    whether or not its work raised, ticks do not count, and at all times
    it equals the sum of the per-domain counters. *)
Theorem X17_ops_total_is_the_sum_of_the_domain_counters :
  forall (A : Type) (p : Pulse) (cs : list (Call A)),
    let r := after_calls (build_lattice p) cs in
    ops_total r = Z.of_nat (length (filter is_op cs))
    /\ ops_sum (ops_by_domain r) = ops_total r.
Proof.
  intros A p cs r.
  assert (G : forall (cs : list (Call A)) (r0 : LatticeRuntime),
             ops_total (after_calls r0 cs)
             = (ops_total r0 + Z.of_nat (length (filter is_op cs)))%Z
             /\ ops_sum (ops_by_domain (after_calls r0 cs))
                = (ops_sum (ops_by_domain r0)
                   + Z.of_nat (length (filter is_op cs)))%Z).
  { clear. induction cs as [|c cs IH]; intros r0.
    - cbn. split; lia.
    - change (after_calls r0 (c :: cs))
        with (after_calls (after_call r0 c) cs).
      destruct (IH (after_call r0 c)) as [T S]. rewrite T, S.
      destruct c as [domain work t0 t1 g | x g];
        cbn [after_call filter is_op length].
      + destruct (op_counters r0 domain work t0 t1 g) as [T1 B1].
        rewrite T1, B1, ops_sum_dict_set. split; lia.
      + destruct (tick_counters r0 x g) as [T1 B1].
        rewrite T1, B1. split; lia. }
  destruct (G cs (build_lattice p)) as [T S]. fold r in T, S.
  change (ops_total (build_lattice p)) with 0%Z in T.
  change (ops_sum (ops_by_domain (build_lattice p))) with 0%Z in S.
  split; lia.
Qed.

(** ** The runtime keeps its shape *)

Lemma build_lattice_ok (p : Pulse) : lattice_ok (build_lattice p).
Proof.
  unfold lattice_ok.
  split; [split; [reflexivity | cbn; lia]|].
  split; [exact spine_bounded_repeat|].
  split; [apply build_lattice_arena_ok|].
  rewrite build_lattice_triads. cbn [length].
  split; [cbn; lia|]. split; [cbn; lia|].
  split; intros k h; cbn [domains micro_triads build_lattice];
    change (domains (build_lattice p))
      with [("compute", 2); ("memory", 3); ("io", 4); ("net", 5)]%string%nat;
    change (micro_triads (build_lattice p))
      with [("compute", 6); ("memory", 7); ("io", 8); ("net", 9)]%string%nat;
    cbn [dict_get];
    repeat (match goal with
            | |- context [String.eqb ?a ?b] => destruct (String.eqb a b)
            end);
    intros E; inversion E; lia.
Qed.

Lemma observe_if_known_ok (a : Arena) (d : dict nat) (k : string) (v : R) :
  arena_ok a ->
  (forall h, dict_get d k = Some h -> (h < length a)%nat) ->
  exists a',
    observe_if_known a d k v = Some a'
    /\ arena_ok a' /\ length a' = length a.
Proof.
  intros Ha Hd. unfold observe_if_known.
  destruct (dict_get d k) as [h|]; [|exists a; auto].
  specialize (Hd h eq_refl).
  destruct (nth_error a h) as [t|] eqn:E;
    [|apply nth_error_None in E; lia].
  destruct (observe_ok a h v t Ha E) as (a' & res & Eo & Ha' & L).
  rewrite Eo. exists a'. auto.
Qed.

(** [op] on a runtime in shape: it raises only what its work raises. *)
Lemma op_in_shape {A : Type} (r : LatticeRuntime) (domain : string)
    (work : result A) (t0 t1 : Z) (g : R) :
  lattice_ok r ->
  snd (op r domain work t0 t1 g) = work
  /\ lattice_ok (fst (op r domain work t0 t1 g)).
Proof.
  intros H. pose proof H as (Hs & Hb & Ha & He & Hr & Hd & Hm). unfold op.
  set (r1 := set_counters r (ops_total r + 1)%Z _).
  assert (H1 : lattice_ok r1) by exact H.
  destruct (py_getitem_in_range (spine r1) (spine_phase r1)) as [sv Esv].
  { destruct Hs as [Hl Hp]. change (spine r1) with (spine r).
    change (spine_phase r1) with (spine_phase r). rewrite Hl. lia. }
  rewrite Esv.
  destruct work as [res|e]; [|split; [reflexivity | exact H1]].
  destruct (observe_if_known_ok (triads r1) (micro_triads r1) domain
              (IZR (t1 - t0) / 1000) Ha (Hm domain))
    as (a1 & E1 & Ha1 & L1).
  rewrite E1.
  destruct (observe_if_known_ok a1 (domains r1) domain
              (IZR (t1 - t0) / 1000 * sv) Ha1)
    as (a2 & E2 & Ha2 & L2).
  { intros h Hh. rewrite L1. exact (Hd domain h Hh). }
  rewrite E2.
  assert (Hs2 : spine_ok (set_triads r1 a2)) by exact Hs.
  destruct (advance_spine_step (set_triads r1 a2) g Hs2)
    as (r2 & E3 & Hs3 & _ & _ & T3 & _ & _ & _ & D3 & M3).
  rewrite E3. cbn [fst snd]. split; [reflexivity|].
  pose proof (advance_spine_bounded _ _ g Hs2 Hb E3) as Hb3.
  apply advance_spine_frame in E3.
  destruct E3 as (_ & _ & R3 & P3 & _).
  unfold lattice_ok. rewrite T3, D3, M3, R3, P3.
  cbn [set_triads triads domains micro_triads root epoch].
  rewrite L2, L1.
  split; [exact Hs3|]. split; [exact Hb3|]. split; [exact Ha2|].
  split; [exact He|]. split; [exact Hr|]. split; [exact Hd | exact Hm].
Qed.

(** [tick] on a runtime in shape: it raises only what the Pulse raises. *)
Lemma tick_in_shape (r : LatticeRuntime) (x : Z) (g : R) :
  lattice_ok r ->
  lattice_ok (fst (tick r x g))
  /\ is_ok (snd (tick r x g)) = is_ok (snd (wait (pulse r) x)).
Proof.
  intros H. pose proof H as (Hs & Hb & Ha & He & Hr & Hd & Hm). unfold tick.
  destruct (wait (pulse r) x) as [p [pd|e]]; cbn [snd];
    [|split; [exact H | reflexivity]].
  assert (Hs1 : spine_ok (set_pulse r p)) by exact Hs.
  destruct (advance_spine_step (set_pulse r p) g Hs1)
    as (r1 & E1 & Hs2 & _ & _ & T1 & _ & _ & _ & D1 & M1).
  rewrite E1.
  pose proof (advance_spine_bounded _ _ g Hs1 Hb E1) as Hb1.
  apply advance_spine_frame in E1.
  destruct E1 as (_ & _ & R1 & P1 & _).
  cbn [set_pulse triads root epoch domains micro_triads] in T1, R1, P1, D1, M1.
  destruct (nth_error (triads r1) (epoch r1)) as [te|] eqn:Ee;
    [|apply nth_error_None in Ee; rewrite T1, P1 in Ee; lia].
  assert (Ha1 : arena_ok (triads r1)) by (rewrite T1; exact Ha).
  destruct (observe_ok (triads r1) (epoch r1) (pd_coherence pd) te Ha1 Ee)
    as (a & o & Eo & Ha2 & L2).
  rewrite Eo.
  assert (Hs3 : spine_ok (set_triads r1 a)) by exact Hs2.
  destruct (py_getitem_in_range (spine (set_triads r1 a))
              (spine_phase (set_triads r1 a))) as [sv Esv].
  { destruct Hs3 as [Hl Hp]. rewrite Hl. lia. }
  rewrite Esv.
  destruct (nth_error (triads (set_triads r1 a)) (root (set_triads r1 a)))
    as [rootT|] eqn:Er.
  - cbn [fst snd is_ok]. split; [|reflexivity].
    unfold lattice_ok.
    cbn [set_triads triads domains micro_triads root epoch spine].
    rewrite L2, T1, D1, M1, R1, P1.
    split; [exact Hs2|]. split; [exact Hb1|]. split; [exact Ha2|].
    split; [exact He|]. split; [exact Hr|]. split; [exact Hd | exact Hm].
  - exfalso. apply nth_error_None in Er.
    cbn [set_triads triads root] in Er. rewrite L2, T1, R1 in Er. lia.
Qed.

Lemma after_calls_in_shape {A : Type} (cs : list (Call A)) :
  forall r : LatticeRuntime, lattice_ok r -> lattice_ok (after_calls r cs).
Proof.
  induction cs as [|c cs IH]; intros r H; [exact H|].
  change (after_calls r (c :: cs)) with (after_calls (after_call r c) cs).
  apply IH. destruct c as [domain work t0 t1 g | x g]; cbn [after_call].
  - now apply op_in_shape.
  - now apply tick_in_shape.
Qed.

(** X18.  [op] adds no failure of its own: on a constructed runtime,
    after any history of [op] and [tick] calls, returned or raised, a call
    of [op] on any domain name returns exactly what its work returns and
    raises exactly what its work raises. *)
Theorem X18_op_outcome_is_the_outcome_of_the_work :
  forall (A : Type) (p : Pulse) (cs : list (Call A)) (domain : string)
         (work : result A) (t0 t1 : Z) (g : R),
    snd (op (after_calls (build_lattice p) cs) domain work t0 t1 g) = work.
Proof.
  intros A p cs domain work t0 t1 g.
  apply op_in_shape. apply after_calls_in_shape. apply build_lattice_ok.
Qed.

(** X19.  [tick] raises only when its Pulse does: on a constructed
    runtime, after any history of calls, a [tick] returns exactly when the
    [wait] of the Pulse on the same clock reading returns. *)
Theorem X19_tick_returns_exactly_when_the_pulse_returns :
  forall (A : Type) (p : Pulse) (cs : list (Call A)) (x : Z) (g : R),
    let r := after_calls (build_lattice p) cs in
    is_ok (snd (tick r x g)) = is_ok (snd (wait (pulse r) x)).
Proof.
  intros A p cs x g r.
  apply tick_in_shape. apply after_calls_in_shape. apply build_lattice_ok.
Qed.

(** ** What a call of [op] records *)

Lemma same_observations_sym (t u : Triad) :
  same_observations t u -> same_observations u t.
Proof.
  unfold same_observations. intros (A1 & A2 & A3 & A4 & A5 & A6 & A7 & A8).
  repeat split; congruence.
Qed.

(** What [observe] makes of the samples depends on the samples only. *)
Lemma same_observations_observe_local (t u : Triad) (v : R) :
  same_observations t u ->
  same_observations (observe_local t v) (observe_local u v).
Proof.
  unfold same_observations. intros (A1 & A2 & A3 & A4 & A5 & A6 & A7 & A8).
  unfold observe_local.
  cbn [name _micro_buf _micro_len self_ema self_emv count parent children].
  rewrite A1, A2, A3, A4, A5, A6, A7, A8. repeat split; reflexivity.
Qed.

Lemma observe_if_known_frame (a : Arena) (d : dict nat) (k : string) (v : R)
    (h : nat) (t : Triad) :
  arena_ok a -> dict_get d k = Some h -> nth_error a h = Some t ->
  exists a',
    observe_if_known a d k v = Some a'
    /\ arena_ok a'
    /\ nth_error a' h = Some (observe_local t v)
    /\ (forall j u, j <> h -> nth_error a j = Some u ->
          exists u', nth_error a' j = Some u' /\ same_observations u u').
Proof.
  intros Ha Hd Et. unfold observe_if_known. rewrite Hd.
  destruct (observe_frame a h v t Ha Et) as (a' & res & E & Eh & F).
  destruct (observe_ok a h v t Ha Et) as (a2 & r2 & E2 & Ha2 & _).
  rewrite E in E2. inversion E2; subst a2 r2.
  rewrite E. exists a'. auto.
Qed.

(** X20.  What a successful [op] on a known domain records: the elapsed
    time in microseconds is observed by the domain's micro Triad, the
    elapsed time weighted by the spine's current value by the domain's own
    Triad, the work's result comes back, and no other Triad gains or loses
    a sample. *)
Theorem X20_op_feeds_the_two_triads_of_its_domain :
  forall (A : Type) (r : LatticeRuntime) (domain : string) (res : A)
         (t0 t1 : Z) (g : R) (hm hd : nat) (um ud : Triad) (sv : R),
    lattice_ok r ->
    dict_get (micro_triads r) domain = Some hm ->
    dict_get (domains r) domain = Some hd ->
    hm <> hd ->
    nth_error (triads r) hm = Some um ->
    nth_error (triads r) hd = Some ud ->
    nth_error (spine r) (Z.to_nat (spine_phase r)) = Some sv ->
    let elapsed_us := IZR (t1 - t0) / 1000 in
    let out := op r domain (Ok res) t0 t1 g in
    snd out = Ok res
    /\ (exists um' ud',
          nth_error (triads (fst out)) hm = Some um'
          /\ same_observations (observe_local um elapsed_us) um'
          /\ nth_error (triads (fst out)) hd = Some ud'
          /\ same_observations (observe_local ud (elapsed_us * sv)) ud')
    /\ (forall j u, j <> hm -> j <> hd -> nth_error (triads r) j = Some u ->
          exists u', nth_error (triads (fst out)) j = Some u'
                     /\ same_observations u u').
Proof.
  intros A r domain res t0 t1 g hm hd um ud sv H Hm Hd Hne Em Ed Esv
         elapsed_us out.
  pose proof (op_in_shape r domain (Ok res) t0 t1 g H) as [Hout _].
  fold out in Hout. split; [exact Hout|].
  pose proof H as (Hs & Hb & Ha & _).
  unfold out, op.
  set (r1 := set_counters r (ops_total r + 1)%Z _).
  assert (Eg : py_getitem (spine r1) (spine_phase r1) = Ok sv).
  { unfold py_getitem. destruct Hs as [Hl Hp].
    change (spine r1) with (spine r).
    change (spine_phase r1) with (spine_phase r).
    rewrite py_index_in_range by (rewrite Hl; lia). now rewrite Esv. }
  rewrite Eg. fold elapsed_us.
  destruct (observe_if_known_frame (triads r1) (micro_triads r1) domain
              elapsed_us hm um Ha Hm Em) as (a1 & E1 & Ha1 & Em1 & F1).
  rewrite E1.
  destruct (F1 hd ud (not_eq_sym Hne) Ed) as (ud1 & Ed1 & Sd1).
  destruct (observe_if_known_frame a1 (domains r1) domain
              (elapsed_us * sv) hd ud1 Ha1 Hd Ed1)
    as (a2 & E2 & Ha2 & Ed2 & F2).
  rewrite E2.
  destruct (F2 hm (observe_local um elapsed_us) Hne Em1) as (um2 & Em2 & Sm2).
  assert (Hs2 : spine_ok (set_triads r1 a2)) by exact Hs.
  destruct (advance_spine_step (set_triads r1 a2) g Hs2)
    as (r2 & E3 & _ & _ & _ & T3 & _).
  rewrite E3. cbn [fst]. rewrite T3. cbn [set_triads triads].
  split.
  - exists um2, (observe_local ud1 (elapsed_us * sv)).
    split; [exact Em2|]. split; [exact Sm2|]. split; [exact Ed2|].
    now apply same_observations_observe_local.
  - intros j u Hjm Hjd Ej.
    destruct (F1 j u Hjm Ej) as (u1 & Eu1 & S1).
    destruct (F2 j u1 Hjd Eu1) as (u2 & Eu2 & S2).
    exists u2. split; [exact Eu2|].
    now apply (same_observations_trans u u1 u2).
Qed.

Lemma X20_witness :
  let um := mkTriad "compute_micro" [] 0 0 0 T_STAR 0 (Some 2%nat) [] [] in
  let ud := mkTriad "COMPUTE" [] 0 0 0 T_STAR 0 (Some 1%nat) [6%nat] [] in
  let elapsed_us := IZR (5000 - 0) / 1000 in
  let out := op runtime_1000 "compute" (Ok 2%Z) 0 5000 0 in
  snd out = Ok 2%Z
  /\ (exists um' ud',
        nth_error (triads (fst out)) 6 = Some um'
        /\ same_observations (observe_local um elapsed_us) um'
        /\ nth_error (triads (fst out)) 2 = Some ud'
        /\ same_observations (observe_local ud (elapsed_us * T_STAR)) ud')
  /\ (forall j u, j <> 6%nat -> j <> 2%nat ->
        nth_error (triads runtime_1000) j = Some u ->
        exists u', nth_error (triads (fst out)) j = Some u'
                   /\ same_observations u u').
Proof.
  apply (X20_op_feeds_the_two_triads_of_its_domain
           Z runtime_1000 "compute" 2%Z 0 5000 0 6 2
           (mkTriad "compute_micro" [] 0 0 0 T_STAR 0 (Some 2%nat) [] [])
           (mkTriad "COMPUTE" [] 0 0 0 T_STAR 0 (Some 1%nat) [6%nat] [])
           T_STAR).
  - apply build_lattice_ok.
  - reflexivity.
  - reflexivity.
  - discriminate.
  - unfold runtime_1000. rewrite build_lattice_triads. reflexivity.
  - unfold runtime_1000. rewrite build_lattice_triads. reflexivity.
  - reflexivity.
Defined.

(** ** What a [tick] does *)

(** X21.  A [tick] is one [wait] of the Pulse, then one step of the
    spine, then one observation of the Pulse's coherence by the epoch
    Triad.  When the Pulse raises, the tick raises the same exception and
    the spine and the Triads are untouched. *)
Theorem X21_tick_fires_advances_and_observes :
  forall (r : LatticeRuntime) (x : Z) (g : R),
    lattice_ok r ->
    let w := wait (pulse r) x in
    let out := tick r x g in
    pulse (fst out) = fst w
    /\ match snd w with
       | Raise e =>
           snd out = Raise e
           /\ triads (fst out) = triads r
           /\ spine (fst out) = spine r
           /\ spine_phase (fst out) = spine_phase r
       | Ok pd =>
           is_ok (snd out) = true
           /\ spine_phase (fst out) = ((spine_phase r + 1) mod 10)%Z
           /\ exists te,
                nth_error (triads r) (epoch r) = Some te
                /\ nth_error (triads (fst out)) (epoch r)
                   = Some (observe_local te (pd_coherence pd))
                /\ (forall j u, j <> epoch r ->
                      nth_error (triads r) j = Some u ->
                      exists u', nth_error (triads (fst out)) j = Some u'
                                 /\ same_observations u u')
       end.
Proof.
  intros r x g H w out.
  pose proof H as (Hs & Hb & Ha & He & Hr & Hd & Hm).
  unfold out, tick, w. destruct (wait (pulse r) x) as [p [pd|e]]; cbn [fst snd];
    [|repeat split; reflexivity].
  assert (Hs1 : spine_ok (set_pulse r p)) by exact Hs.
  destruct (advance_spine_step (set_pulse r p) g Hs1)
    as (r1 & E1 & Hs2 & P1 & _ & T1 & U1 & _ & _ & _ & _).
  rewrite E1.
  apply advance_spine_frame in E1.
  destruct E1 as (_ & _ & R1 & Q1 & _).
  cbn [set_pulse triads root epoch pulse spine_phase] in T1, R1, Q1, U1, P1.
  destruct (nth_error (triads r) (epoch r)) as [te|] eqn:Ee;
    [|apply nth_error_None in Ee; lia].
  rewrite T1, Q1.
  destruct (observe_frame (triads r) (epoch r) (pd_coherence pd) te Ha Ee)
    as (a & o & Eo & Eep & F).
  destruct (observe_ok (triads r) (epoch r) (pd_coherence pd) te Ha Ee)
    as (a2 & o2 & Eo2 & _ & L2).
  rewrite Eo in Eo2. inversion Eo2; subst a2 o2.
  rewrite Eo.
  assert (Hs3 : spine_ok (set_triads r1 a)) by exact Hs2.
  destruct (py_getitem_in_range (spine (set_triads r1 a))
              (spine_phase (set_triads r1 a))) as [sv Esv].
  { destruct Hs3 as [Hl Hp]. rewrite Hl. lia. }
  rewrite Esv.
  destruct (nth_error (triads (set_triads r1 a)) (root (set_triads r1 a)))
    as [rootT|] eqn:Er.
  - cbn [fst snd is_ok set_triads pulse triads spine_phase].
    split; [exact U1|]. split; [reflexivity|]. split; [exact P1|].
    exists te. split; [reflexivity|]. split; [exact Eep | exact F].
  - exfalso. apply nth_error_None in Er.
    cbn [set_triads triads root] in Er. rewrite L2, R1 in Er. lia.
Qed.

Lemma X21_witness :
  let w := wait (pulse runtime_1000) 1000000 in
  let out := tick runtime_1000 1000000 0 in
  pulse (fst out) = fst w
  /\ match snd w with
     | Raise e =>
         snd out = Raise e
         /\ triads (fst out) = triads runtime_1000
         /\ spine (fst out) = spine runtime_1000
         /\ spine_phase (fst out) = spine_phase runtime_1000
     | Ok pd =>
         is_ok (snd out) = true
         /\ spine_phase (fst out) = ((spine_phase runtime_1000 + 1) mod 10)%Z
         /\ exists te,
              nth_error (triads runtime_1000) (epoch runtime_1000) = Some te
              /\ nth_error (triads (fst out)) (epoch runtime_1000)
                 = Some (observe_local te (pd_coherence pd))
              /\ (forall j u, j <> epoch runtime_1000 ->
                    nth_error (triads runtime_1000) j = Some u ->
                    exists u', nth_error (triads (fst out)) j = Some u'
                               /\ same_observations u u')
     end.
Proof.
  apply (X21_tick_fires_advances_and_observes runtime_1000 1000000 0).
  apply build_lattice_ok.
Defined.

(** X22 (LatticeRuntime.__init__, op, tick).  A constructed runtime stays in
    shape through any history of [op] and [tick] calls, whether they return
    or raise: every Triad's macro score and every recorded child score is in
    [0, 1], the spine keeps its ten values, all in [0.001, 1], and the stage
    stays in 0..9. *)
Theorem X22_runtime_stays_in_shape_through_any_history
  {A : Type} (p : Pulse) (cs : list (Call A)) :
  let r := after_calls (build_lattice p) cs in
  Forall (fun t => in01 (macro_s_star t)
                   /\ Forall in01 (dict_values (_child_coherences t)))
         (triads r)
  /\ length (spine r) = 10%nat
  /\ Forall (fun v => 1 / 1000 <= v <= 1) (spine r)
  /\ (0 <= spine_phase r < 10)%Z.
Proof.
  cbv zeta.
  pose proof (after_calls_in_shape cs _ (build_lattice_ok p)) as H.
  destruct H as ((Hlen & Hst) & Hb & Ha & _).
  split; [|split; [exact Hlen|split; [exact Hb|exact Hst]]].
  apply Forall_forall. intros t Ht.
  destruct (In_nth_error _ _ Ht) as [i Hi].
  destruct (Ha i t Hi) as (_ & Hm & Hc & _).
  split; assumption.
Qed.

(** ** The benchmark's analysis *)

Lemma bind_Ok {A B : Type} (a : A) (f : A -> result B) : bind (Ok a) f = f a.
Proof. reflexivity. Qed.

Lemma py_insert_In (x y : R) (l : list R) :
  In y (py_insert x l) <-> y = x \/ In y l.
Proof.
  induction l as [|z l IH]; simpl.
  - intuition.
  - destruct (Rle_dec x z); simpl; [|rewrite IH]; intuition.
Qed.

Lemma py_sorted_In (y : R) (l : list R) : In y (py_sorted l) <-> In y l.
Proof.
  induction l as [|x l IH]; simpl; [reflexivity|].
  rewrite py_insert_In, IH. intuition.
Qed.

Lemma py_insert_length (x : R) (l : list R) :
  length (py_insert x l) = S (length l).
Proof.
  induction l as [|z l IH]; simpl; [reflexivity|].
  destruct (Rle_dec x z); simpl; [reflexivity|now rewrite IH].
Qed.

Lemma py_sorted_length (l : list R) : length (py_sorted l) = length l.
Proof.
  induction l as [|x l IH]; simpl; [reflexivity|].
  now rewrite py_insert_length, IH.
Qed.

Lemma py_insert_ascending (x : R) (l : list R) :
  ascending l -> ascending (py_insert x l).
Proof.
  induction l as [|z l IH]; simpl.
  - intros _. split; [constructor|exact I].
  - intros [Hz Hl]. destruct (Rle_dec x z) as [L|N]; simpl.
    + split; [|split; assumption].
      constructor; [exact L|].
      eapply Forall_impl; [|exact Hz]. intros a Ha. simpl in Ha. lra.
    + split; [|apply IH; exact Hl].
      apply Forall_forall. intros a Ha. apply py_insert_In in Ha.
      destruct Ha as [->|Ha]; [lra|].
      rewrite Forall_forall in Hz. apply Hz, Ha.
Qed.

Lemma py_sorted_ascending (l : list R) : ascending (py_sorted l).
Proof.
  induction l as [|x l IH]; simpl; [exact I|].
  apply py_insert_ascending, IH.
Qed.

Lemma ascending_nth (l : list R) (i j : nat) :
  ascending l -> (i <= j < length l)%nat -> nth i l 0 <= nth j l 0.
Proof.
  revert i j. induction l as [|x l IH]; intros i j Hl [Hij Hj]; simpl in *.
  - lia.
  - destruct Hl as [Hx Hl]. destruct i as [|i], j as [|j]; try lia.
    + lra.
    + rewrite Forall_forall in Hx. apply Hx, nth_In. lia.
    + apply IH; [exact Hl|lia].
Qed.

Lemma py_getitem_nth (l : list R) (i : Z) :
  (0 <= i < Z.of_nat (length l))%Z ->
  py_getitem l i = Ok (nth (Z.to_nat i) l 0).
Proof.
  intros H. unfold py_getitem. rewrite py_index_in_range by exact H.
  destruct (nth_error l (Z.to_nat i)) as [x|] eqn:E.
  - now rewrite (nth_error_nth _ _ 0 E).
  - apply nth_error_None in E. lia.
Qed.

Lemma fold_left_Rmax_ge (l : list R) (x : R) :
  x <= fold_left Rmax l x /\ Forall (fun y => y <= fold_left Rmax l x) l.
Proof.
  revert x. induction l as [|y l IH]; intros x; simpl.
  - split; [lra|constructor].
  - destruct (IH (Rmax x y)) as [H1 H2].
    pose proof (Rmax_l x y). pose proof (Rmax_r x y).
    split; [lra|]. constructor; [lra|exact H2].
Qed.

Lemma fold_left_Rmax_In (l : list R) (x : R) : In (fold_left Rmax l x) (x :: l).
Proof.
  revert x. induction l as [|y l IH]; intros x; simpl.
  - now left.
  - destruct (IH (Rmax x y)) as [E|H].
    + unfold Rmax in E at 1. destruct (Rle_dec x y); [right; left|left]; exact E.
    + right. right. exact H.
Qed.

Lemma py_max_ge (x : R) (l : list R) (y : R) :
  In y (x :: l) -> y <= py_max (x :: l).
Proof.
  intros H. unfold py_max.
  destruct (fold_left_Rmax_ge l x) as [H1 H2].
  destruct H as [<-|H]; [exact H1|].
  rewrite Forall_forall in H2. apply H2, H.
Qed.

Lemma Int_part_ge (z : Z) (r : R) : IZR z <= r -> (z <= Int_part r)%Z.
Proof.
  intros H. destruct (base_Int_part r) as [_ B].
  assert (L : IZR z < IZR (Int_part r + 1)) by (rewrite plus_IZR; lra).
  apply lt_IZR in L. lia.
Qed.

Lemma Int_part_lt (z : Z) (r : R) : r < IZR z -> (Int_part r < z)%Z.
Proof.
  intros H. destruct (base_Int_part r) as [B _].
  apply lt_IZR. lra.
Qed.

(** The three percentile indices are in range and in order. *)
Lemma percentile_indices (n : Z) :
  (1 <= n)%Z ->
  let k50 := (n / 2)%Z in
  let k99 := py_int (IZR n * (99 / 100)) in
  let k999 := Z.min (py_int (IZR n * (999 / 1000))) (n - 1) in
  (0 <= k50 <= k99)%Z /\ (k99 <= k999)%Z /\ (k999 < n)%Z.
Proof.
  intros Hn. cbv zeta.
  assert (Hr : 1 <= IZR n) by (apply IZR_le in Hn; exact Hn).
  unfold py_int.
  destruct (Rle_dec 0 (IZR n * (99 / 100))) as [_|N]; [|lra].
  destruct (Rle_dec 0 (IZR n * (999 / 1000))) as [_|N]; [|lra].
  assert (H50 : (n / 2 <= Int_part (IZR n * (99 / 100)))%Z).
  { apply Int_part_ge.
    assert (IZR (2 * (n / 2)) <= IZR n).
    { apply IZR_le. pose proof (Z.mul_div_le n 2). lia. }
    rewrite mult_IZR in H. lra. }
  assert (H99 : (Int_part (IZR n * (99 / 100)) < n)%Z).
  { apply Int_part_lt. lra. }
  assert (Hm : (Int_part (IZR n * (99 / 100))
                <= Int_part (IZR n * (999 / 1000)))%Z).
  { apply Int_part_ge.
    destruct (base_Int_part (IZR n * (99 / 100))) as [B _]. lra. }
  assert (0 <= n / 2)%Z by (apply Z.div_pos; lia).
  lia.
Qed.

(** Products of neighbours are bounded by the squares. *)
Lemma lag_products_bound (mu : R) (l : list R) :
  let S1 := py_sum (map (fun ab => (fst ab - mu) * (snd ab - mu))
                        (combine (removelast l) (tl l))) in
  let S2 := py_sum (map (fun x => (x - mu) ^ 2) l) in
  - S2 <= S1 <= S2.
Proof.
  cbv zeta.
  assert (G : forall a l',
    let S1 := py_sum (map (fun ab => (fst ab - mu) * (snd ab - mu))
                (combine (removelast (a :: l')) l')) in
    let S2 := py_sum (map (fun x => (x - mu) ^ 2) (a :: l')) in
    - (S2 - (a - mu) ^ 2 / 2) <= S1 <= S2 - (a - mu) ^ 2 / 2).
  { intros a l'. revert a. induction l' as [|b l' IH]; intros a; cbv zeta.
    - simpl. pose proof (Rle_0_sqr (a - mu)) as Q. unfold Rsqr in Q. lra.
    - specialize (IH b). cbv zeta in IH.
      change (removelast (a :: b :: l')) with (a :: removelast (b :: l')).
      change (combine (a :: removelast (b :: l')) (b :: l'))
        with ((a, b) :: combine (removelast (b :: l')) l').
      unfold py_sum in *. cbn [map fold_right fst snd] in IH |- *.
      set (T1 := fold_right Rplus 0 (map _ (combine _ _))) in *.
      set (T2 := fold_right Rplus 0 (map _ l')) in *.
      pose proof (Rle_0_sqr ((a - mu) + (b - mu))) as Q1.
      pose proof (Rle_0_sqr ((a - mu) - (b - mu))) as Q2.
      unfold Rsqr in Q1, Q2. nra. }
  destruct l as [|a l']; [simpl; lra|].
  specialize (G a l'). cbv zeta in G. cbn [tl].
  pose proof (pow2_ge_0 (a - mu)). lra.
Qed.

Lemma py_sum_squares_nonneg (mu : R) (l : list R) :
  0 <= py_sum (map (fun x => (x - mu) ^ 2) l).
Proof.
  unfold py_sum. induction l as [|x l IH]; cbn [map fold_right]; [lra|].
  pose proof (pow2_ge_0 (x - mu)). lra.
Qed.

Lemma py_stdev_nonneg (l : list R) : 0 <= py_stdev l.
Proof. unfold py_stdev. apply sqrt_pos. Qed.

Lemma length_removelast_cons {A : Type} (x : A) (l : list A) :
  length (removelast (x :: l)) = length l.
Proof.
  revert x. induction l as [|y l IH]; intros x; [reflexivity|].
  change (removelast (x :: y :: l)) with (x :: removelast (y :: l)).
  cbn [length]. now rewrite (IH y).
Qed.

(** The guarded lag-one autocorrelation never raises and is a correlation. *)
Lemma analyze_autocorr (x : R) (l : list R) :
  let times := x :: l in
  let n := Z.of_nat (length times) in
  let mu := py_mean times in
  let std := if (1 <? n)%Z then py_stdev times else 0 in
  exists r,
    (if (10 <? n)%Z && py_gt std 0 then
       cov <- py_div (py_sum (map (fun ab => (fst ab - mu) * (snd ab - mu))
                                  (combine (removelast times) (tl times))))
                     (INR (length (removelast times))) ;;
       py_div cov (std ^ 2)
     else Ok 0) = Ok r /\ -1 <= r <= 1.
Proof.
  cbv zeta.
  set (times := x :: l). set (n := Z.of_nat (length times)).
  set (mu := py_mean times).
  destruct ((10 <? n)%Z) eqn:E10; cbn [andb]; [|exists 0; split; [reflexivity|lra]].
  apply Z.ltb_lt in E10.
  assert (E1 : (1 <? n)%Z = true) by (apply Z.ltb_lt; lia).
  rewrite E1.
  unfold py_gt. destruct (Rgt_dec (py_stdev times) 0) as [Hs|Hs];
    [|exists 0; split; [reflexivity|lra]].
  assert (Hl : (10 <= length l)%nat) by (subst n times; simpl length in E10; lia).
  assert (Hb : length (removelast times) = length l)
    by apply length_removelast_cons.
  assert (Hn1 : 0 < INR (length l)) by (apply lt_0_INR; lia).
  rewrite Hb.
  unfold py_div at 1.
  destruct (Req_dec_T (INR (length l)) 0) as [Z0|_]; [lra|].
  rewrite bind_Ok.
  set (S1 := py_sum (map _ (combine _ _))).
  pose proof (lag_products_bound mu times) as HB. cbv zeta in HB. fold S1 in HB.
  set (S2 := py_sum (map (fun x0 => (x0 - mu) ^ 2) times)) in *.
  assert (Hv : py_stdev times ^ 2 = S2 / INR (length l)).
  { unfold py_stdev. fold mu. fold S2.
    replace (length times - 1)%nat with (length l) by (subst times; simpl; lia).
    rewrite <- Rsqr_pow2. apply Rsqr_sqrt.
    apply Rmult_le_pos; [apply py_sum_squares_nonneg|].
    left. apply Rinv_0_lt_compat. exact Hn1. }
  assert (Hpos : 0 < py_stdev times ^ 2) by nra.
  unfold py_div.
  destruct (Req_dec_T (py_stdev times ^ 2) 0) as [Z0|_]; [lra|].
  exists (S1 / INR (length l) / py_stdev times ^ 2). split; [reflexivity|].
  rewrite Hv in *.
  assert (HS2 : 0 < S2).
  { unfold Rdiv in Hpos.
    assert (0 < / INR (length l)) by (apply Rinv_0_lt_compat; exact Hn1).
    nra. }
  replace (S1 / INR (length l) / (S2 / INR (length l))) with (S1 / S2)
    by (field; lra).
  split.
  - apply Rmult_le_reg_r with S2; [exact HS2|].
    unfold Rdiv. rewrite Rmult_assoc, Rinv_l by lra. lra.
  - apply Rmult_le_reg_r with S2; [exact HS2|].
    unfold Rdiv. rewrite Rmult_assoc, Rinv_l by lra. lra.
Qed.

(** The guarded coefficient of variation never raises and is not negative. *)
Lemma analyze_cv (mu std : R) :
  0 <= std ->
  exists cv, (if py_gt mu 0 then py_div std mu else Ok 0) = Ok cv /\ 0 <= cv.
Proof.
  intros Hs. unfold py_gt. destruct (Rgt_dec mu 0) as [H|H].
  - unfold py_div. destruct (Req_dec_T mu 0) as [Z0|_]; [lra|].
    exists (std / mu). split; [reflexivity|].
    apply Rmult_le_pos; [exact Hs|]. left. apply Rinv_0_lt_compat. lra.
  - exists 0. split; [reflexivity|lra].
Qed.


(** What [analyze] returns on a non-empty list. *)
Lemma analyze_returns (x : R) (l : list R) (label : string) :
  let times := x :: l in
  let s := py_sorted times in
  let n := Z.of_nat (length times) in
  exists cv autocorr,
    0 <= cv /\ -1 <= autocorr <= 1 /\
    analyze times label =
      Ok (Some (mkStats label n (py_mean times)
                  (if (1 <? n)%Z then py_stdev times else 0) cv
                  (nth (Z.to_nat (n / 2)) s 0)
                  (nth (Z.to_nat (py_int (IZR n * (99 / 100)))) s 0)
                  (nth (Z.to_nat (Z.min (py_int (IZR n * (999 / 1000))) (n - 1)))
                       s 0)
                  (py_max times)
                  (match map Rabs (adjacent_diffs times) with
                   | [] => 0
                   | _ :: _ => py_mean (map Rabs (adjacent_diffs times))
                   end)
                  autocorr
                  (s_star (1 / (1 + cv)) (Rmax 0 ((1 + autocorr) / 2))))).
Proof.
  cbv zeta.
  set (times := x :: l). set (n := Z.of_nat (length times)).
  assert (Hn : (1 <= n)%Z) by (subst n times; simpl length; lia).
  assert (Hstd : 0 <= (if (1 <? n)%Z then py_stdev times else 0)).
  { destruct (1 <? n)%Z; [apply py_stdev_nonneg|lra]. }
  destruct (analyze_cv (py_mean times) _ Hstd) as (cv & Ecv & Hcv).
  destruct (analyze_autocorr x l) as (r & Er & Hr). cbv zeta in Er.
  fold times in Er. fold n in Er.
  destruct (percentile_indices n Hn) as (H50 & H99 & H999). 
  exists cv, r. split; [exact Hcv|]. split; [exact Hr|].
  unfold analyze. fold times. unfold times at 1. fold times. fold n.
  rewrite Ecv, bind_Ok.
  rewrite py_sorted_length. fold n.
  rewrite !py_getitem_nth, !bind_Ok by (rewrite py_sorted_length; fold n; lia).
  rewrite Er, bind_Ok.
  unfold py_div. destruct (Req_dec_T (1 + cv) 0) as [Z0|_]; [lra|].
  rewrite bind_Ok. reflexivity.
Qed.

(** X23 (benchmark_raw_vs_lattice / analyze).  [analyze] never raises: on
    the empty list it returns the empty dict, and on any other list it
    returns the statistics, with ['n'] the number of timings and the given
    label.  The three percentiles and the maximum are timings of the list,
    in the order p50 <= p99 <= p999 <= max, and no timing exceeds the
    maximum. *)
Theorem X23_analyze_returns_ordered_percentiles
  (x : R) (l : list R) (label : string) :
  analyze [] label = Ok None /\
  exists st,
    analyze (x :: l) label = Ok (Some st) /\
    stat_label st = label /\
    stat_n st = Z.of_nat (length (x :: l)) /\
    In (stat_p50 st) (x :: l) /\ In (stat_p99 st) (x :: l) /\
    In (stat_p999 st) (x :: l) /\ In (stat_max st) (x :: l) /\
    stat_p50 st <= stat_p99 st <= stat_p999 st /\
    stat_p999 st <= stat_max st /\
    Forall (fun y => y <= stat_max st) (x :: l).
Proof.
  split; [reflexivity|].
  destruct (analyze_returns x l label) as (cv & r & _ & _ & E).
  cbv zeta in E.
  set (times := x :: l) in *. set (n := Z.of_nat (length times)) in *.
  assert (Hn : (1 <= n)%Z) by (subst n times; simpl length; lia).
  destruct (percentile_indices n Hn) as (H50 & H99 & H999).
  cbv zeta in H50, H99, H999.
  assert (Hlen : length (py_sorted times) = Z.to_nat n).
  { rewrite py_sorted_length. subst n. now rewrite Nat2Z.id. }
  assert (Hin : forall k, (0 <= k < n)%Z ->
                 In (nth (Z.to_nat k) (py_sorted times) 0) times).
  { intros k Hk. apply py_sorted_In, nth_In. lia. }
  assert (Hmono : forall i j, (0 <= i <= j)%Z -> (j < n)%Z ->
                   nth (Z.to_nat i) (py_sorted times) 0
                   <= nth (Z.to_nat j) (py_sorted times) 0).
  { intros i j Hij Hj. apply ascending_nth; [apply py_sorted_ascending|lia]. }
  eexists. split; [exact E|]. cbn [stat_label stat_n stat_p50 stat_p99 stat_p999 stat_max].
  split; [reflexivity|]. split; [reflexivity|].
  split; [apply Hin; lia|]. split; [apply Hin; lia|]. split; [apply Hin; lia|].
  split; [apply (fold_left_Rmax_In l x)|].
  split; [split; apply Hmono; lia|].
  split; [apply py_max_ge, Hin; lia|].
  apply Forall_forall. intros y Hy. apply py_max_ge, Hy.
Qed.


